(** * File transfer protocol: codec, receiver and sender

    A shallow embedding of the wire codec ([src/common/protocol.c]), the
    protocol engine ([network.c]), the filesystem helpers ([fileio.c]) and
    the two role state machines ([server_main.c], [client_main.c]).

    Unsigned C integers are values of [Z] with the wrap-around written
    out; byte buffers are [list Z]; the operating system (socket, files,
    allocator) is an explicit [World] threaded through every call. *)

From Stdlib Require Import ZArith List Lia Bool Ascii String.
From stdpp Require Import base numbers list gmap.
Import ListNotations.

Local Open Scope Z_scope.

(** ** Fixed-width unsigned integers *)

Definition u8 (x : Z) : Z := x mod 2 ^ 8.
Definition u16 (x : Z) : Z := x mod 2 ^ 16.
Definition u32 (x : Z) : Z := x mod 2 ^ 32.
Definition u64 (x : Z) : Z := x mod 2 ^ 64.

Definition is_u8 (x : Z) : Prop := 0 <= x < 2 ^ 8.
Definition is_u16 (x : Z) : Prop := 0 <= x < 2 ^ 16.
Definition is_u32 (x : Z) : Prop := 0 <= x < 2 ^ 32.
Definition is_u64 (x : Z) : Prop := 0 <= x < 2 ^ 64.

(** ** Byte order

    [le_bytes n x] is the [n]-byte little-endian image of [x], [le_val]
    its inverse. The host stores a multi-byte integer in memory in its
    native order, which is the one thing the code does not know. *)

Class Host := big_endian : bool.

Fixpoint le_bytes (n : nat) (x : Z) : list Z :=
  match n with
  | O => []
  | S n' => x mod 256 :: le_bytes n' (x / 256)
  end.

Fixpoint le_val (l : list Z) : Z :=
  match l with
  | [] => 0
  | b :: l' => b + 256 * le_val l'
  end.

Definition be_bytes (n : nat) (x : Z) : list Z := rev (le_bytes n x).
Definition be_val (l : list Z) : Z := le_val (rev l).

(** What a store through a [uintN_t*] leaves in memory, and what a load
    through it yields. *)
Definition native_bytes `{Host} (n : nat) (x : Z) : list Z :=
  if big_endian then be_bytes n x else le_bytes n x.

Definition native_val `{Host} (l : list Z) : Z :=
  if big_endian then be_val l else le_val l.

Definition bswap (n : nat) (x : Z) : Z := le_val (rev (le_bytes n x)).

(** libc's [htons]/[htonl] and their inverses. *)
Definition htons `{Host} (x : Z) : Z := if big_endian then x else bswap 2 x.
Definition ntohs `{Host} (x : Z) : Z := if big_endian then x else bswap 2 x.
Definition htonl `{Host} (x : Z) : Z := if big_endian then x else bswap 4 x.
Definition ntohl `{Host} (x : Z) : Z := if big_endian then x else bswap 4 x.

(** platform.h:
    [#define htonll(x) ((1==htonl(1)) ? (x) :
       ((uint64_t)htonl((x) & 0xFFFFFFFF) << 32) | htonl((x) >> 32))] *)
Definition htonll `{Host} (x : Z) : Z :=
  if 1 =? htonl 1 then x
  else Z.lor (Z.shiftl (htonl (Z.land x 0xFFFFFFFF)) 32) (htonl (Z.shiftr x 32)).

Definition ntohll `{Host} (x : Z) : Z :=
  if 1 =? ntohl 1 then x
  else Z.lor (Z.shiftl (ntohl (Z.land x 0xFFFFFFFF)) 32) (ntohl (Z.shiftr x 32)).

(** ** Byte buffers *)

Definition buf_write (off : nat) (bs buf : list Z) : list Z :=
  take off buf ++ bs ++ drop (off + length bs) buf.

Definition buf_read (off n : nat) (buf : list Z) : list Z :=
  take n (drop off buf).

(** [buffer[off] = v] and the stores and loads through cast pointers, all
    addressed by byte offset. *)
Definition store8 (buf : list Z) (off : nat) (v : Z) : list Z :=
  buf_write off [v] buf.
Definition store16 `{Host} (buf : list Z) (off : nat) (v : Z) : list Z :=
  buf_write off (native_bytes 2 v) buf.
Definition store32 `{Host} (buf : list Z) (off : nat) (v : Z) : list Z :=
  buf_write off (native_bytes 4 v) buf.
Definition store64 `{Host} (buf : list Z) (off : nat) (v : Z) : list Z :=
  buf_write off (native_bytes 8 v) buf.

Definition load8 (buf : list Z) (off : nat) : Z := nth off buf 0.
Definition load16 `{Host} (buf : list Z) (off : nat) : Z :=
  native_val (buf_read off 2 buf).
Definition load32 `{Host} (buf : list Z) (off : nat) : Z :=
  native_val (buf_read off 4 buf).
Definition load64 `{Host} (buf : list Z) (off : nat) : Z :=
  native_val (buf_read off 8 buf).

Definition memcpy_to (dst : list Z) (off : nat) (src : list Z) : list Z :=
  buf_write off src dst.
Definition memset (buf : list Z) (off : nat) (v : Z) (n : nat) : list Z :=
  buf_write off (replicate n v) buf.

(** ** CRC-32 *)

(** Modelled from the spec: [crc32_compute] is declared in checksum.h but
    its definition is not among the sources. The spec asks for "a CRC-32
    function producing IEEE 802.3 polynomial results over a byte range":
    the reflected polynomial 0xEDB88320, initial value and final
    complement 0xFFFFFFFF, one bit at a time. *)
Definition crc32_bit (crc : Z) : Z :=
  if Z.testbit crc 0 then Z.lxor (Z.shiftr crc 1) 0xEDB88320
  else Z.shiftr crc 1.

Definition crc32_byte (crc b : Z) : Z :=
  Nat.iter 8 crc32_bit (Z.lxor crc (b mod 256)).

Definition crc32_compute (data : list Z) : Z :=
  Z.lxor (fold_left crc32_byte data 0xFFFFFFFF) 0xFFFFFFFF.

Definition bytes_of_string (s : string) : list Z :=
  map (fun c => Z.of_nat (nat_of_ascii c)) (list_ascii_of_string s).

(** ** protocol.h: constants, error codes and wire structures *)

Definition FT_PROTOCOL_VERSION : Z := 0x01.
Definition FT_MAGIC_NUMBER : Z := 0x46544350.
Definition FT_DEFAULT_CHUNK_SIZE : Z := 524288.
Definition FT_MAX_FILENAME_LEN : nat := 256.
Definition FT_MAX_RETRIES : Z := 3.
Definition FT_HEADER_SIZE : nat := 32.
Definition FT_FILE_INFO_SIZE : nat := 1024.
Definition FT_CHUNK_HEADER_SIZE : nat := 24.
Definition FT_SHA256_SIZE : nat := 32.

Definition MSG_HANDSHAKE_REQ : Z := 0x01.
Definition MSG_HANDSHAKE_ACK : Z := 0x02.
Definition MSG_FILE_INFO : Z := 0x03.
Definition MSG_FILE_ACK : Z := 0x04.
Definition MSG_CHUNK_DATA : Z := 0x05.
Definition MSG_CHUNK_ACK : Z := 0x06.
Definition MSG_TRANSFER_COMPLETE : Z := 0x07.
Definition MSG_VERIFY_REQUEST : Z := 0x08.
Definition MSG_VERIFY_RESPONSE : Z := 0x09.
Definition MSG_ERROR : Z := 0xFF.

Definition CHECKSUM_SHA256 : Z := 2.

Inductive FTErrorCode : Type :=
  | FT_SUCCESS
  | FT_ERR_SOCKET | FT_ERR_CONNECT | FT_ERR_BIND | FT_ERR_LISTEN
  | FT_ERR_ACCEPT | FT_ERR_SEND | FT_ERR_RECV | FT_ERR_TIMEOUT
  | FT_ERR_FILE_OPEN | FT_ERR_FILE_READ | FT_ERR_FILE_WRITE
  | FT_ERR_FILE_SEEK | FT_ERR_DISK_FULL | FT_ERR_PERMISSION
  | FT_ERR_CHECKSUM | FT_ERR_PROTOCOL | FT_ERR_VERSION | FT_ERR_INVALID_MSG
  | FT_ERR_OUT_OF_MEMORY | FT_ERR_INVALID_ARG | FT_ERR_FILE_NOT_FOUND
  | FT_ERR_FILENAME_TOO_LONG.

Definition FTErrorCode_value (e : FTErrorCode) : Z :=
  match e with
  | FT_SUCCESS => 0
  | FT_ERR_SOCKET => -1 | FT_ERR_CONNECT => -2 | FT_ERR_BIND => -3
  | FT_ERR_LISTEN => -4 | FT_ERR_ACCEPT => -5 | FT_ERR_SEND => -6
  | FT_ERR_RECV => -7 | FT_ERR_TIMEOUT => -8
  | FT_ERR_FILE_OPEN => -10 | FT_ERR_FILE_READ => -11
  | FT_ERR_FILE_WRITE => -12 | FT_ERR_FILE_SEEK => -13
  | FT_ERR_DISK_FULL => -14 | FT_ERR_PERMISSION => -15
  | FT_ERR_CHECKSUM => -20 | FT_ERR_PROTOCOL => -21 | FT_ERR_VERSION => -22
  | FT_ERR_INVALID_MSG => -23
  | FT_ERR_OUT_OF_MEMORY => -30 | FT_ERR_INVALID_ARG => -31
  | FT_ERR_FILE_NOT_FOUND => -32 | FT_ERR_FILENAME_TOO_LONG => -33
  end.

#[global] Instance FTErrorCode_eq_dec : EqDecision FTErrorCode.
Proof. solve_decision. Defined.

Module MessageHeader.
Record t : Type := mk {
  magic : Z;          (* uint32_t *)
  version : Z;        (* uint8_t *)
  msg_type : Z;       (* uint8_t *)
  flags : Z;          (* uint16_t *)
  sequence_num : Z;   (* uint64_t *)
  payload_size : Z;   (* uint64_t *)
  checksum : Z;       (* uint32_t *)
  reserved : Z        (* uint32_t *)
}.
End MessageHeader.
Abbreviation MessageHeader := MessageHeader.t.

Module FileInfo.
Record t : Type := mk {
  filename_len : Z;          (* uint16_t *)
  filename : list Z;         (* char[FT_MAX_FILENAME_LEN] *)
  file_size : Z;             (* uint64_t *)
  total_chunks : Z;          (* uint64_t *)
  chunk_size : Z;            (* uint32_t *)
  checksum_type : Z;         (* uint8_t *)
  file_checksum : list Z;    (* uint8_t[FT_SHA256_SIZE] *)
  file_mode : Z;             (* uint32_t *)
  timestamp : Z;             (* uint64_t *)
  reserved : list Z          (* uint8_t[669] *)
}.
End FileInfo.
Abbreviation FileInfo := FileInfo.t.

Module ChunkHeader.
Record t : Type := mk {
  chunk_id : Z;       (* uint64_t *)
  chunk_offset : Z;   (* uint64_t *)
  chunk_size : Z;     (* uint32_t *)
  chunk_crc32 : Z     (* uint32_t *)
}.
End ChunkHeader.
Abbreviation ChunkHeader := ChunkHeader.t.

Module ChunkAck.
Record t : Type := mk {
  chunk_id : Z;       (* uint64_t *)
  status : Z          (* uint8_t; the 3 reserved bytes carry nothing *)
}.
End ChunkAck.
Abbreviation ChunkAck := ChunkAck.t.

Definition wf_header (h : MessageHeader) : Prop :=
  is_u32 (MessageHeader.magic h) /\ is_u8 (MessageHeader.version h) /\
  is_u8 (MessageHeader.msg_type h) /\ is_u16 (MessageHeader.flags h) /\
  is_u64 (MessageHeader.sequence_num h) /\
  is_u64 (MessageHeader.payload_size h) /\
  is_u32 (MessageHeader.checksum h) /\ is_u32 (MessageHeader.reserved h).

(** ** protocol.c *)

Definition protocol_init_header (msg_type sequence_num payload_size : Z)
  : MessageHeader :=
  {| MessageHeader.magic := FT_MAGIC_NUMBER;
     MessageHeader.version := FT_PROTOCOL_VERSION;
     MessageHeader.msg_type := u8 msg_type;
     MessageHeader.flags := 0;
     MessageHeader.sequence_num := sequence_num;
     MessageHeader.payload_size := payload_size;
     MessageHeader.checksum := 0;
     MessageHeader.reserved := 0 |}.

Definition protocol_serialize_header `{Host}
    (header : MessageHeader) (buffer : list Z) : list Z :=
  let buffer := store32 buffer 0 (htonl (MessageHeader.magic header)) in
  let buffer := store8 buffer 4 (MessageHeader.version header) in
  let buffer := store8 buffer 5 (MessageHeader.msg_type header) in
  let buffer := store16 buffer 6 (htons (MessageHeader.flags header)) in
  let buffer := store64 buffer 8 (htonll (MessageHeader.sequence_num header)) in
  let buffer := store64 buffer 16 (htonll (MessageHeader.payload_size header)) in
  let checksum := crc32_compute (take 24 buffer) in
  let buffer := store32 buffer 24 (htonl checksum) in
  store32 buffer 28 (htonl (MessageHeader.reserved header)).

Definition protocol_deserialize_header `{Host} (buffer : list Z)
  : MessageHeader :=
  {| MessageHeader.magic := ntohl (load32 buffer 0);
     MessageHeader.version := load8 buffer 4;
     MessageHeader.msg_type := load8 buffer 5;
     MessageHeader.flags := ntohs (load16 buffer 6);
     MessageHeader.sequence_num := ntohll (load64 buffer 8);
     MessageHeader.payload_size := ntohll (load64 buffer 16);
     MessageHeader.checksum := ntohl (load32 buffer 24);
     MessageHeader.reserved := ntohl (load32 buffer 28) |}.

Definition protocol_validate_header (header : MessageHeader) : FTErrorCode :=
  if negb (MessageHeader.magic header =? FT_MAGIC_NUMBER) then FT_ERR_PROTOCOL
  else if negb (MessageHeader.version header =? FT_PROTOCOL_VERSION)
  then FT_ERR_VERSION
  else if (MessageHeader.msg_type header <? MSG_HANDSHAKE_REQ)
          || ((MessageHeader.msg_type header >? MSG_VERIFY_RESPONSE)
              && negb (MessageHeader.msg_type header =? MSG_ERROR))
  then FT_ERR_INVALID_MSG
  else FT_SUCCESS.

Definition protocol_compute_header_checksum `{Host} (header : MessageHeader)
    (uninit : list Z) : Z :=
  crc32_compute (take 24 (protocol_serialize_header header uninit)).

Definition protocol_serialize_file_info `{Host}
    (file_info : FileInfo) (buffer : list Z) : list Z :=
  let buffer := store16 buffer 0 (htons (FileInfo.filename_len file_info)) in
  let offset := 2%nat in
  let buffer :=
    memcpy_to buffer offset (take FT_MAX_FILENAME_LEN (FileInfo.filename file_info)) in
  let offset := (offset + FT_MAX_FILENAME_LEN)%nat in
  let buffer := store64 buffer offset (htonll (FileInfo.file_size file_info)) in
  let offset := (offset + 8)%nat in
  let buffer := store64 buffer offset (htonll (FileInfo.total_chunks file_info)) in
  let offset := (offset + 8)%nat in
  let buffer := store32 buffer offset (htonl (FileInfo.chunk_size file_info)) in
  let offset := (offset + 4)%nat in
  let buffer := store8 buffer offset (FileInfo.checksum_type file_info) in
  let offset := (offset + 1)%nat in
  let buffer :=
    memcpy_to buffer offset (take FT_SHA256_SIZE (FileInfo.file_checksum file_info)) in
  let offset := (offset + FT_SHA256_SIZE)%nat in
  let buffer := store32 buffer offset (htonl (FileInfo.file_mode file_info)) in
  let offset := (offset + 4)%nat in
  let buffer := store64 buffer offset (htonll (FileInfo.timestamp file_info)) in
  let offset := (offset + 8)%nat in
  memset buffer offset 0 669.

Definition protocol_deserialize_file_info `{Host}
    (buffer : list Z) (file_info : FileInfo) : FileInfo :=
  let filename_len := ntohs (load16 buffer 0) in
  let offset := 2%nat in
  let filename := buf_read offset FT_MAX_FILENAME_LEN buffer in
  let filename := store8 filename (FT_MAX_FILENAME_LEN - 1) 0 in
  let offset := (offset + FT_MAX_FILENAME_LEN)%nat in
  let file_size := ntohll (load64 buffer offset) in
  let offset := (offset + 8)%nat in
  let total_chunks := ntohll (load64 buffer offset) in
  let offset := (offset + 8)%nat in
  let chunk_size := ntohl (load32 buffer offset) in
  let offset := (offset + 4)%nat in
  let checksum_type := load8 buffer offset in
  let offset := (offset + 1)%nat in
  let file_checksum := buf_read offset FT_SHA256_SIZE buffer in
  let offset := (offset + FT_SHA256_SIZE)%nat in
  let file_mode := ntohl (load32 buffer offset) in
  let offset := (offset + 4)%nat in
  let timestamp := ntohll (load64 buffer offset) in
  {| FileInfo.filename_len := filename_len;
     FileInfo.filename := filename;
     FileInfo.file_size := file_size;
     FileInfo.total_chunks := total_chunks;
     FileInfo.chunk_size := chunk_size;
     FileInfo.checksum_type := checksum_type;
     FileInfo.file_checksum := file_checksum;
     FileInfo.file_mode := file_mode;
     FileInfo.timestamp := timestamp;
     FileInfo.reserved := FileInfo.reserved file_info |}.

Definition protocol_serialize_chunk_header `{Host}
    (chunk_hdr : ChunkHeader) (buffer : list Z) : list Z :=
  let buffer := store64 buffer 0 (htonll (ChunkHeader.chunk_id chunk_hdr)) in
  let buffer := store64 buffer 8 (htonll (ChunkHeader.chunk_offset chunk_hdr)) in
  let buffer := store32 buffer 16 (htonl (ChunkHeader.chunk_size chunk_hdr)) in
  store32 buffer 20 (htonl (ChunkHeader.chunk_crc32 chunk_hdr)).

Definition protocol_deserialize_chunk_header `{Host} (buffer : list Z)
  : ChunkHeader :=
  {| ChunkHeader.chunk_id := ntohll (load64 buffer 0);
     ChunkHeader.chunk_offset := ntohll (load64 buffer 8);
     ChunkHeader.chunk_size := ntohl (load32 buffer 16);
     ChunkHeader.chunk_crc32 := ntohl (load32 buffer 20) |}.

(** ** The world outside the program

    The peer, the kernel and the C library are scripted: the world holds
    what the peer will deliver, how each coming system call will turn out,
    and what the program has done so far. Every theorem quantifies over
    the world, hence over all such scripts. The incoming stream is a
    finite list: when it is used up, [recv] reports that the peer has
    closed the connection. *)

Inductive rx_item : Type :=
  | RxByte (b : Z)            (* the next byte the peer delivers *)
  | RxFault (fatal : bool).   (* recv() < 0 at this point of the stream *)

Inductive tx_outcome : Type :=
  | TxDone
  | TxFault (fatal : bool).   (* send() <= 0 *)

Inductive tx_event : Type :=
  | Sent (buf : list Z)
  | SendFailed (buf : list Z).

Inductive Errno : Type := ENOENT | EACCES | ENOSPC | EIO.

Inductive write_outcome : Type :=
  | WriteOk
  | WriteSeekFail
  | WriteShort (errno : Errno)   (* fwrite wrote fewer bytes than asked *)
  | WriteFlushFail.

Inductive read_outcome : Type :=
  | ReadOk
  | ReadSeekFail
  | ReadError (delivered : nat).  (* fread stops after [delivered] bytes, ferror set *)

(** History of the calls the claims count. *)
Inductive call : Type :=
  | CallSendChunk (chunk_id : Z)
  | CallSendChunkAck (chunk_id status : Z).

Record StatResult : Type := mkStat {
  st_is_reg : bool;
  st_size : Z;      (* off_t *)
  st_mode : Z;
  st_mtime : Z
}.

Record World : Type := mkWorld {
  (* socket *)
  rx : list rx_item;
  tx_script : list tx_outcome;   (* outcomes of the coming socket_send_all calls; none left: success *)
  tx_log : list tx_event;
  history : list call;
  (* memory *)
  junk : list Z;                 (* what uninitialised storage holds *)
  malloc_ok : bool;
  (* receiver's file system *)
  fs : gmap (list Z) (list Z);
  disk_avail : option Z;         (* statvfs: bytes available, None when it fails *)
  fopen_errno : option Errno;    (* fopen(.., "wb"): None when it succeeds *)
  write_script : list write_outcome;
  rename_ok : bool;
  remove_ok : bool;              (* remove(): false when it fails *)
  (* sender's source file *)
  src_stat : option StatResult;
  src_open_errno : option Errno;
  src_data : list Z;             (* what fread finds, whatever stat said earlier *)
  read_script : list read_outcome
}.

Definition set_rx (v : list rx_item) (w : World) : World :=
  mkWorld v (tx_script w) (tx_log w) (history w) (junk w) (malloc_ok w)
    (fs w) (disk_avail w) (fopen_errno w) (write_script w) (rename_ok w)
    (remove_ok w)
    (src_stat w) (src_open_errno w) (src_data w) (read_script w).

Definition set_tx (s : list tx_outcome) (l : list tx_event) (w : World) : World :=
  mkWorld (rx w) s l (history w) (junk w) (malloc_ok w)
    (fs w) (disk_avail w) (fopen_errno w) (write_script w) (rename_ok w)
    (remove_ok w)
    (src_stat w) (src_open_errno w) (src_data w) (read_script w).

Definition set_history (v : list call) (w : World) : World :=
  mkWorld (rx w) (tx_script w) (tx_log w) v (junk w) (malloc_ok w)
    (fs w) (disk_avail w) (fopen_errno w) (write_script w) (rename_ok w)
    (remove_ok w)
    (src_stat w) (src_open_errno w) (src_data w) (read_script w).

Definition set_fs (v : gmap (list Z) (list Z)) (w : World) : World :=
  mkWorld (rx w) (tx_script w) (tx_log w) (history w) (junk w) (malloc_ok w)
    v (disk_avail w) (fopen_errno w) (write_script w) (rename_ok w)
    (remove_ok w)
    (src_stat w) (src_open_errno w) (src_data w) (read_script w).

Definition set_write_script (v : list write_outcome) (w : World) : World :=
  mkWorld (rx w) (tx_script w) (tx_log w) (history w) (junk w) (malloc_ok w)
    (fs w) (disk_avail w) (fopen_errno w) v (rename_ok w)
    (remove_ok w)
    (src_stat w) (src_open_errno w) (src_data w) (read_script w).

Definition set_read_script (v : list read_outcome) (w : World) : World :=
  mkWorld (rx w) (tx_script w) (tx_log w) (history w) (junk w) (malloc_ok w)
    (fs w) (disk_avail w) (fopen_errno w) (write_script w) (rename_ok w)
    (remove_ok w)
    (src_stat w) (src_open_errno w) (src_data w) v.

(** ** Calls that return 0 or -1 and an error code *)

Inductive result (A : Type) : Type :=
  | Ok (a : A)
  | Err (e : FTErrorCode).
Arguments Ok {A} a.
Arguments Err {A} e.

Definition M (A : Type) : Type := World -> result A * World.

Definition ret {A} (a : A) : M A := fun w => (Ok a, w).
Definition fail {A} (e : FTErrorCode) : M A := fun w => (Err e, w).
Definition bind {A B} (m : M A) (k : A -> M B) : M B :=
  fun w => match m w with
           | (Ok a, w') => k a w'
           | (Err e, w') => (Err e, w')
           end.

(** A call whose return value the caller drops. *)
Definition ignore {A} (m : M A) : M unit :=
  fun w => (Ok tt, snd (m w)).

Declare Scope io_scope.
Delimit Scope io_scope with io.
Notation "x <- c ;; k" := (bind c (fun x => k))
  (at level 100, c at next level, right associativity) : io_scope.
Notation "c ;; k" := (bind c (fun _ => k))
  (at level 100, right associativity) : io_scope.
Local Open Scope io_scope.

Definition uninit_bytes (n : nat) (w : World) : list Z :=
  take n (junk w ++ replicate n 0).

Definition uninit (n : nat) : M (list Z) :=
  fun w => (Ok (uninit_bytes n w), w).

Definition record_call (c : call) : M unit :=
  fun w => (Ok tt, set_history (history w ++ [c]) w).

(** ** network.c *)

Definition socket_send_all (buffer : list Z) : M unit :=
  fun w =>
    match buffer with
    | [] => (Ok tt, w)
    | _ =>
      match tx_script w with
      | [] => (Ok tt, set_tx [] (tx_log w ++ [Sent buffer]) w)
      | TxDone :: s => (Ok tt, set_tx s (tx_log w ++ [Sent buffer]) w)
      | TxFault fatal :: s =>
        (Err (if fatal then FT_ERR_SEND else FT_ERR_TIMEOUT),
         set_tx s (tx_log w ++ [SendFailed buffer]) w)
      end
    end.

Fixpoint recv_items (n : nat) (items : list rx_item)
  : result (list Z) * list rx_item :=
  match n with
  | O => (Ok [], items)
  | S n' =>
    match items with
    | [] => (Err FT_ERR_RECV, [])                      (* closed by peer *)
    | RxFault fatal :: items' =>
      (Err (if fatal then FT_ERR_RECV else FT_ERR_TIMEOUT), items')
    | RxByte b :: items' =>
      match recv_items n' items' with
      | (Ok bs, items'') => (Ok (b :: bs), items'')
      | (Err e, items'') => (Err e, items'')
      end
    end
  end.

(** The next [length] bytes of the stream, or the first failure. The pieces
    in which [recv] delivers them are not modelled. The request passed to
    [recv] is [(int)(length - total_received)]: the model is meant for the
    lengths the program passes, which are below 2^32. *)
Definition socket_recv_all (length : Z) : M (list Z) :=
  fun w =>
    let '(r, items) := recv_items (Z.to_nat length) (rx w) in
    (r, set_rx items w).

Definition send_message `{Host} (msg_type sequence_num : Z)
    (payload : list Z) (payload_size : Z) : M unit :=
  let header := protocol_init_header msg_type sequence_num payload_size in
  header_buf <- uninit FT_HEADER_SIZE ;;
  let header_buf := protocol_serialize_header header header_buf in
  socket_send_all header_buf ;;
  if payload_size >? 0
  then socket_send_all (take (Z.to_nat payload_size) payload)
  else ret tt.

Definition recv_message `{Host} (payload : list Z) (max_payload_size : Z)
  : M (MessageHeader * list Z) :=
  header_buf <- socket_recv_all (Z.of_nat FT_HEADER_SIZE) ;;
  let header := protocol_deserialize_header header_buf in
  let validation_result := protocol_validate_header header in
  if negb (bool_decide (validation_result = FT_SUCCESS))
  then fail validation_result
  else if MessageHeader.payload_size header >? 0
  then
    if MessageHeader.payload_size header >? max_payload_size
    then fail FT_ERR_PROTOCOL
    else
      bytes <- socket_recv_all (MessageHeader.payload_size header) ;;
      ret (header, buf_write 0 bytes payload)
  else ret (header, payload).

(** [HandshakePayload] is sent as the struct lies in memory:
    protocol_version, capabilities, reserved (two zero bytes). *)
Definition HandshakePayload_bytes (protocol_version capabilities : Z) : list Z :=
  [protocol_version; capabilities; 0; 0].

Definition perform_handshake_client `{Host} : M unit :=
  let payload := HandshakePayload_bytes FT_PROTOCOL_VERSION 0 in
  send_message MSG_HANDSHAKE_REQ 0 payload 4 ;;
  ack_payload <- uninit 4 ;;
  reply <- recv_message ack_payload 4 ;;
  let '(header, ack_payload) := reply in
  if negb (MessageHeader.msg_type header =? MSG_HANDSHAKE_ACK)
  then fail FT_ERR_PROTOCOL
  else if negb (load8 ack_payload 0 =? FT_PROTOCOL_VERSION)
  then fail FT_ERR_VERSION
  else ret tt.

Definition perform_handshake_server `{Host} : M unit :=
  payload <- uninit 4 ;;
  request <- recv_message payload 4 ;;
  let '(header, payload) := request in
  if negb (MessageHeader.msg_type header =? MSG_HANDSHAKE_REQ)
  then fail FT_ERR_PROTOCOL
  else if negb (load8 payload 0 =? FT_PROTOCOL_VERSION)
  then fail FT_ERR_VERSION
  else
    let ack_payload := HandshakePayload_bytes FT_PROTOCOL_VERSION 0 in
    send_message MSG_HANDSHAKE_ACK (u64 (MessageHeader.sequence_num header + 1))
      ack_payload 4.

Definition send_file_info `{Host} (file_info : FileInfo) (sequence_num : Z)
  : M unit :=
  buffer <- uninit FT_FILE_INFO_SIZE ;;
  let buffer := protocol_serialize_file_info file_info buffer in
  send_message MSG_FILE_INFO sequence_num buffer (Z.of_nat FT_FILE_INFO_SIZE).

Definition uninit_FileInfo : M FileInfo :=
  j <- uninit 992 ;;
  ret (FileInfo.mk 0 (replicate 256 0) 0 0 0 0 (replicate 32 0) 0 0 (drop 323 j)).

Definition recv_file_info `{Host} : M FileInfo :=
  file_info <- uninit_FileInfo ;;
  buffer <- uninit FT_FILE_INFO_SIZE ;;
  message <- recv_message buffer (Z.of_nat FT_FILE_INFO_SIZE) ;;
  let '(header, buffer) := message in
  if negb (MessageHeader.msg_type header =? MSG_FILE_INFO)
  then fail FT_ERR_PROTOCOL
  else ret (protocol_deserialize_file_info buffer file_info).

Definition send_chunk `{Host} (chunk_id chunk_offset : Z) (data : list Z)
    (data_size : Z) (sequence_num : Z) : M unit :=
  record_call (CallSendChunk chunk_id) ;;
  let chunk_crc := crc32_compute (take (Z.to_nat data_size) data) in
  let chunk_hdr :=
    {| ChunkHeader.chunk_id := chunk_id;
       ChunkHeader.chunk_offset := chunk_offset;
       ChunkHeader.chunk_size := u32 data_size;
       ChunkHeader.chunk_crc32 := chunk_crc |} in
  chunk_hdr_buf <- uninit FT_CHUNK_HEADER_SIZE ;;
  let chunk_hdr_buf := protocol_serialize_chunk_header chunk_hdr chunk_hdr_buf in
  let total_payload := Z.of_nat FT_CHUNK_HEADER_SIZE + data_size in
  let msg_hdr := protocol_init_header MSG_CHUNK_DATA sequence_num total_payload in
  msg_hdr_buf <- uninit FT_HEADER_SIZE ;;
  let msg_hdr_buf := protocol_serialize_header msg_hdr msg_hdr_buf in
  socket_send_all msg_hdr_buf ;;
  socket_send_all chunk_hdr_buf ;;
  socket_send_all (take (Z.to_nat data_size) data).

(** [recv_chunk] fills [*chunk_hdr] as soon as the chunk header is read, so
    the header comes back beside the result: the caller reads its
    [chunk_id] after a checksum failure. The data returned are the
    [chunk_size] bytes at the start of the caller's buffer, the only part
    of it that is read afterwards. *)
Definition recv_chunk `{Host} (chunk_hdr : ChunkHeader) (max_data_size : Z)
  : World -> result (list Z) * ChunkHeader * World :=
  fun w =>
    match socket_recv_all (Z.of_nat FT_HEADER_SIZE) w with
    | (Err e, w) => (Err e, chunk_hdr, w)
    | (Ok msg_hdr_buf, w) =>
      let msg_hdr := protocol_deserialize_header msg_hdr_buf in
      if negb (bool_decide (protocol_validate_header msg_hdr = FT_SUCCESS))
      then (Err FT_ERR_PROTOCOL, chunk_hdr, w)
      else if negb (MessageHeader.msg_type msg_hdr =? MSG_CHUNK_DATA)
      then (Err FT_ERR_PROTOCOL, chunk_hdr, w)
      else
        match socket_recv_all (Z.of_nat FT_CHUNK_HEADER_SIZE) w with
        | (Err e, w) => (Err e, chunk_hdr, w)
        | (Ok chunk_hdr_buf, w) =>
          let chunk_hdr := protocol_deserialize_chunk_header chunk_hdr_buf in
          if ChunkHeader.chunk_size chunk_hdr >? max_data_size
          then (Err FT_ERR_PROTOCOL, chunk_hdr, w)
          else
            match socket_recv_all (ChunkHeader.chunk_size chunk_hdr) w with
            | (Err e, w) => (Err e, chunk_hdr, w)
            | (Ok data, w) =>
              let computed_crc := crc32_compute data in
              if negb (computed_crc =? ChunkHeader.chunk_crc32 chunk_hdr)
              then (Err FT_ERR_CHECKSUM, chunk_hdr, w)
              else (Ok data, chunk_hdr, w)
            end
        end
    end.

Definition send_chunk_ack `{Host} (chunk_id status sequence_num : Z) : M unit :=
  record_call (CallSendChunkAck chunk_id status) ;;
  buffer <- uninit 16 ;;
  let buffer := store64 buffer 0 (htonll chunk_id) in
  let buffer := store8 buffer 8 status in
  let buffer := memset buffer 9 0 3 in
  send_message MSG_CHUNK_ACK sequence_num buffer 12.

Definition recv_chunk_ack `{Host} : M ChunkAck :=
  buffer <- uninit 16 ;;
  message <- recv_message buffer 16 ;;
  let '(header, buffer) := message in
  if negb (MessageHeader.msg_type header =? MSG_CHUNK_ACK)
  then fail FT_ERR_PROTOCOL
  else ret {| ChunkAck.chunk_id := ntohll (load64 buffer 0);
              ChunkAck.status := load8 buffer 8 |}.

(** [strncpy(dst, src, n)] into fresh storage: [n] bytes, zero padded. *)
Definition strncpy (src : list Z) (n : nat) : list Z :=
  take n (src ++ replicate n 0).

Definition send_error `{Host} (error_code : FTErrorCode) (chunk_id : Z)
    (message : list Z) (sequence_num : Z) : M unit :=
  let err_message := strncpy message 246 ++ [0] in
  buffer <- uninit 256 ;;
  let buffer := store8 buffer 0 (u8 (FTErrorCode_value error_code)) in
  let buffer := store64 buffer 1 (htonll chunk_id) in
  let buffer := memcpy_to buffer 9 err_message in
  send_message MSG_ERROR sequence_num buffer 256.

(** ** fileio.c

    C strings the program builds itself are passed as their characters,
    without the terminator; the build modelled is the POSIX one
    ([PATH_SEPARATOR] is '/', no removal of the target before rename). *)

Definition chr (c : ascii) : Z := Z.of_nat (nat_of_ascii c).
Arguments chr c%_char.
Arguments bytes_of_string s%_string.

Definition PATH_SEPARATOR : Z := chr "/".

(** The characters of the C string held in a buffer. *)
Fixpoint cstr (buf : list Z) : list Z :=
  match buf with
  | [] => []
  | c :: rest => if c =? 0 then [] else c :: cstr rest
  end.

(** [strstr(filename, "..") != NULL] *)
Fixpoint strstr_dotdot (filename : list Z) : bool :=
  match filename with
  | [] => false
  | c :: rest =>
    if c =? 0 then false
    else
      match rest with
      | [] => false
      | d :: _ =>
        if (c =? chr ".") && (d =? chr ".") then true else strstr_dotdot rest
      end
  end.

Definition char_allowed (c : Z) : bool :=
  ((chr "a" <=? c) && (c <=? chr "z")) || ((chr "A" <=? c) && (c <=? chr "Z"))
  || ((chr "0" <=? c) && (c <=? chr "9"))
  || (c =? chr "-") || (c =? chr "_") || (c =? chr ".").

(** The copy loop of [file_sanitize_filename]: [filename] is what is left
    to read from index [i] on, [sanitized] the [j] characters written. *)
Fixpoint sanitize_copy (filename : list Z) (size : Z) (sanitized : list Z)
  : list Z :=
  match filename with
  | [] => sanitized
  | c :: rest =>
    if negb (c =? 0) && (Z.of_nat (length sanitized) <? size - 1)
    then
      if char_allowed c then sanitize_copy rest size (sanitized ++ [c])
      else if (c =? chr "/") || (c =? chr "\")
      then sanitize_copy rest size (sanitized ++ [chr "_"])
      else sanitize_copy rest size sanitized
    else sanitized
  end.

Definition file_sanitize_filename (filename : list Z) (size : Z)
  : FTErrorCode * list Z :=
  if size =? 0 then (FT_ERR_INVALID_ARG, [])
  else if strstr_dotdot filename then (FT_ERR_INVALID_ARG, [])
  else if (nth 0 filename 0 =? chr "/") || (nth 0 filename 0 =? chr "\")
          || ((nth 1 filename 0 =? chr ":")
              && ((chr "A" <=? nth 0 filename 0) && (nth 0 filename 0 <=? chr "Z")))
  then (FT_ERR_INVALID_ARG, [])
  else
    let sanitized := sanitize_copy filename size [] in
    if (length sanitized =? 0)%nat then (FT_ERR_INVALID_ARG, sanitized)
    else (FT_SUCCESS, sanitized).

Definition file_check_disk_space (path : list Z) (required_bytes : Z) : M unit :=
  fun w =>
    match disk_avail w with
    | None => (Err FT_ERR_DISK_FULL, w)
    | Some available =>
      if available <? required_bytes then (Err FT_ERR_DISK_FULL, w)
      else (Ok tt, w)
    end.

(** [fopen(temp_path, "wb")]: the handle returned is the path opened. *)
Definition file_open_write (output_dir filename : list Z) (temp_path_size : nat)
  : M (list Z) :=
  fun w =>
    let temp_path :=
      take (temp_path_size - 1)
        (output_dir ++ [PATH_SEPARATOR] ++ [chr "."] ++ filename
         ++ bytes_of_string ".tmp") in
    match fopen_errno w with
    | Some errno =>
      (Err match errno with
           | ENOSPC => FT_ERR_DISK_FULL
           | EACCES => FT_ERR_PERMISSION
           | _ => FT_ERR_FILE_OPEN
           end, w)
    | None => (Ok temp_path, set_fs (<[temp_path := []]> (fs w)) w)
    end.

Definition file_finalize_write (temp_path final_path : list Z)
  : World -> FTErrorCode * World :=
  fun w =>
    match rename_ok w, fs w !! temp_path with
    | true, Some content =>
      (FT_SUCCESS, set_fs (<[final_path := content]> (delete temp_path (fs w))) w)
    | _, _ => (FT_ERR_FILE_WRITE, w)
    end.

(** What a file holds after [fseeko] to [offset] and [fwrite] of [data]:
    writing past the end leaves a hole of zeros before the data; writing
    no byte leaves the file as it is, wherever the seek went. *)
Definition file_pwrite (offset : nat) (data content : list Z) : list Z :=
  match data with
  | [] => content
  | _ :: _ =>
    take offset (content ++ replicate (offset - length content) 0)
    ++ data ++ drop (offset + length data) content
  end.

Definition file_write_chunk (file : list Z) (offset : Z) (buffer : list Z)
    (chunk_size : Z) : M unit :=
  fun w =>
    let outcome := match write_script w with [] => WriteOk | o :: _ => o end in
    let w := set_write_script (tail (write_script w)) w in
    if (2 ^ 63 <=? offset) then (Err FT_ERR_FILE_SEEK, w)   (* (off_t)offset < 0 *)
    else
      match outcome with
      | WriteSeekFail => (Err FT_ERR_FILE_SEEK, w)
      | WriteShort errno =>
        (Err match errno with ENOSPC => FT_ERR_DISK_FULL | _ => FT_ERR_FILE_WRITE end, w)
      | WriteFlushFail => (Err FT_ERR_FILE_WRITE, w)
      | WriteOk =>
        let data := take (Z.to_nat chunk_size) buffer in
        (Ok tt, set_fs (alter (file_pwrite (Z.to_nat offset) data) file (fs w)) w)
      end.

Definition file_build_path (dir filename : list Z) (size : nat) : list Z :=
  let dir_len := length dir in
  let has_separator :=
    (0 <? dir_len)%nat
    && ((nth (dir_len - 1) dir 0 =? chr "/") || (nth (dir_len - 1) dir 0 =? chr "\")) in
  if has_separator then take (size - 1) (dir ++ filename)
  else take (size - 1) (dir ++ [PATH_SEPARATOR] ++ filename).

(** [remove(filepath)] fails when nothing has this name, and may fail on
    an existing file. *)
Definition file_delete (filepath : list Z) : World -> Z * World :=
  fun w =>
    match remove_ok w, fs w !! filepath with
    | true, Some _ => (0, set_fs (delete filepath (fs w)) w)
    | _, _ => (-1, w)
    end.

(** ** server_main.c: the receiver *)

(** [if (call != 0) { handler; return -1; }] *)
Definition on_failure {A} (m : M A) (handler : FTErrorCode -> M unit) : M A :=
  fun w =>
    match m w with
    | (Ok a, w') => (Ok a, w')
    | (Err e, w') => (Err e, snd (handler e w'))
    end.

Record Prepared : Type := mkPrepared {
  p_file_info : FileInfo;
  p_sanitized_name : list Z;
  p_temp_path : list Z;
  p_file : list Z;            (* the open FILE* *)
  p_sequence_num : Z
}.

(** [receive_file] up to the point where the temp file is open; every
    failure here is a plain [return -1]. *)
Definition receive_file_prepare `{Host} (output_dir : list Z) : M Prepared :=
  let sequence_num := 2 in
  perform_handshake_server ;;
  file_info <- recv_file_info ;;
  let '(rc, sanitized_name) :=
    file_sanitize_filename (FileInfo.filename file_info) (Z.of_nat FT_MAX_FILENAME_LEN) in
  if negb (bool_decide (rc = FT_SUCCESS))
  then
    ignore (send_error FT_ERR_INVALID_ARG 0 (bytes_of_string "Invalid filename")
              sequence_num) ;;
    fail FT_ERR_INVALID_ARG
  else
    on_failure (file_check_disk_space output_dir (FileInfo.file_size file_info))
      (fun _ => ignore (send_error FT_ERR_DISK_FULL 0
                          (bytes_of_string "Insufficient disk space") sequence_num)) ;;
    temp_path <-
      on_failure (file_open_write output_dir sanitized_name 1024)
        (fun error => ignore (send_error error 0
                                (bytes_of_string "Cannot create file") sequence_num)) ;;
    ret (mkPrepared file_info sanitized_name temp_path temp_path sequence_num).

Record RecvState : Type := mkRecvState {
  r_sequence_num : Z;
  r_received_chunks : Z;
  r_received_bytes : Z
}.

Inductive loop_step (S : Type) : Type :=
  | Continue (s : S)     (* next iteration *)
  | Cleanup.             (* goto cleanup *)
Arguments Continue {S} s.
Arguments Cleanup {S}.

(** One turn of the [while (received_chunks < file_info.total_chunks)] loop. *)
Definition receive_chunk_step `{Host} (file : list Z) (file_info : FileInfo)
    (st : RecvState) : World -> loop_step RecvState * World :=
  fun w =>
    let sequence_num := r_sequence_num st in
    (* ChunkHeader chunk_hdr; *)
    let chunk_hdr :=
      protocol_deserialize_chunk_header (uninit_bytes FT_CHUNK_HEADER_SIZE w) in
    match recv_chunk chunk_hdr (FileInfo.chunk_size file_info) w with
    | (Err error, chunk_hdr, w) =>
      if bool_decide (error = FT_ERR_CHECKSUM)
      then
        (* request retransmit *)
        let w := snd (send_chunk_ack (ChunkHeader.chunk_id chunk_hdr) 1 sequence_num w) in
        (Continue (mkRecvState (u64 (sequence_num + 1)) (r_received_chunks st)
                     (r_received_bytes st)), w)
      else (Cleanup, w)
    | (Ok chunk_buffer, chunk_hdr, w) =>
      match file_write_chunk file (ChunkHeader.chunk_offset chunk_hdr) chunk_buffer
              (ChunkHeader.chunk_size chunk_hdr) w with
      | (Err error, w) =>
        let w := snd (send_error error (ChunkHeader.chunk_id chunk_hdr)
                        (bytes_of_string "Write failed") sequence_num w) in
        (Cleanup, w)
      | (Ok _, w) =>
        match send_chunk_ack (ChunkHeader.chunk_id chunk_hdr) 0 sequence_num w with
        | (Err _, w) => (Cleanup, w)
        | (Ok _, w) =>
          (Continue (mkRecvState (u64 (sequence_num + 1))
                       (u64 (r_received_chunks st + 1))
                       (u64 (r_received_bytes st + ChunkHeader.chunk_size chunk_hdr))),
           w)
        end
      end
    end.

(** The loop; [None] when [fuel] turns do not finish it. *)
Fixpoint receive_chunks `{Host} (fuel : nat) (file : list Z) (file_info : FileInfo)
    (st : RecvState) (w : World) : option (loop_step RecvState) * World :=
  if r_received_chunks st <? FileInfo.total_chunks file_info
  then
    match fuel with
    | O => (None, w)
    | S fuel' =>
      match receive_chunk_step file file_info st w with
      | (Continue st', w') => receive_chunks fuel' file file_info st' w'
      | (Cleanup, w') => (Some Cleanup, w')
      end
    end
  else (Some (Continue st), w).

(** From the temp file being open to the [cleanup] label: the values of
    [result] and [file] there. The loop of the program has no bound of its
    own; here the incoming stream is a finite list, each turn that stays in
    the loop takes a message from it, and one more turn than there are
    items to receive is fuel enough ([receive_file_returns]). *)
Definition receive_file_transfer `{Host} (output_dir : list Z) (p : Prepared)
  : World -> option (Z * option (list Z)) * World :=
  fun w =>
    let file := p_file p in
    let sequence_num := p_sequence_num p in
    let ack_buf := [0; 0; 0; 0] in
    match send_message MSG_FILE_ACK sequence_num ack_buf 4 w with
    | (Err _, w) => (Some (-1, Some file), w)
    | (Ok _, w) =>
      let sequence_num := u64 (sequence_num + 1) in
      if negb (malloc_ok w)
      then
        let w := snd (send_error FT_ERR_OUT_OF_MEMORY 0
                        (bytes_of_string "Out of memory") sequence_num w) in
        (Some (-1, Some file), w)
      else
        match receive_chunks (S (length (rx w))) file (p_file_info p)
                (mkRecvState sequence_num 0 0) w with
        | (None, w) => (None, w)
        | (Some Cleanup, w) => (Some (-1, Some file), w)
        | (Some (Continue _), w) =>
          (* fclose(file); file = NULL; *)
          let final_path := file_build_path output_dir (p_sanitized_name p) 1024 in
          match file_finalize_write (p_temp_path p) final_path w with
          | (FT_SUCCESS, w) => (Some (0, None), w)
          | (_, w) => (Some (-1, None), w)
          end
        end
    end.

(** The [cleanup] label. *)
Definition receive_file_cleanup (result : Z) (file : option (list Z))
    (temp_path : list Z) : World -> Z * World :=
  fun w =>
    match file with
    | Some _ =>
      (* fclose(file); delete temp file on error *)
      if negb (result =? 0) then (result, snd (file_delete temp_path w))
      else (result, w)
    | None => (result, w)
    end.

Definition receive_file `{Host} (output_dir : list Z) : World -> option Z * World :=
  fun w =>
    match receive_file_prepare output_dir w with
    | (Err _, w) => (Some (-1), w)
    | (Ok p, w) =>
      match receive_file_transfer output_dir p w with
      | (None, w) => (None, w)
      | (Some (result, file), w) =>
        let '(result, w) := receive_file_cleanup result file (p_temp_path p) w in
        (Some result, w)
      end
    end.

(** ** client_main.c: the sender *)

Record FileMetadata : Type := mkFileMetadata {
  m_filename : list Z;    (* char[FT_MAX_FILENAME_LEN] *)
  m_file_size : Z;        (* uint64_t *)
  m_file_mode : Z;        (* uint32_t *)
  m_timestamp : Z         (* uint64_t *)
}.

(** [strrchr(s, sep)], then one past it. *)
Fixpoint after_last (sep : Z) (s : list Z) : option (list Z) :=
  match s with
  | [] => None
  | c :: rest =>
    match after_last sep rest with
    | Some r => Some r
    | None => if c =? sep then Some rest else None
    end
  end.

Definition file_get_metadata (filepath : list Z) : M FileMetadata :=
  fun w =>
    match src_stat w with
    | None => (Err FT_ERR_FILE_NOT_FOUND, w)
    | Some st =>
      if negb (st_is_reg st) then (Err FT_ERR_INVALID_ARG, w)
      else
        let filename := default filepath (after_last PATH_SEPARATOR filepath) in
        (Ok {| m_filename := strncpy filename (FT_MAX_FILENAME_LEN - 1) ++ [0];
               m_file_size := u64 (st_size st);
               m_file_mode := u32 (st_mode st);
               m_timestamp := u64 (st_mtime st) |}, w)
    end.

Definition file_open_read (filepath : list Z) : M unit :=
  fun w =>
    match src_open_errno w with
    | Some ENOENT => (Err FT_ERR_FILE_NOT_FOUND, w)
    | Some EACCES => (Err FT_ERR_PERMISSION, w)
    | Some _ => (Err FT_ERR_FILE_OPEN, w)
    | None => (Ok tt, w)
    end.

(** Returns the bytes read; [*bytes_read] is their number. *)
Definition file_read_chunk (offset : Z) (chunk_size : Z) : M (list Z) :=
  fun w =>
    let outcome := match read_script w with [] => ReadOk | o :: _ => o end in
    let w := set_read_script (tail (read_script w)) w in
    if (2 ^ 63 <=? offset) then (Err FT_ERR_FILE_SEEK, w)   (* (off_t)offset < 0 *)
    else
      match outcome with
      | ReadSeekFail => (Err FT_ERR_FILE_SEEK, w)
      | ReadOk =>
        (Ok (take (Z.to_nat chunk_size) (drop (Z.to_nat offset) (src_data w))), w)
      | ReadError delivered =>
        let read := take (Nat.min delivered (Z.to_nat chunk_size))
                      (drop (Z.to_nat offset) (src_data w)) in
        if (length read =? 0)%nat then (Err FT_ERR_FILE_READ, w)
        else (Ok read, w)
      end.

(** The block "Prepare file info" of [send_file]. *)
Definition prepare_file_info (metadata : FileMetadata) : FileInfo :=
  let chunk_size := FT_DEFAULT_CHUNK_SIZE in
  {| FileInfo.filename_len := u16 (Z.of_nat (length (cstr (m_filename metadata))));
     FileInfo.filename :=
       strncpy (cstr (m_filename metadata)) (FT_MAX_FILENAME_LEN - 1) ++ [0];
     FileInfo.file_size := m_file_size metadata;
     FileInfo.total_chunks := u64 (m_file_size metadata + chunk_size - 1) / chunk_size;
     FileInfo.chunk_size := chunk_size;
     FileInfo.checksum_type := CHECKSUM_SHA256;
     FileInfo.file_checksum := replicate FT_SHA256_SIZE 0;
     FileInfo.file_mode := m_file_mode metadata;
     FileInfo.timestamp := m_timestamp metadata;
     FileInfo.reserved := replicate 669 0 |}.

(** The inner [while (retry_count < FT_MAX_RETRIES)] loop for one chunk.
    It leaves with the next sequence number ([break]) or by
    [goto cleanup]; [None] when [fuel] turns do not finish it. *)
Fixpoint send_chunk_retry `{Host} (fuel : nat) (chunk_id chunk_offset : Z)
    (chunk_buffer : list Z) (bytes_read : Z) (retry_count sequence_num : Z)
    (w : World) : option (loop_step Z) * World :=
  if retry_count <? FT_MAX_RETRIES
  then
    match fuel with
    | O => (None, w)
    | S fuel' =>
      let again (w : World) :=
        let retry_count := retry_count + 1 in
        if retry_count >=? FT_MAX_RETRIES then (Some Cleanup, w)
        else send_chunk_retry fuel' chunk_id chunk_offset chunk_buffer bytes_read
               retry_count (u64 (sequence_num + 1)) w in
      match send_chunk chunk_id chunk_offset chunk_buffer bytes_read sequence_num w with
      | (Err _, w) => again w
      | (Ok _, w) =>
        match recv_chunk_ack w with
        | (Err _, w) => again w
        | (Ok ack, w) =>
          (* an ack for another chunk_id is only logged *)
          if negb (ChunkAck.status ack =? 0) then again w
          else (Some (Continue (u64 (sequence_num + 1))), w)
        end
      end
    end
  else (Some (Continue sequence_num), w).

Record SendState : Type := mkSendState {
  s_sequence_num : Z;
  s_sent_chunks : Z;
  s_sent_bytes : Z
}.

(** The body of [for (chunk_id = 0; chunk_id < total_chunks; chunk_id++)]. *)
Definition send_file_chunk `{Host} (file_info : FileInfo) (chunk_id : Z)
    (st : SendState) : World -> option (loop_step SendState) * World :=
  fun w =>
    let chunk_offset := u64 (chunk_id * FileInfo.chunk_size file_info) in
    let bytes_to_read := FileInfo.chunk_size file_info in
    let bytes_to_read :=
      if u64 (chunk_offset + bytes_to_read) >? FileInfo.file_size file_info
      then u64 (FileInfo.file_size file_info - chunk_offset)
      else bytes_to_read in
    match file_read_chunk chunk_offset bytes_to_read w with
    | (Err _, w) => (Some Cleanup, w)
    | (Ok chunk_buffer, w) =>
      let bytes_read := Z.of_nat (length chunk_buffer) in
      match send_chunk_retry (Z.to_nat FT_MAX_RETRIES) chunk_id chunk_offset
              chunk_buffer bytes_read 0 (s_sequence_num st) w with
      | (None, w) => (None, w)
      | (Some Cleanup, w) => (Some Cleanup, w)
      | (Some (Continue sequence_num), w) =>
        (Some (Continue (mkSendState sequence_num (u64 (s_sent_chunks st + 1))
                           (u64 (s_sent_bytes st + bytes_read)))), w)
      end
    end.

Fixpoint send_chunks `{Host} (fuel : nat) (file_info : FileInfo) (chunk_id : Z)
    (st : SendState) (w : World) : option (loop_step SendState) * World :=
  if chunk_id <? FileInfo.total_chunks file_info
  then
    match fuel with
    | O => (None, w)
    | S fuel' =>
      match send_file_chunk file_info chunk_id st w with
      | (None, w) => (None, w)
      | (Some Cleanup, w) => (Some Cleanup, w)
      | (Some (Continue st), w) =>
        send_chunks fuel' file_info (u64 (chunk_id + 1)) st w
      end
    end
  else (Some (Continue st), w).

(** [send_file] from the handshake to the allocation of the chunk buffer:
    every failure is a [goto cleanup] with [result == -1]. *)
Definition send_file_begin `{Host} (file_info : FileInfo) : M Z :=
  let sequence_num := 2 in
  perform_handshake_client ;;
  send_file_info file_info sequence_num ;;
  let sequence_num := u64 (sequence_num + 1) in
  ack_buf <- uninit 16 ;;
  message <- recv_message ack_buf 16 ;;
  let '(header, ack_buf) := message in
  if MessageHeader.msg_type header =? MSG_ERROR then fail FT_ERR_PROTOCOL
  else if negb (MessageHeader.msg_type header =? MSG_FILE_ACK)
  then fail FT_ERR_PROTOCOL
  else
    fun w => if malloc_ok w then (Ok sequence_num, w)
             else (Err FT_ERR_OUT_OF_MEMORY, w).

(** [send_file] before the handshake: every failure is a plain
    [return -1]. *)
Definition send_file_open (filepath : list Z) : M FileMetadata :=
  metadata <- file_get_metadata filepath ;;
  file_open_read filepath ;;
  ret metadata.

Definition send_file `{Host} (filepath : list Z) : World -> option Z * World :=
  fun w =>
    match send_file_open filepath w with
    | (Err _, w) => (Some (-1), w)
    | (Ok metadata, w) =>
      let file_info := prepare_file_info metadata in
      match send_file_begin file_info w with
      | (Err _, w) => (Some (-1), w)
      | (Ok sequence_num, w) =>
        match send_chunks (Z.to_nat (FileInfo.total_chunks file_info)) file_info 0
                (mkSendState sequence_num 0 0) w with
        | (None, w) => (None, w)
        | (Some Cleanup, w) => (Some (-1), w)
        | (Some (Continue _), w) => (Some 0, w)
        end
      end
    end.

(** ** Sessions used as examples *)

Definition little_endian_host : Host := false.
Definition big_endian_host : Host := true.

(** A world in which nothing fails: the peer sends [incoming], the output
    directory is empty, the source file holds [source] and [stat] reports
    [reported_size] for it. *)
Definition session (incoming : list Z) (rename : bool)
    (reported_size : Z) (source : list Z) : World :=
  {| rx := map RxByte incoming; tx_script := []; tx_log := []; history := [];
     junk := []; malloc_ok := true;
     fs := ∅; disk_avail := Some (2 ^ 40); fopen_errno := None;
     write_script := []; rename_ok := rename; remove_ok := true;
     src_stat := Some (mkStat true reported_size 420 0); src_open_errno := None;
     src_data := source; read_script := [] |}.

(** A message as the little-endian peer frames it. *)
Definition message (msg_type sequence_num : Z) (payload : list Z) : list Z :=
  @protocol_serialize_header little_endian_host
    (protocol_init_header msg_type sequence_num (Z.of_nat (length payload)))
    (replicate 32 0)
  ++ payload.

Definition chunk_message (chunk_id chunk_offset : Z) (data : list Z) (crc : Z)
    (sequence_num : Z) : list Z :=
  message MSG_CHUNK_DATA sequence_num
    (@protocol_serialize_chunk_header little_endian_host
       (ChunkHeader.mk chunk_id chunk_offset (Z.of_nat (length data)) crc)
       (replicate 24 0)
     ++ data).

Definition file_info_message (name : string) (file_size total_chunks chunk_size : Z)
  : list Z :=
  message MSG_FILE_INFO 2
    (@protocol_serialize_file_info little_endian_host
       {| FileInfo.filename_len := Z.of_nat (String.length name);
          FileInfo.filename := strncpy (bytes_of_string name) 255 ++ [0];
          FileInfo.file_size := file_size;
          FileInfo.total_chunks := total_chunks;
          FileInfo.chunk_size := chunk_size;
          FileInfo.checksum_type := CHECKSUM_SHA256;
          FileInfo.file_checksum := replicate 32 0;
          FileInfo.file_mode := 420;
          FileInfo.timestamp := 0;
          FileInfo.reserved := replicate 669 0 |}
       (replicate 1024 0)).

Definition handshake_request : list Z := message MSG_HANDSHAKE_REQ 0 [1; 0; 0; 0].

Definition receive_into_out (incoming : list Z) (rename : bool)
  : option Z * World :=
  @receive_file little_endian_host (bytes_of_string "out")
    (session incoming rename 0 []).

(** The only chunk of a one-chunk file arrives numbered 5. *)
Definition chunk_five_first : option Z * World :=
  receive_into_out
    (handshake_request ++ file_info_message "a.txt" 3 1 4
     ++ chunk_message 5 0 [1; 2; 3] (crc32_compute [1; 2; 3]) 3)
    true.

(** A complete one-chunk transfer whose final rename fails. *)
Definition rename_fails : option Z * World :=
  receive_into_out
    (handshake_request ++ file_info_message "a.txt" 3 1 4
     ++ chunk_message 0 0 [1; 2; 3] (crc32_compute [1; 2; 3]) 3)
    false.


Definition lower_case_drive : option Z * World :=
  receive_into_out (handshake_request ++ file_info_message "c:\boot.ini" 0 0 4) true.

Definition parent_directory_name : World :=
  session (handshake_request ++ file_info_message "../etc/passwd" 0 0 4) true 0 [].

(** A handshake request whose payload_size byte was changed from 4 to 3
    after the header CRC was computed. *)
Definition handshake_req_header : MessageHeader :=
  protocol_init_header MSG_HANDSHAKE_REQ 0 4.

Definition damaged_length_header : list Z :=
  store8 (@protocol_serialize_header little_endian_host handshake_req_header
            (replicate 32 0)) 23 3.

Definition damaged_length_received
  : result (MessageHeader * list Z) * World :=
  @recv_message little_endian_host [0; 0; 0; 0] 4
    (session (damaged_length_header ++ [1; 0; 0; 0]) true 0 []).

(** The source was 10 bytes long when [stat] saw it and holds 4 bytes when
    it is read; the server acknowledges everything. *)
Definition source_shrank : option Z * World :=
  @send_file little_endian_host (bytes_of_string "dir/data.bin")
    (session
       (message MSG_HANDSHAKE_ACK 1 [1; 0; 0; 0]
        ++ message MSG_FILE_ACK 2 [0; 0; 0; 0]
        ++ message MSG_CHUNK_ACK 3 (be_bytes 8 0 ++ [0; 0; 0; 0]))
       true 10 [7; 7; 7; 7]).

(** ** Vocabulary of the statements *)

Definition is_byte (b : Z) : Prop := 0 <= b < 256.

(** [h] with its checksum field replaced. *)
Definition with_checksum (h : MessageHeader) (c : Z) : MessageHeader :=
  {| MessageHeader.magic := MessageHeader.magic h;
     MessageHeader.version := MessageHeader.version h;
     MessageHeader.msg_type := MessageHeader.msg_type h;
     MessageHeader.flags := MessageHeader.flags h;
     MessageHeader.sequence_num := MessageHeader.sequence_num h;
     MessageHeader.payload_size := MessageHeader.payload_size h;
     MessageHeader.checksum := c;
     MessageHeader.reserved := MessageHeader.reserved h |}.

Definition read_u32_be (buf : list Z) (off : nat) : Z :=
  be_val (buf_read off 4 buf).

Definition wf_chunk_header (c : ChunkHeader) : Prop :=
  is_u64 (ChunkHeader.chunk_id c) /\ is_u64 (ChunkHeader.chunk_offset c) /\
  is_u32 (ChunkHeader.chunk_size c) /\ is_u32 (ChunkHeader.chunk_crc32 c).

Definition contains_dotdot (s : list Z) : Prop :=
  exists pre post, s = pre ++ [chr "."; chr "."] ++ post.

(** The names the first checks of [file_sanitize_filename] refuse, as
    properties of the C string: the drive letter is an upper-case one. *)
Definition escaping_name (s : list Z) : Prop :=
  contains_dotdot s \/
  (exists rest, s = chr "/" :: rest) \/
  (exists rest, s = chr "\" :: rest) \/
  (exists X rest, chr "A" <= X <= chr "Z" /\ s = X :: chr ":" :: rest).

Definition preserves {A X} (f : World -> X) (m : M A) : Prop :=
  forall w r w', m w = (r, w') -> f w' = f w.

(** The bytes of one message: the header as [send_message] and [send_chunk]
    serialize it into a buffer [hb], then the payload. *)
Definition message_bytes `{Host} (msg_type sequence_num : Z) (payload hb : list Z)
  : list Z :=
  protocol_serialize_header
    (protocol_init_header msg_type sequence_num (Z.of_nat (length payload))) hb
  ++ payload.

(** The payload of a CHUNK_DATA message whose chunk header, serialized into
    [cb], announces [crc]. *)
Definition chunk_payload `{Host} (chunk_id chunk_offset : Z) (data : list Z)
    (crc : Z) (cb : list Z) : list Z :=
  protocol_serialize_chunk_header
    (ChunkHeader.mk chunk_id chunk_offset (Z.of_nat (length data)) crc) cb
  ++ data.

Definition chunk_ack_payload (chunk_id status : Z) : list Z :=
  be_bytes 8 chunk_id ++ [status; 0; 0; 0].


Definition known_msg_type (t : Z) : Prop := 1 <= t <= 9 \/ t = 0xFF.

(** What [send_chunk] hands to the socket for the chunk data: nothing when
    there are no bytes. *)
Definition sent_data (data : list Z) : list tx_event :=
  match data with
  | [] => []
  | _ => [Sent data]
  end.

Definition chunk_five_world : World :=
  session (chunk_message 5 0 [1; 2; 3] (crc32_compute [1; 2; 3]) 3) true 0 [].

Definition four_byte_chunks : FileInfo :=
  FileInfo.mk 5 [] 3 1 4 CHECKSUM_SHA256 [] 0 0 [].

Definition parent_directory_prelude : result FileInfo * World :=
  (@perform_handshake_server little_endian_host ;;
   @recv_file_info little_endian_host) parent_directory_name.

Definition parent_directory_file_info : FileInfo :=
  match fst parent_directory_prelude with
  | Ok file_info => file_info
  | Err _ => four_byte_chunks
  end.

Definition metadata_700000 : FileMetadata :=
  mkFileMetadata (bytes_of_string "data.bin" ++ [0]) 700000 420 0.

(** What the coming [fread] of [chunk_size] bytes at [offset] delivers: all
    that the file holds there, or fewer bytes when the read stops on an
    error. *)
Definition fread_delivers (offset chunk_size : Z) (w : World) : list Z :=
  let available :=
    take (Z.to_nat chunk_size) (drop (Z.to_nat offset) (src_data w)) in
  match read_script w with
  | ReadError delivered :: _ => take delivered available
  | _ => available
  end.

(** The coming [fseeko] to [offset] succeeds. *)
Definition seek_succeeds (offset : Z) (w : World) : Prop :=
  offset < 2 ^ 63 /\ forall script, read_script w <> ReadSeekFail :: script.

Definition short_read_world : World :=
  session (message MSG_CHUNK_ACK 3 (chunk_ack_payload 0 0)) true 10 [7; 7; 7; 7].

Definition ten_byte_file : FileInfo :=
  FileInfo.mk 8 [] 10 1 FT_DEFAULT_CHUNK_SIZE CHECKSUM_SHA256 [] 0 0 [].

(** The read of the 10 bytes stops on an error after 2 bytes. *)
Definition read_error_world : World :=
  set_read_script [ReadError 2] short_read_world.

(** ** Vocabulary of the wire formats *)

(** The first 24 bytes of a message header on the wire. *)
Definition header_fields (h : MessageHeader) : list Z :=
  be_bytes 4 (MessageHeader.magic h)
  ++ [MessageHeader.version h; MessageHeader.msg_type h]
  ++ be_bytes 2 (MessageHeader.flags h)
  ++ be_bytes 8 (MessageHeader.sequence_num h)
  ++ be_bytes 8 (MessageHeader.payload_size h).

Definition wf_file_info (f : FileInfo) : Prop :=
  is_u16 (FileInfo.filename_len f) /\
  length (FileInfo.filename f) = 256%nat /\
  is_u64 (FileInfo.file_size f) /\ is_u64 (FileInfo.total_chunks f) /\
  is_u32 (FileInfo.chunk_size f) /\
  length (FileInfo.file_checksum f) = 32%nat /\
  is_u32 (FileInfo.file_mode f) /\ is_u64 (FileInfo.timestamp f).

(** The first 992 bytes of a FILE_INFO payload on the wire. *)
Definition file_info_fields (f : FileInfo) : list Z :=
  be_bytes 2 (FileInfo.filename_len f)
  ++ FileInfo.filename f
  ++ be_bytes 8 (FileInfo.file_size f)
  ++ be_bytes 8 (FileInfo.total_chunks f)
  ++ be_bytes 4 (FileInfo.chunk_size f)
  ++ [FileInfo.checksum_type f]
  ++ FileInfo.file_checksum f
  ++ be_bytes 4 (FileInfo.file_mode f)
  ++ be_bytes 8 (FileInfo.timestamp f)
  ++ replicate 669 0.

(** What [protocol_deserialize_file_info] makes of a serialized [f] when
    it fills a struct that held [f0]. *)
Definition received_file_info (f f0 : FileInfo) : FileInfo :=
  {| FileInfo.filename_len := FileInfo.filename_len f;
     FileInfo.filename := take 255 (FileInfo.filename f) ++ [0];
     FileInfo.file_size := FileInfo.file_size f;
     FileInfo.total_chunks := FileInfo.total_chunks f;
     FileInfo.chunk_size := FileInfo.chunk_size f;
     FileInfo.checksum_type := FileInfo.checksum_type f;
     FileInfo.file_checksum := FileInfo.file_checksum f;
     FileInfo.file_mode := FileInfo.file_mode f;
     FileInfo.timestamp := FileInfo.timestamp f;
     FileInfo.reserved := FileInfo.reserved f0 |}.

Definition sample_chunk_header : ChunkHeader :=
  ChunkHeader.mk 5 2621440 3 (crc32_compute [1; 2; 3]).

Definition sample_file_info : FileInfo :=
  FileInfo.mk 5 (bytes_of_string "a.txt" ++ replicate 251 0) 3 1 524288
    CHECKSUM_SHA256 (replicate 32 0) 420 1700000000 (replicate 669 0).

(** The bytes that reached the peer: the buffers of the successful sends,
    one after the other. *)
Definition wire (log : list tx_event) : list Z :=
  flat_map (fun e => match e with Sent buf => buf | SendFailed _ => [] end) log.

(** The bytes sent between two states of the world. *)
Definition sent_since (w w' : World) : list Z :=
  wire (drop (length (tx_log w)) (tx_log w')).

(** A world of the peer's whose incoming stream starts with [bytes]. *)
Definition receiving (bytes : list Z) : World := session bytes true 0 [].

Definition handshake_sent : result unit * World :=
  @send_message little_endian_host MSG_HANDSHAKE_REQ 0 [1; 0; 0; 0] 4 (receiving []).

Definition chunk_sent : result unit * World :=
  @send_chunk little_endian_host 5 2621440 [1; 2; 3] 3 9 (receiving []).

Definition retry_ack_sent : result unit * World :=
  @send_chunk_ack big_endian_host 5 1 9 (receiving []).

(** ** network.c: [recv_error], and the text of an error code *)

Module ErrorMessage.
Record t : Type := mk {
  error_code : Z;       (* uint8_t *)
  chunk_id : Z;         (* uint64_t *)
  message : list Z      (* uint8_t[247] *)
}.
End ErrorMessage.
Abbreviation ErrorMessage := ErrorMessage.t.

Definition recv_error `{Host} : M ErrorMessage :=
  buffer <- uninit 256 ;;
  received <- recv_message buffer 256 ;;
  let '(header, buffer) := received in
  if negb (MessageHeader.msg_type header =? MSG_ERROR)
  then fail FT_ERR_PROTOCOL
  else
    ret {| ErrorMessage.error_code := load8 buffer 0;
           ErrorMessage.chunk_id := ntohll (load64 buffer 1);
           ErrorMessage.message := store8 (buf_read 9 247 buffer) 246 0 |}.

(** [protocol_get_error_string], on the integer value of its argument. *)
Definition protocol_get_error_string (error_code : Z) : string :=
  match error_code with
  | 0 => "Success"
  | -1 => "Socket error"
  | -2 => "Connection failed"
  | -3 => "Bind failed"
  | -4 => "Listen failed"
  | -5 => "Accept failed"
  | -6 => "Send failed"
  | -7 => "Receive failed"
  | -8 => "Operation timed out"
  | -10 => "File open failed"
  | -11 => "File read failed"
  | -12 => "File write failed"
  | -13 => "File seek failed"
  | -14 => "Disk full"
  | -15 => "Permission denied"
  | -20 => "Checksum mismatch"
  | -21 => "Protocol error"
  | -22 => "Version mismatch"
  | -23 => "Invalid message"
  | -30 => "Out of memory"
  | -31 => "Invalid argument"
  | -32 => "File not found"
  | -33 => "Filename too long"
  | _ => "Unknown error"
  end%string.

Definition disk_full_error_sent : result unit * World :=
  @send_error little_endian_host FT_ERR_DISK_FULL 0
    (bytes_of_string "Insufficient disk space") 2 (receiving []).

Definition disk_full_error_delivered : World :=
  receiving (sent_since (receiving []) (snd disk_full_error_sent)).

Definition retry_ack_delivered : World :=
  receiving (sent_since (receiving []) (snd retry_ack_sent)).

(** A sender whose uninitialised storage holds the byte 0xAA. *)
Definition stale_memory : World :=
  mkWorld [] [] [] [] (replicate 1024 170) true ∅ None None [] true true
    None None [] [].

Definition file_info_sent : result unit * World :=
  @send_file_info little_endian_host sample_file_info 2 stale_memory.

Definition file_info_delivered : World :=
  receiving (sent_since stale_memory (snd file_info_sent)).

(** The 256 bytes of an ERROR payload. *)
Definition error_payload (error_code : FTErrorCode) (chunk_id : Z)
    (message : list Z) : list Z :=
  [u8 (FTErrorCode_value error_code)] ++ be_bytes 8 chunk_id
  ++ strncpy message 246 ++ [0].

(** ** network.c: [socket_connect_with_retry]

    The resolver, [connect] and [platform_sleep_ms] are scripted like the
    rest of the world: whether the host name yields an address, how each
    coming [connect] call turns out (none left: it fails), and the calls
    made so far. *)

Definition FT_BACKOFF_MAX_MS : Z := 16000.

Record ConnectWorld : Type := mkConnectWorld {
  resolves : bool;
  connect_script : list bool;
  connects : nat;        (* connect() calls made *)
  slept : list Z         (* the arguments of platform_sleep_ms, in order *)
}.

(** The [for (attempt = 1; attempt <= max_retries; attempt++)] loop;
    [None] when [fuel] turns do not finish it. *)
Fixpoint connect_attempts (fuel : nat) (attempt max_retries delay_ms : Z)
    (w : ConnectWorld) : option (result unit) * ConnectWorld :=
  if attempt <=? max_retries
  then
    match fuel with
    | O => (None, w)
    | S fuel' =>
      let connected := match connect_script w with [] => false | b :: _ => b end in
      let w := mkConnectWorld (resolves w) (tail (connect_script w))
                 (S (connects w)) (slept w) in
      if connected then (Some (Ok tt), w)
      else if attempt <? max_retries
      then
        let w := mkConnectWorld (resolves w) (connect_script w) (connects w)
                   (slept w ++ [delay_ms]) in
        let delay_ms :=
          if delay_ms * 2 <? FT_BACKOFF_MAX_MS then delay_ms * 2
          else FT_BACKOFF_MAX_MS in
        connect_attempts fuel' (attempt + 1) max_retries delay_ms w
      else connect_attempts fuel' (attempt + 1) max_retries delay_ms w
    end
  else (Some (Err FT_ERR_CONNECT), w).

Definition socket_connect_with_retry (max_retries : Z) (w : ConnectWorld)
  : option (result unit) * ConnectWorld :=
  if negb (resolves w) then (Some (Err FT_ERR_CONNECT), w)
  else connect_attempts (Z.to_nat max_retries) 1 max_retries 1000 w.

(** The pause after the failed attempt number [i] + 1. *)
Definition backoff (i : nat) : Z := Z.min (1000 * 2 ^ Z.of_nat i) FT_BACKOFF_MAX_MS.

Definition unreachable_server : ConnectWorld := mkConnectWorld true [] 0 [].

Definition third_attempt_connects : ConnectWorld :=
  mkConnectWorld true [false; false; true] 0 [].

(** ** The calls of a transfer *)

(** The calls of [send_chunk] for the chunks from [chunk_id] on, chunk
    after chunk, the i-th of them attempted [ks !! i] times. *)
Fixpoint chunk_calls (chunk_id : Z) (ks : list nat) : list call :=
  match ks with
  | [] => []
  | k :: ks' => replicate k (CallSendChunk chunk_id) ++ chunk_calls (chunk_id + 1) ks'
  end.

(** ** A whole transfer on the wire *)

(** The bytes of chunk [chunk_id] of a file cut in chunks of [chunk_size]. *)
Definition file_piece (chunk_size chunk_id : Z) (data : list Z) : list Z :=
  take (Z.to_nat chunk_size) (drop (Z.to_nat (chunk_id * chunk_size)) data).

(** The CHUNK_DATA messages of [n] chunks in a row, from chunk [chunk_id]
    on, their sequence numbers counting up from [sequence_num]. *)
Fixpoint chunk_messages (n : nat) (chunk_id sequence_num chunk_size : Z)
    (data : list Z) : list Z :=
  match n with
  | O => []
  | S n' =>
    chunk_message chunk_id (chunk_id * chunk_size)
      (file_piece chunk_size chunk_id data)
      (crc32_compute (file_piece chunk_size chunk_id data)) sequence_num
    ++ chunk_messages n' (chunk_id + 1) (sequence_num + 1) chunk_size data
  end.

(** The CHUNK_ACK messages with status 0 that answer them. *)
Fixpoint chunk_acks (n : nat) (chunk_id sequence_num : Z) : list Z :=
  match n with
  | O => []
  | S n' =>
    message MSG_CHUNK_ACK sequence_num (chunk_ack_payload chunk_id 0)
    ++ chunk_acks n' (chunk_id + 1) (sequence_num + 1)
  end.

(** All that the receiver sends in a transfer of [n] chunks without
    incident. *)
Definition receiver_replies (n : nat) : list Z :=
  message MSG_HANDSHAKE_ACK 1 [1; 0; 0; 0]
  ++ message MSG_FILE_ACK 2 [0; 0; 0; 0]
  ++ chunk_acks n 0 3.

(** ** Chunks as they arrive *)

(** A CHUNK_DATA message as a peer may send it: the chunk header fields it
    declares, its data, and the sequence number of its message header. The
    CRC-32 it announces is the one of its data. *)
Record Chunk : Type := mkChunk {
  c_chunk_id : Z;
  c_chunk_offset : Z;
  c_data : list Z;
  c_sequence_num : Z
}.

(** The bytes of these messages, one after the other. *)
Fixpoint chunk_stream (chunks : list Chunk) : list Z :=
  match chunks with
  | [] => []
  | c :: chunks' =>
    chunk_message (c_chunk_id c) (c_chunk_offset c) (c_data c)
      (crc32_compute (c_data c)) (c_sequence_num c)
    ++ chunk_stream chunks'
  end.

(** The CHUNK_ACK messages with status 0 that name their chunk_ids, in the
    same order, the sequence numbers counting up from [sequence_num]. *)
Fixpoint chunk_ack_stream (chunks : list Chunk) (sequence_num : Z) : list Z :=
  match chunks with
  | [] => []
  | c :: chunks' =>
    message MSG_CHUNK_ACK sequence_num (chunk_ack_payload (c_chunk_id c) 0)
    ++ chunk_ack_stream chunks' (u64 (sequence_num + 1))
  end.

(** What a file holds after each chunk was written at the offset it
    declares, in the order of arrival. *)
Definition store_chunks (chunks : list Chunk) (content : list Z) : list Z :=
  fold_left (fun content c =>
               file_pwrite (Z.to_nat (c_chunk_offset c)) (c_data c) content)
    chunks content.

(** The fields fit their C types, the offset is one [fseeko] accepts, and
    the data are no longer than the chunk size of the transfer. No
    condition bears on the chunk_id. *)
Definition acceptable_chunk (file_info : FileInfo) (c : Chunk) : Prop :=
  is_u64 (c_chunk_id c) /\ is_u64 (c_sequence_num c) /\
  0 <= c_chunk_offset c < 2 ^ 63 /\
  Z.of_nat (length (c_data c)) <= FileInfo.chunk_size file_info.

(** A file of two chunks of at most 4 bytes. *)
Definition two_chunks_of_four : FileInfo :=
  FileInfo.mk 5 [] 4 2 4 CHECKSUM_SHA256 [] 0 0 [].

(** Chunk 5 arrives first and declares offset 2, chunk 0 follows with
    offset 0, and a third chunk comes after them. *)
Definition chunks_out_of_order : list Chunk :=
  [mkChunk 5 2 [3; 4] 3; mkChunk 0 0 [1; 2] 4].

Definition third_chunk : list Z :=
  chunk_message 1 4 [9] (crc32_compute [9]) 5.

(** The temp file is open and empty. *)
Definition out_of_order_world : World :=
  set_fs {[ bytes_of_string "out/.a.txt.tmp" := [] ]}
    (session (chunk_stream chunks_out_of_order ++ third_chunk) true 0 []).

(** ** Transfers without incident *)

(** A sender nothing goes wrong for: the reads and the sends succeed and
    the chunk buffer can be allocated. *)
Definition sender_unhindered (w : World) : Prop :=
  read_script w = [] /\ tx_script w = [] /\ malloc_ok w = true.

(** A receiver nothing goes wrong for, with room for [needed] bytes. *)
Definition receiver_unhindered (w : World) (needed : Z) : Prop :=
  tx_script w = [] /\ write_script w = [] /\ malloc_ok w = true /\
  fopen_errno w = None /\ rename_ok w = true /\
  exists available, disk_avail w = Some available /\ needed <= available.

Definition three_byte_source : World :=
  session (receiver_replies 1) true 3 [7; 8; 9].

Definition three_byte_metadata : FileMetadata :=
  mkFileMetadata (strncpy (bytes_of_string "data.bin") 255 ++ [0]) 3 420 0.

Definition three_bytes_sent : option Z * World :=
  @send_file little_endian_host (bytes_of_string "dir/data.bin") three_byte_source.

Definition three_byte_sink : World :=
  receiving (sent_since three_byte_source (snd three_bytes_sent)).

Definition handshake_world : World := session handshake_request true 0 [].

Definition handshake_received : result (MessageHeader * list Z) * World :=
  @recv_message little_endian_host [0; 0; 0; 0] 4 handshake_world.

Definition handshake_received_header : MessageHeader :=
  match fst handshake_received with
  | Ok (header, _) => header
  | Err _ => handshake_req_header
  end.

Definition chunk_five_received : result (list Z) * ChunkHeader * World :=
  @recv_chunk little_endian_host (ChunkHeader.mk 0 0 0 0) 4 chunk_five_world.

Definition plain_char (c : Z) : Prop :=
  97 <= c <= 122 \/ 65 <= c <= 90 \/ 48 <= c <= 57 \/ c = 45 \/ c = 95 \/ c = 46.

Definition malloc_fails_world : World :=
  {| rx := map RxByte (handshake_request ++ file_info_message "a.txt" 3 1 4);
     tx_script := []; tx_log := []; history := [];
     junk := []; malloc_ok := false;
     fs := ∅; disk_avail := Some (2 ^ 40); fopen_errno := None;
     write_script := []; rename_ok := true; remove_ok := true;
     src_stat := None; src_open_errno := None; src_data := []; read_script := [] |}.

Definition malloc_fails_prepared : result Prepared * World :=
  @receive_file_prepare little_endian_host (bytes_of_string "out") malloc_fails_world.

Definition malloc_fails_p : Prepared :=
  match fst malloc_fails_prepared with
  | Ok p => p
  | Err _ => mkPrepared four_byte_chunks [] [] [] 0
  end.

Definition handshake_delivered : World :=
  receiving (sent_since (receiving []) (snd handshake_sent)).

Definition chunk_delivered : World :=
  receiving (sent_since (receiving []) (snd chunk_sent)).

Definition client_world : World :=
  receiving (message MSG_HANDSHAKE_ACK 1 [1; 0; 0; 0]).

Definition client_request_sent : result unit * World :=
  @send_message little_endian_host MSG_HANDSHAKE_REQ 0
    (HandshakePayload_bytes FT_PROTOCOL_VERSION 0) 4 client_world.

Definition server_world : World :=
  receiving (sent_since client_world (snd client_request_sent)).

(** Between [w] and [w'] the program has sent [bytes], and nothing else. *)
Definition sends (w w' : World) (bytes : list Z) : Prop :=
  exists sent, tx_log w' = tx_log w ++ sent /\ wire sent = bytes.

(** * Proofs *)

Example crc32_check_value :
  crc32_compute (bytes_of_string "123456789") = 0xCBF43926.
Proof. vm_compute. reflexivity. Qed.

(** * Byte order *)

Section ByteOrder.

Lemma length_le_bytes n x : length (le_bytes n x) = n.
Proof. revert x. induction n as [|n IH]; intros x; simpl; [done|]. by rewrite IH. Qed.

Lemma le_bytes_is_byte n x : Forall is_byte (le_bytes n x).
Proof.
  revert x. induction n as [|n IH]; intros x; simpl; constructor; [|apply IH].
  unfold is_byte. apply Z.mod_pos_bound. lia.
Qed.

Lemma le_val_le_bytes n x : le_val (le_bytes n x) = x mod 256 ^ Z.of_nat n.
Proof.
  revert x. induction n as [|n IH]; intros x.
  - simpl. by rewrite Z.mod_1_r.
  - rewrite Nat2Z.inj_succ, Z.pow_succ_r by lia.
    simpl. rewrite IH. symmetry. apply Z.rem_mul_r; lia.
Qed.

Lemma le_val_bounds l :
  Forall is_byte l -> 0 <= le_val l < 256 ^ Z.of_nat (length l).
Proof.
  induction 1 as [|b l Hb _ IH]; simpl length; simpl le_val.
  - simpl. lia.
  - rewrite Nat2Z.inj_succ, Z.pow_succ_r by lia. unfold is_byte in Hb. nia.
Qed.

Lemma le_bytes_le_val l :
  Forall is_byte l -> le_bytes (length l) (le_val l) = l.
Proof.
  induction 1 as [|b l Hb Hl IH]; [done|].
  unfold is_byte in Hb. simpl. f_equal.
  - rewrite (Z.mul_comm 256), Z.mod_add by lia. apply Z.mod_small; lia.
  - rewrite (Z.mul_comm 256), Z.div_add by lia.
    rewrite Z.div_small by lia. exact IH.
Qed.

Lemma le_bytes_app n m x :
  le_bytes (n + m) x = le_bytes n x ++ le_bytes m (x / 256 ^ Z.of_nat n).
Proof.
  revert x. induction n as [|n IH]; intros x.
  - simpl. by rewrite Z.div_1_r.
  - rewrite Nat2Z.inj_succ, Z.pow_succ_r by lia. simpl. f_equal.
    rewrite IH. f_equal. f_equal. rewrite Z.div_div; lia.
Qed.

Lemma le_bytes_mod n x : le_bytes n (x mod 256 ^ Z.of_nat n) = le_bytes n x.
Proof.
  rewrite <- le_val_le_bytes.
  rewrite <- (length_le_bytes n x) at 1.
  apply le_bytes_le_val, le_bytes_is_byte.
Qed.

Lemma le_val_app a b :
  le_val (a ++ b) = le_val a + 256 ^ Z.of_nat (length a) * le_val b.
Proof.
  induction a as [|c a IH]; simpl length; simpl app; simpl le_val.
  - simpl. lia.
  - rewrite IH, Nat2Z.inj_succ, Z.pow_succ_r by lia. lia.
Qed.

Lemma rev_is_byte l : Forall is_byte l -> Forall is_byte (rev l).
Proof. apply List.Forall_rev. Qed.

Lemma be_val_be_bytes n x : be_val (be_bytes n x) = x mod 256 ^ Z.of_nat n.
Proof. unfold be_val, be_bytes. rewrite rev_involutive. apply le_val_le_bytes. Qed.

Lemma length_be_bytes n x : length (be_bytes n x) = n.
Proof. unfold be_bytes. by rewrite length_rev, length_le_bytes. Qed.

Lemma bswap_bounds n x : 0 <= bswap n x < 256 ^ Z.of_nat n.
Proof.
  unfold bswap.
  pose proof (le_val_bounds (rev (le_bytes n x))
                (rev_is_byte _ (le_bytes_is_byte n x))) as Hb.
  by rewrite length_rev, length_le_bytes in Hb.
Qed.

Lemma le_bytes_bswap n x : le_bytes n (bswap n x) = be_bytes n x.
Proof.
  unfold bswap, be_bytes.
  rewrite <- (length_le_bytes n x) at 1. rewrite <- length_rev.
  apply le_bytes_le_val, rev_is_byte, le_bytes_is_byte.
Qed.

Lemma bswap_le_val l :
  Forall is_byte l -> bswap (length l) (le_val l) = be_val l.
Proof. intros Hl. unfold bswap, be_val. by rewrite le_bytes_le_val. Qed.

Context `{Host}.

(** Whatever the host, a value passed through [htons]/[htonl] and stored
    lies in memory most significant byte first. *)
Lemma native_bytes_htons x : native_bytes 2 (htons x) = be_bytes 2 x.
Proof.
  unfold native_bytes, htons. destruct big_endian; [done|]. apply le_bytes_bswap.
Qed.

Lemma native_bytes_htonl x : native_bytes 4 (htonl x) = be_bytes 4 x.
Proof.
  unfold native_bytes, htonl. destruct big_endian; [done|]. apply le_bytes_bswap.
Qed.

Lemma ntohs_native_val l :
  length l = 2%nat -> Forall is_byte l -> ntohs (native_val l) = be_val l.
Proof.
  intros Hlen Hl. unfold native_val, ntohs. destruct big_endian; [done|].
  rewrite <- Hlen. by apply bswap_le_val.
Qed.

Lemma ntohl_native_val l :
  length l = 4%nat -> Forall is_byte l -> ntohl (native_val l) = be_val l.
Proof.
  intros Hlen Hl. unfold native_val, ntohl. destruct big_endian; [done|].
  rewrite <- Hlen. by apply bswap_le_val.
Qed.

Lemma lor_shiftl_low a b :
  0 <= b < 2 ^ 32 -> Z.lor (Z.shiftl a 32) b = a * 2 ^ 32 + b.
Proof.
  intros Hb. rewrite <- Z.shiftl_mul_pow2 by lia.
  rewrite <- Z.add_lor_land.
  assert (Z.land (Z.shiftl a 32) b = 0) as ->; [|lia].
  apply Z.bits_inj'. intros n Hn.
  rewrite Z.land_spec, Z.bits_0.
  destruct (Z.lt_ge_cases n 32).
  - by rewrite Z.shiftl_spec_low.
  - rewrite <- (Z.mod_small b (2 ^ 32)) by lia.
    rewrite Z.mod_pow2_bits_high by lia. apply andb_false_r.
Qed.

(** The macro's swap of the two halves equals the eight-byte swap. *)
Lemma swap64_bswap x :
  is_u64 x ->
  Z.lor (Z.shiftl (bswap 4 (Z.land x 0xFFFFFFFF)) 32) (bswap 4 (Z.shiftr x 32))
  = bswap 8 x.
Proof.
  intros Hx. unfold is_u64 in Hx.
  rewrite lor_shiftl_low by (apply (bswap_bounds 4)).
  change 0xFFFFFFFF with (Z.ones 32).
  rewrite Z.land_ones, Z.shiftr_div_pow2 by lia.
  unfold bswap.
  change 8%nat with (4 + 4)%nat. rewrite le_bytes_app.
  rewrite rev_app_distr, le_val_app, length_rev, length_le_bytes.
  change (256 ^ Z.of_nat 4) with (2 ^ 32).
  change (2 ^ 32) with (256 ^ Z.of_nat 4) at 1. rewrite le_bytes_mod.
  lia.
Qed.

Lemma htonl_1_big : big_endian = true -> (1 =? htonl 1) = true.
Proof. intros Hbe. unfold htonl. by rewrite Hbe. Qed.

Lemma htonl_1_little : big_endian = false -> (1 =? htonl 1) = false.
Proof. intros Hbe. unfold htonl. by rewrite Hbe. Qed.

Lemma native_bytes_htonll x :
  is_u64 x -> native_bytes 8 (htonll x) = be_bytes 8 x.
Proof.
  intros Hx. unfold native_bytes, htonll.
  destruct big_endian eqn:Hbe.
  - by rewrite htonl_1_big.
  - rewrite htonl_1_little by done. unfold htonl. rewrite Hbe.
    rewrite swap64_bswap by done. apply le_bytes_bswap.
Qed.

Lemma ntohll_native_val l :
  length l = 8%nat -> Forall is_byte l -> ntohll (native_val l) = be_val l.
Proof.
  intros Hlen Hl. unfold native_val, ntohll.
  destruct big_endian eqn:Hbe.
  - unfold ntohl. by rewrite Hbe.
  - unfold ntohl. rewrite Hbe.
    assert ((1 =? bswap 4 1) = false) as -> by (vm_compute; reflexivity).
    rewrite swap64_bswap.
    + rewrite <- Hlen. by apply bswap_le_val.
    + pose proof (le_val_bounds l Hl) as Hb. rewrite Hlen in Hb. exact Hb.
Qed.

End ByteOrder.

(** * Byte buffers *)

Lemma buf_write_lookup off bs buf i :
  (off + length bs <= length buf)%nat ->
  buf_write off bs buf !! i =
    if decide (i < off)%nat then buf !! i
    else if decide (i < off + length bs)%nat then bs !! (i - off)%nat
    else buf !! i.
Proof.
  intros Hlen. unfold buf_write.
  assert (length (take off buf) = off) as Htake by (rewrite length_take; lia).
  destruct (decide (i < off)%nat) as [Hi|Hi].
  - rewrite lookup_app_l by lia. by rewrite lookup_take_lt.
  - rewrite lookup_app_r by lia. rewrite Htake.
    destruct (decide (i < off + length bs)%nat) as [Hj|Hj].
    + by rewrite lookup_app_l by lia.
    + rewrite lookup_app_r by lia. rewrite lookup_drop. f_equal. lia.
Qed.

Lemma buf_read_lookup off n buf i :
  buf_read off n buf !! i = if decide (i < n)%nat then buf !! (off + i)%nat else None.
Proof.
  unfold buf_read. destruct (decide (i < n)%nat).
  - rewrite lookup_take_lt by done. apply lookup_drop.
  - apply lookup_take_ge. lia.
Qed.

Lemma length_buf_write off bs buf :
  (off + length bs <= length buf)%nat ->
  length (buf_write off bs buf) = length buf.
Proof.
  intros Hlen. unfold buf_write.
  rewrite !length_app, length_take, length_drop. lia.
Qed.

Lemma buf_read_write_same off n bs buf :
  n = length bs -> (off + n <= length buf)%nat ->
  buf_read off n (buf_write off bs buf) = bs.
Proof.
  intros -> Hlen. apply list_eq. intros i.
  rewrite buf_read_lookup, buf_write_lookup by done.
  repeat case_decide; try lia.
  - f_equal. lia.
  - symmetry. apply lookup_ge_None_2. lia.
Qed.

Lemma buf_read_write_disjoint off n off' bs buf :
  (off + n <= off' \/ off' + length bs <= off)%nat ->
  (off' + length bs <= length buf)%nat ->
  buf_read off n (buf_write off' bs buf) = buf_read off n buf.
Proof.
  intros Hdis Hlen. apply list_eq. intros i.
  rewrite !buf_read_lookup, buf_write_lookup by done.
  repeat case_decide; try done; lia.
Qed.

Lemma load8_write_same off v buf :
  (off < length buf)%nat -> load8 (buf_write off [v] buf) off = v.
Proof.
  intros Hlen. unfold load8. rewrite nth_lookup.
  rewrite buf_write_lookup by (simpl; lia).
  repeat case_decide; simpl in *; try lia.
  by rewrite Nat.sub_diag.
Qed.

Lemma load8_write_disjoint i off bs buf :
  (i < off \/ off + length bs <= i)%nat ->
  (off + length bs <= length buf)%nat ->
  load8 (buf_write off bs buf) i = load8 buf i.
Proof.
  intros Hdis Hlen. unfold load8. rewrite !nth_lookup.
  rewrite buf_write_lookup by done.
  repeat case_decide; try done; lia.
Qed.

Lemma take_buf_write n off bs buf :
  (n <= off)%nat -> (off + length bs <= length buf)%nat ->
  take n (buf_write off bs buf) = take n buf.
Proof.
  intros Hn Hlen.
  change (buf_read 0 n (buf_write off bs buf) = buf_read 0 n buf).
  apply buf_read_write_disjoint; [lia | done].
Qed.

Lemma length_buf_read off n buf :
  (off + n <= length buf)%nat -> length (buf_read off n buf) = n.
Proof. intros Hlen. unfold buf_read. rewrite length_take, length_drop. lia. Qed.

Lemma length_native_bytes `{Host} n x : length (native_bytes n x) = n.
Proof.
  unfold native_bytes. destruct big_endian;
    [apply length_be_bytes | apply length_le_bytes].
Qed.

(** Side conditions on offsets and lengths of nested writes. *)
Ltac buf_len :=
  unfold store8, store16, store32, store64, memcpy_to, memset in *;
  repeat (rewrite length_buf_write by buf_len);
  rewrite ?length_native_bytes, ?length_be_bytes, ?length_le_bytes,
    ?length_replicate, ?length_take;
  simpl length; lia.

(** Read a region back through the writes made after it. *)
Ltac read_back :=
  repeat first
    [ rewrite buf_read_write_same by buf_len
    | rewrite buf_read_write_disjoint by buf_len
    | rewrite load8_write_same by buf_len
    | rewrite load8_write_disjoint by buf_len ].

(** * CRC-32 stays within 32 bits *)

Lemma lxor_u32 a b : is_u32 a -> is_u32 b -> is_u32 (Z.lxor a b).
Proof.
  unfold is_u32. intros Ha Hb.
  assert (0 <= Z.lxor a b) as Hnn by (apply Z.lxor_nonneg; lia).
  split; [done|].
  destruct (Z.eq_dec (Z.lxor a b) 0) as [->|Hne]; [lia|].
  apply Z.log2_lt_pow2; [lia|].
  pose proof (Z.log2_lxor a b) as Hl.
  assert (Z.log2 a < 32) as Hla.
  { destruct (Z.eq_dec a 0) as [->|]; [simpl; lia|]. apply Z.log2_lt_pow2; lia. }
  assert (Z.log2 b < 32) as Hlb.
  { destruct (Z.eq_dec b 0) as [->|]; [simpl; lia|]. apply Z.log2_lt_pow2; lia. }
  lia.
Qed.

Lemma crc32_bit_u32 crc : is_u32 crc -> is_u32 (crc32_bit crc).
Proof.
  intros Hc. unfold crc32_bit.
  assert (is_u32 (Z.shiftr crc 1)) as Hs.
  { unfold is_u32 in *. rewrite Z.shiftr_div_pow2 by lia.
    change (2 ^ 1) with 2. split; [apply Z.div_pos; lia|].
    apply Z.div_lt_upper_bound; lia. }
  destruct (Z.testbit crc 0); [|done].
  apply lxor_u32; [done|]. unfold is_u32. lia.
Qed.

Lemma crc32_byte_u32 crc b : is_u32 crc -> is_u32 (crc32_byte crc b).
Proof.
  intros Hc. unfold crc32_byte.
  assert (is_u32 (Z.lxor crc (b mod 256))) as Hx.
  { apply lxor_u32; [done|]. unfold is_u32.
    pose proof (Z.mod_pos_bound b 256). lia. }
  generalize dependent (Z.lxor crc (b mod 256)). intros c Hx.
  simpl. by do 8 apply crc32_bit_u32.
Qed.

Lemma crc32_compute_u32 data : is_u32 (crc32_compute data).
Proof.
  unfold crc32_compute. apply lxor_u32; [|unfold is_u32; lia].
  assert (is_u32 0xFFFFFFFF) as Hinit by (unfold is_u32; lia).
  generalize dependent 0xFFFFFFFF. induction data as [|b data IH]; intros c Hc.
  - done.
  - simpl. apply IH. by apply crc32_byte_u32.
Qed.

(** * Header codec *)

Section HeaderCodec.
Context `{Host}.

Lemma be_bytes_is_byte n x : Forall is_byte (be_bytes n x).
Proof. apply rev_is_byte, le_bytes_is_byte. Qed.

Lemma ntohs_htons_memory x :
  is_u16 x -> ntohs (native_val (native_bytes 2 (htons x))) = x.
Proof.
  intros Hx. rewrite native_bytes_htons.
  rewrite ntohs_native_val by (apply length_be_bytes || apply be_bytes_is_byte).
  rewrite be_val_be_bytes. apply Z.mod_small. exact Hx.
Qed.

Lemma ntohl_htonl_memory x :
  is_u32 x -> ntohl (native_val (native_bytes 4 (htonl x))) = x.
Proof.
  intros Hx. rewrite native_bytes_htonl.
  rewrite ntohl_native_val by (apply length_be_bytes || apply be_bytes_is_byte).
  rewrite be_val_be_bytes. apply Z.mod_small. exact Hx.
Qed.

Lemma ntohll_htonll_memory x :
  is_u64 x -> ntohll (native_val (native_bytes 8 (htonll x))) = x.
Proof.
  intros Hx. rewrite native_bytes_htonll by done.
  rewrite ntohll_native_val by (apply length_be_bytes || apply be_bytes_is_byte).
  rewrite be_val_be_bytes. apply Z.mod_small. exact Hx.
Qed.

Lemma length_serialize_header h buffer :
  length buffer = 32%nat -> length (protocol_serialize_header h buffer) = 32%nat.
Proof. intros Hlen. unfold protocol_serialize_header. buf_len. Qed.

Lemma take_24_serialize_header h buffer :
  length buffer = 32%nat ->
  take 24 (protocol_serialize_header h buffer) =
  take 24
    (store64
       (store64
          (store16
             (store8 (store8 (store32 buffer 0 (htonl (MessageHeader.magic h)))
                        4 (MessageHeader.version h))
                5 (MessageHeader.msg_type h))
             6 (htons (MessageHeader.flags h)))
          8 (htonll (MessageHeader.sequence_num h)))
       16 (htonll (MessageHeader.payload_size h))).
Proof.
  intros Hlen. unfold protocol_serialize_header.
  unfold store32 at 1. rewrite take_buf_write by buf_len.
  unfold store32 at 1. rewrite take_buf_write by buf_len.
  reflexivity.
Qed.

Lemma stored_checksum h buffer :
  length buffer = 32%nat ->
  buf_read 24 4 (protocol_serialize_header h buffer) =
  be_bytes 4 (crc32_compute (take 24 (protocol_serialize_header h buffer))).
Proof.
  intros Hlen. rewrite take_24_serialize_header by done.
  unfold protocol_serialize_header.
  unfold store32 at 1. rewrite buf_read_write_disjoint by buf_len.
  unfold store32 at 1. rewrite buf_read_write_same by buf_len.
  apply native_bytes_htonl.
Qed.

Lemma deserialize_serialize_header h buffer :
  wf_header h -> length buffer = 32%nat ->
  protocol_deserialize_header (protocol_serialize_header h buffer) =
  with_checksum h (crc32_compute (take 24 (protocol_serialize_header h buffer))).
Proof.
  intros (Hmagic & Hver & Htype & Hflags & Hseq & Hsize & _ & Hres) Hlen.
  unfold protocol_deserialize_header, with_checksum. f_equal.
  - unfold protocol_serialize_header, load32.
    unfold store8, store16, store32, store64. read_back.
    by apply ntohl_htonl_memory.
  - unfold protocol_serialize_header.
    unfold store8, store16, store32, store64. read_back. done.
  - unfold protocol_serialize_header.
    unfold store8, store16, store32, store64. read_back. done.
  - unfold protocol_serialize_header, load16.
    unfold store8, store16, store32, store64. read_back.
    by apply ntohs_htons_memory.
  - unfold protocol_serialize_header, load64.
    unfold store8, store16, store32, store64. read_back.
    by apply ntohll_htonll_memory.
  - unfold protocol_serialize_header, load64.
    unfold store8, store16, store32, store64. read_back.
    by apply ntohll_htonll_memory.
  - unfold load32. rewrite stored_checksum by done.
    rewrite ntohl_native_val by (apply length_be_bytes || apply be_bytes_is_byte).
    rewrite be_val_be_bytes. apply Z.mod_small, crc32_compute_u32.
  - unfold protocol_serialize_header, load32.
    unfold store8, store16, store32, store64. read_back.
    by apply ntohl_htonl_memory.
Qed.

End HeaderCodec.

Lemma deserialize_serialize_chunk_header `{Host} c buffer :
  wf_chunk_header c -> length buffer = 24%nat ->
  protocol_deserialize_chunk_header (protocol_serialize_chunk_header c buffer) = c.
Proof.
  intros (Hid & Hoff & Hsize & Hcrc) Hlen. destruct c as [id off size crc].
  simpl in *.
  unfold protocol_deserialize_chunk_header, protocol_serialize_chunk_header.
  simpl. f_equal.
  - unfold load64, store32, store64. read_back. by apply ntohll_htonll_memory.
  - unfold load64, store32, store64. read_back. by apply ntohll_htonll_memory.
  - unfold load32, store32, store64. read_back. by apply ntohl_htonl_memory.
  - unfold load32, store32, store64. read_back. by apply ntohl_htonl_memory.
Qed.

Lemma length_serialize_chunk_header `{Host} c buffer :
  length buffer = 24%nat ->
  length (protocol_serialize_chunk_header c buffer) = 24%nat.
Proof. intros Hlen. unfold protocol_serialize_chunk_header. buf_len. Qed.

(** C3, as stated, fails: the header that [send_message] builds for a
    handshake request carries checksum 0 ([protocol_init_header] leaves it
    to serialization), and comes back from the wire with the CRC-32 of its
    first 24 bytes in that field. *)
Lemma header_roundtrip_checksum_differs :
  wf_header handshake_req_header /\
  @protocol_deserialize_header little_endian_host
    (@protocol_serialize_header little_endian_host handshake_req_header
       (replicate 32 0))
  <> handshake_req_header.
Proof.
  split.
  - repeat split; vm_compute; congruence.
  - intros Heq. apply (f_equal MessageHeader.checksum) in Heq.
    vm_compute in Heq. discriminate Heq.
Qed.

(** C3 (amended): for every header [h] and every 32-byte buffer, on a host
    of either byte order, deserializing the serialized header gives back
    magic, version, msg_type, flags, sequence_num, payload_size and reserved
    of [h]; its checksum field is the CRC-32 of bytes 0..23 of the buffer,
    whatever [h.checksum] was, and that CRC-32 is the big-endian u32 stored
    at bytes 24..27. *)
Theorem header_roundtrip_up_to_checksum `{Host} (h : MessageHeader) (buffer : list Z) :
  wf_header h -> length buffer = 32%nat ->
  length (protocol_serialize_header h buffer) = 32%nat /\
  protocol_deserialize_header (protocol_serialize_header h buffer) =
    with_checksum h (crc32_compute (take 24 (protocol_serialize_header h buffer))) /\
  crc32_compute (take 24 (protocol_serialize_header h buffer)) =
    read_u32_be (protocol_serialize_header h buffer) 24.
Proof.
  intros Hwf Hlen. split; [|split].
  - by apply length_serialize_header.
  - by apply deserialize_serialize_header.
  - unfold read_u32_be. rewrite stored_checksum by done.
    rewrite be_val_be_bytes. symmetry. apply Z.mod_small, crc32_compute_u32.
Qed.

Lemma header_roundtrip_up_to_checksum_witness :
  wf_header handshake_req_header /\ length (replicate 32 0) = 32%nat /\
  @protocol_deserialize_header big_endian_host
    (@protocol_serialize_header big_endian_host handshake_req_header (replicate 32 0)) =
  with_checksum handshake_req_header
    (crc32_compute
       (take 24 (@protocol_serialize_header big_endian_host handshake_req_header
                   (replicate 32 0)))).
Proof.
  assert (wf_header handshake_req_header) as Hwf.
  { repeat split; vm_compute; congruence. }
  split; [exact Hwf|]. split; [reflexivity|].
  apply (@header_roundtrip_up_to_checksum big_endian_host handshake_req_header
           (replicate 32 0) Hwf eq_refl).
Defined.

(** C9: [protocol_validate_header] succeeds exactly on magic 0x46544350,
    version 0x01 and a msg_type in 0x01..0x09 or 0xFF; a bad magic gives
    FT_ERR_PROTOCOL, otherwise a bad version FT_ERR_VERSION, otherwise a
    bad type (0 among them) FT_ERR_INVALID_MSG. *)
Theorem validate_header_spec (h : MessageHeader) :
  (protocol_validate_header h = FT_SUCCESS <->
     MessageHeader.magic h = 0x46544350 /\ MessageHeader.version h = 0x01 /\
     known_msg_type (MessageHeader.msg_type h)) /\
  (MessageHeader.magic h <> 0x46544350 ->
     protocol_validate_header h = FT_ERR_PROTOCOL) /\
  (MessageHeader.magic h = 0x46544350 -> MessageHeader.version h <> 0x01 ->
     protocol_validate_header h = FT_ERR_VERSION) /\
  (MessageHeader.magic h = 0x46544350 -> MessageHeader.version h = 0x01 ->
     ~ known_msg_type (MessageHeader.msg_type h) ->
     protocol_validate_header h = FT_ERR_INVALID_MSG) /\
  (MessageHeader.msg_type h = 0 -> protocol_validate_header h <> FT_SUCCESS).
Proof.
  unfold known_msg_type, protocol_validate_header, FT_MAGIC_NUMBER,
    FT_PROTOCOL_VERSION, MSG_HANDSHAKE_REQ, MSG_VERIFY_RESPONSE, MSG_ERROR.
  destruct (Z.eqb_spec (MessageHeader.magic h) 0x46544350) as [Hm|Hm];
  destruct (Z.eqb_spec (MessageHeader.version h) 1) as [Hv|Hv];
  destruct (Z.ltb_spec (MessageHeader.msg_type h) 1) as [Hlo|Hlo];
  destruct (Z.gtb_spec (MessageHeader.msg_type h) 9) as [Hhi|Hhi];
  destruct (Z.eqb_spec (MessageHeader.msg_type h) 255) as [He|He];
  simpl; repeat split; intros; try done; try lia;
  try (exfalso; lia); intuition lia.
Qed.

(** C10: whatever the 1024 bytes received, the filename that
    [protocol_deserialize_file_info] leaves in the FileInfo is a 256-byte
    field whose last byte is 0, so the C string in it ends inside the
    field: its length is at most 255 and the byte that ends it is one of
    the 256. *)
Theorem deserialize_file_info_filename_terminated `{Host}
    (buffer : list Z) (file_info : FileInfo) :
  length buffer = 1024%nat ->
  let filename :=
    FileInfo.filename (protocol_deserialize_file_info buffer file_info) in
  length filename = 256%nat /\
  filename !! 255%nat = Some 0 /\
  (length (cstr filename) <= 255)%nat /\
  filename !! length (cstr filename) = Some 0.
Proof.
  intros Hlen filename.
  assert (length filename = 256%nat) as Hflen.
  { subst filename. unfold protocol_deserialize_file_info. simpl.
    unfold store8, FT_MAX_FILENAME_LEN.
    rewrite length_buf_write; rewrite length_buf_read; simpl; lia. }
  assert (filename !! 255%nat = Some 0) as Hlast.
  { subst filename. unfold protocol_deserialize_file_info. simpl.
    unfold store8, FT_MAX_FILENAME_LEN.
    rewrite buf_write_lookup by (rewrite length_buf_read; simpl; lia).
    simpl. reflexivity. }
  split; [done|]. split; [done|].
  clearbody filename. clear Hflen.
  revert Hlast. generalize 255%nat as i.
  induction filename as [|c rest IH]; intros i Hi; [done|].
  simpl. destruct (Z.eqb_spec c 0) as [->|Hc].
  - simpl. split; [lia|done].
  - destruct i as [|i]; simpl in Hi.
    + congruence.
    + destruct (IH i Hi) as [Hle Hz]. simpl. split; [lia|done].
Qed.

Lemma deserialize_file_info_filename_terminated_witness :
  length (replicate 1024 (chr "A")) = 1024%nat /\
  FileInfo.filename
    (@protocol_deserialize_file_info little_endian_host (replicate 1024 (chr "A"))
       (FileInfo.mk 0 [] 0 0 0 0 [] 0 0 []))
  !! 255%nat = Some 0.
Proof.
  split; [reflexivity|].
  apply (@deserialize_file_info_filename_terminated little_endian_host
           (replicate 1024 (chr "A")) (FileInfo.mk 0 [] 0 0 0 0 [] 0 0 [])
           eq_refl).
Defined.

(** * Sanitizing the declared filename *)

Lemma cstr_cons_inv buf c s :
  cstr buf = c :: s -> exists rest, buf = c :: rest /\ c <> 0 /\ cstr rest = s.
Proof.
  destruct buf as [|b rest]; simpl; [done|].
  destruct (Z.eqb_spec b 0) as [->|Hb]; [done|].
  intros [= -> <-]. eauto.
Qed.

Lemma strstr_dotdot_cons2 c d rest :
  strstr_dotdot (c :: d :: rest) =
  if c =? 0 then false
  else if (c =? chr ".") && (d =? chr ".") then true
  else strstr_dotdot (d :: rest).
Proof. reflexivity. Qed.

Lemma strstr_dotdot_complete filename :
  contains_dotdot (cstr filename) -> strstr_dotdot filename = true.
Proof.
  intros (pre & post & Heq). revert filename Heq.
  induction pre as [|p pre IH]; intros filename Heq.
  - simpl in Heq.
    apply cstr_cons_inv in Heq as (rest & -> & _ & Heq).
    apply cstr_cons_inv in Heq as (rest' & -> & _ & _).
    reflexivity.
  - simpl in Heq.
    apply cstr_cons_inv in Heq as (rest & -> & Hp & Heq).
    assert (exists d rest', rest = d :: rest') as (d & rest' & ->).
    { destruct rest as [|d rest']; [|eauto]. by destruct pre. }
    rewrite strstr_dotdot_cons2.
    destruct (Z.eqb_spec p 0) as [|_]; [done|].
    destruct ((p =? chr ".") && (d =? chr ".")); [done|].
    by apply IH.
Qed.

Lemma file_sanitize_filename_rejects filename size :
  escaping_name (cstr filename) ->
  fst (file_sanitize_filename filename size) = FT_ERR_INVALID_ARG.
Proof.
  intros Hbad. unfold file_sanitize_filename.
  destruct (size =? 0); [done|].
  destruct (strstr_dotdot filename) eqn:Hdd; [done|].
  destruct Hbad as [Hbad|[(rest & Heq)|[(rest & Heq)|(X & rest & HX & Heq)]]].
  - apply strstr_dotdot_complete in Hbad. congruence.
  - apply cstr_cons_inv in Heq as (rest' & -> & _ & _). reflexivity.
  - apply cstr_cons_inv in Heq as (rest' & -> & _ & _). reflexivity.
  - apply cstr_cons_inv in Heq as (rest' & -> & _ & Heq).
    apply cstr_cons_inv in Heq as (rest'' & -> & _ & _).
    cbn [nth].
    destruct (Z.leb_spec (chr "A") X); [|lia].
    destruct (Z.leb_spec X (chr "Z")); [|lia].
    rewrite Z.eqb_refl. simpl. by rewrite !orb_true_r.
Qed.

(** A lower-case letter before the colon is no drive prefix for the code:
    the name passes, and the colon is dropped by the character filter. *)
Lemma lower_case_drive_letter_passes :
  file_sanitize_filename (bytes_of_string "c:\boot.ini" ++ [0]) 256
  = (FT_SUCCESS, bytes_of_string "c_boot.ini").
Proof. vm_compute. reflexivity. Qed.

(** * What a call leaves untouched *)

Create HintDb preserves.

Lemma preserves_ret {A X} (f : World -> X) (a : A) : preserves f (ret a).
Proof. intros w r w' [= _ <-]. done. Qed.

Lemma preserves_fail {A X} (f : World -> X) e : preserves f (@fail A e).
Proof. intros w r w' [= _ <-]. done. Qed.

Lemma preserves_bind {A B X} (f : World -> X) (m : M A) (k : A -> M B) :
  preserves f m -> (forall a, preserves f (k a)) -> preserves f (bind m k).
Proof.
  intros Hm Hk w r w'. unfold bind.
  destruct (m w) as [[a|e] w1] eqn:Hmw.
  - intros Hkw. rewrite (Hk _ _ _ _ Hkw). eauto.
  - intros [= _ <-]. eauto.
Qed.

Lemma preserves_ignore {A X} (f : World -> X) (m : M A) :
  preserves f m -> preserves f (ignore m).
Proof.
  intros Hm w r w'. unfold ignore. intros [= _ <-].
  destruct (m w) as [r1 w1] eqn:Hmw. simpl. eauto.
Qed.

Lemma preserves_on_failure {A X} (f : World -> X) (m : M A) handler :
  preserves f m -> (forall e, preserves f (handler e)) ->
  preserves f (on_failure m handler).
Proof.
  intros Hm Hh w r w'. unfold on_failure.
  destruct (m w) as [[a|e] w1] eqn:Hmw.
  - intros [= _ <-]. eauto.
  - intros [= _ <-]. destruct (handler e w1) as [r2 w2] eqn:Hhw. simpl.
    rewrite (Hh _ _ _ _ Hhw). eauto.
Qed.

Lemma preserves_uninit {X} (f : World -> X) n : preserves f (uninit n).
Proof. intros w r w' [= _ <-]. done. Qed.

Ltac preserves_step :=
  lazymatch goal with
  | |- preserves _ (bind _ _) => apply preserves_bind; [|intros ?]
  | |- preserves _ (ret _) => apply preserves_ret
  | |- preserves _ (fail _) => apply preserves_fail
  | |- preserves _ (ignore _) => apply preserves_ignore
  | |- preserves _ (on_failure _ _) => apply preserves_on_failure; [|intros ?]
  | |- preserves _ (uninit _) => apply preserves_uninit
  | |- preserves _ (if ?b then _ else _) => destruct b
  | |- preserves _ (let '(_, _) := ?p in _) => destruct p
  | |- preserves _ (match ?x with _ => _ end) => destruct x
  | |- _ => solve [eauto with preserves]
  end.

Ltac preserves_tac := repeat preserves_step.

(** The file system is out of reach of the network calls. *)
Lemma fs_socket_send_all buffer : preserves fs (socket_send_all buffer).
Proof.
  intros w r w'. unfold socket_send_all.
  destruct buffer; [by intros [= _ <-]|].
  destruct (tx_script w) as [|[|fatal] s]; by intros [= _ <-].
Qed.

Lemma fs_socket_recv_all n : preserves fs (socket_recv_all n).
Proof.
  intros w r w'. unfold socket_recv_all.
  destruct (recv_items _ _). by intros [= _ <-].
Qed.

Lemma fs_record_call c : preserves fs (record_call c).
Proof. by intros w r w' [= _ <-]. Qed.

#[local] Hint Resolve fs_socket_send_all fs_socket_recv_all fs_record_call : preserves.

Lemma fs_send_message `{Host} t s p n : preserves fs (send_message t s p n).
Proof. unfold send_message. preserves_tac. Qed.

Lemma fs_recv_message `{Host} p n : preserves fs (recv_message p n).
Proof. unfold recv_message. preserves_tac. Qed.

#[local] Hint Resolve fs_send_message fs_recv_message : preserves.

Lemma fs_perform_handshake_server `{Host} : preserves fs perform_handshake_server.
Proof. unfold perform_handshake_server. preserves_tac. Qed.

Lemma fs_recv_file_info `{Host} : preserves fs recv_file_info.
Proof. unfold recv_file_info, uninit_FileInfo. preserves_tac. Qed.

Lemma fs_send_error `{Host} e c m s : preserves fs (send_error e c m s).
Proof. unfold send_error. preserves_tac. Qed.

Lemma fs_send_chunk_ack `{Host} c st s : preserves fs (send_chunk_ack c st s).
Proof. unfold send_chunk_ack. preserves_tac. Qed.

#[local] Hint Resolve fs_perform_handshake_server fs_recv_file_info
  fs_send_error fs_send_chunk_ack : preserves.

(** * Messages on the wire *)

Lemma recv_items_bytes bs rest :
  recv_items (length bs) (map RxByte bs ++ rest) = (Ok bs, rest).
Proof. induction bs as [|b bs IH]; simpl; [done|]. by rewrite IH. Qed.

Lemma socket_recv_all_bytes n bs rest w :
  rx w = map RxByte bs ++ rest -> n = Z.of_nat (length bs) ->
  socket_recv_all n w = (Ok bs, set_rx rest w).
Proof.
  intros Hrx ->. unfold socket_recv_all.
  by rewrite Nat2Z.id, Hrx, recv_items_bytes.
Qed.

Lemma socket_send_all_ok buffer w :
  tx_script w = [] -> buffer <> [] ->
  socket_send_all buffer w = (Ok tt, set_tx [] (tx_log w ++ [Sent buffer]) w).
Proof.
  intros Hs Hb. unfold socket_send_all. rewrite Hs. by destruct buffer.
Qed.

Lemma valid_init_header `{Host} msg_type sequence_num payload_size hb :
  is_u8 msg_type -> is_u64 sequence_num -> is_u64 payload_size ->
  length hb = 32%nat ->
  protocol_deserialize_header
    (protocol_serialize_header
       (protocol_init_header msg_type sequence_num payload_size) hb) =
  with_checksum (protocol_init_header msg_type sequence_num payload_size)
    (crc32_compute
       (take 24 (protocol_serialize_header
                   (protocol_init_header msg_type sequence_num payload_size) hb))).
Proof.
  intros Ht Hs Hp Hlen. apply deserialize_serialize_header; [|done].
  unfold wf_header, protocol_init_header. simpl.
  unfold u8. rewrite Z.mod_small by exact Ht.
  repeat split; try apply Ht; try apply Hs; try apply Hp; by vm_compute.
Qed.

Lemma length_serialize_nonempty `{Host} h hb :
  length hb = 32%nat -> protocol_serialize_header h hb <> [].
Proof.
  intros Hlen Heq. apply (f_equal length) in Heq.
  rewrite length_serialize_header in Heq by done. done.
Qed.

(** [send_message] when nothing stops the sends. *)
Lemma send_message_ok `{Host} msg_type sequence_num payload payload_size w :
  tx_script w = [] -> 0 < payload_size ->
  take (Z.to_nat payload_size) payload <> [] ->
  send_message msg_type sequence_num payload payload_size w =
  (Ok tt,
   set_tx []
     (tx_log w
      ++ [Sent (protocol_serialize_header
                  (protocol_init_header msg_type sequence_num payload_size)
                  (uninit_bytes 32 w));
          Sent (take (Z.to_nat payload_size) payload)]) w).
Proof.
  intros Hs Hp Hne. unfold send_message, bind, uninit.
  assert (length (uninit_bytes FT_HEADER_SIZE w) = 32%nat) as Hlen.
  { unfold uninit_bytes, FT_HEADER_SIZE.
    rewrite length_take, length_app, length_replicate. lia. }
  rewrite socket_send_all_ok by (done || by apply length_serialize_nonempty).
  destruct (Z.gtb_spec payload_size 0); [|lia].
  rewrite socket_send_all_ok by done.
  simpl. by rewrite <- app_assoc.
Qed.

Lemma length_uninit_bytes n w : length (uninit_bytes n w) = n.
Proof.
  unfold uninit_bytes. rewrite length_take, length_app, length_replicate. lia.
Qed.

Lemma buf_read_app off n m buf :
  (off + n <= length buf)%nat ->
  buf_read off (n + m) buf = buf_read off n buf ++ buf_read (off + n) m buf.
Proof.
  intros Hlen. apply list_eq. intros i.
  destruct (decide (i < n)%nat) as [Hi|Hi].
  - rewrite lookup_app_l by (rewrite length_buf_read; lia).
    rewrite !buf_read_lookup. repeat case_decide; try lia. done.
  - rewrite lookup_app_r by (rewrite length_buf_read; lia).
    rewrite length_buf_read by done.
    rewrite !buf_read_lookup. repeat case_decide; try lia; try done.
    f_equal. lia.
Qed.

Lemma chunk_ack_buffer `{Host} chunk_id status j :
  is_u64 chunk_id -> length j = 16%nat ->
  take 12 (memset (store8 (store64 j 0 (htonll chunk_id)) 8 status) 9 0 3) =
  chunk_ack_payload chunk_id status.
Proof.
  intros Hid Hlen.
  change (take 12 ?b) with (buf_read 0 12 b).
  change 12%nat with (8 + (1 + 3))%nat.
  rewrite buf_read_app by buf_len. rewrite buf_read_app by buf_len.
  unfold memset, store8, store64. read_back.
  rewrite native_bytes_htonll by done. reflexivity.
Qed.

Lemma message_bytes_split `{Host} msg_type sequence_num payload hb rest :
  map RxByte (message_bytes msg_type sequence_num payload hb) ++ rest =
  map RxByte
    (protocol_serialize_header
       (protocol_init_header msg_type sequence_num (Z.of_nat (length payload))) hb)
  ++ (map RxByte payload ++ rest).
Proof. unfold message_bytes. by rewrite map_app, <- app_assoc. Qed.

(** [recv_chunk] on a CHUNK_DATA message: the chunk header it fills, and
    the verdict of the CRC comparison. *)
Lemma recv_chunk_message `{Host} ch0 max w chunk_id chunk_offset data crc
    sequence_num hb cb rest :
  is_u64 chunk_id -> is_u64 chunk_offset -> is_u32 crc -> is_u64 sequence_num ->
  length hb = 32%nat -> length cb = 24%nat ->
  is_u32 (Z.of_nat (length data)) -> Z.of_nat (length data) <= max ->
  rx w = map RxByte
           (message_bytes MSG_CHUNK_DATA sequence_num
              (chunk_payload chunk_id chunk_offset data crc cb) hb) ++ rest ->
  recv_chunk ch0 max w =
  (if crc32_compute data =? crc then Ok data else Err FT_ERR_CHECKSUM,
   ChunkHeader.mk chunk_id chunk_offset (Z.of_nat (length data)) crc,
   set_rx rest w).
Proof.
  intros Hid Hoff Hcrc Hseq Hhb Hcb Hlen Hmax Hrx.
  rewrite message_bytes_split in Hrx.
  unfold chunk_payload in Hrx. rewrite map_app, <- app_assoc in Hrx.
  assert (length (chunk_payload chunk_id chunk_offset data crc cb)
          = (24 + length data)%nat) as Hplen.
  { unfold chunk_payload. rewrite length_app.
    by rewrite length_serialize_chunk_header. }
  fold (chunk_payload chunk_id chunk_offset data crc cb) in Hrx.
  unfold recv_chunk.
  erewrite socket_recv_all_bytes; [|exact Hrx|];
    [|by rewrite length_serialize_header].
  rewrite valid_init_header; [|by vm_compute| done | | done].
  2:{ rewrite Hplen. unfold is_u32, is_u64 in *. lia. }
  cbn [protocol_validate_header with_checksum protocol_init_header
         MessageHeader.magic MessageHeader.version MessageHeader.msg_type].
  change (negb (bool_decide (_ = FT_SUCCESS))) with false. cbv iota.
  change (negb (u8 MSG_CHUNK_DATA =? MSG_CHUNK_DATA)) with false. cbv iota.
  erewrite socket_recv_all_bytes; [|reflexivity|];
    [|by rewrite length_serialize_chunk_header].
  rewrite deserialize_serialize_chunk_header by done.
  cbn [ChunkHeader.chunk_size ChunkHeader.chunk_crc32].
  destruct (Z.gtb_spec (Z.of_nat (length data)) max); [lia|].
  erewrite socket_recv_all_bytes; [|reflexivity|reflexivity].
  destruct (crc32_compute data =? crc); reflexivity.
Qed.

Lemma send_chunk_ack_ok `{Host} chunk_id status sequence_num w :
  is_u64 chunk_id -> tx_script w = [] ->
  send_chunk_ack chunk_id status sequence_num w =
  (Ok tt,
   set_tx []
     (tx_log w
      ++ [Sent (protocol_serialize_header
                  (protocol_init_header MSG_CHUNK_ACK sequence_num 12)
                  (uninit_bytes 32 w));
          Sent (chunk_ack_payload chunk_id status)])
     (set_history (history w ++ [CallSendChunkAck chunk_id status]) w)).
Proof.
  intros Hid Hs. unfold send_chunk_ack, bind, record_call, uninit.
  rewrite send_message_ok; [| done | lia |].
  - change (Z.to_nat 12) with 12%nat.
    rewrite chunk_ack_buffer by (done || apply length_uninit_bytes).
    reflexivity.
  - change (Z.to_nat 12) with 12%nat.
    rewrite chunk_ack_buffer by (done || apply length_uninit_bytes).
    unfold chunk_ack_payload. by destruct (be_bytes 8 chunk_id).
Qed.

Lemma file_write_chunk_ok file offset buffer w :
  write_script w = [] -> 0 <= offset < 2 ^ 63 ->
  file_write_chunk file offset buffer (Z.of_nat (length buffer)) w =
  (Ok tt,
   set_fs (alter (file_pwrite (Z.to_nat offset) buffer) file (fs w))
     (set_write_script [] w)).
Proof.
  intros Hs Hoff. unfold file_write_chunk. rewrite Hs. simpl tail.
  destruct (Z.leb_spec (2 ^ 63) offset); [lia|].
  by rewrite Nat2Z.id, firstn_all.
Qed.

(** The names that are refused: a declared filename that contains "..", or
    begins with '/' or '\', or begins with an upper-case letter A..Z
    followed by ':', makes [file_sanitize_filename] return
    FT_ERR_INVALID_ARG, and [receive_file] returns -1 with the file system
    as it found it: no temp file, no final file. *)
Lemma receive_file_rejects_escaping_name `{Host}
    (output_dir : list Z) (w w1 : World) (file_info : FileInfo) :
  (perform_handshake_server ;; recv_file_info) w = (Ok file_info, w1) ->
  escaping_name (cstr (FileInfo.filename file_info)) ->
  fst (file_sanitize_filename (FileInfo.filename file_info)
         (Z.of_nat FT_MAX_FILENAME_LEN)) = FT_ERR_INVALID_ARG /\
  fst (receive_file output_dir w) = Some (-1) /\
  fs (snd (receive_file output_dir w)) = fs w.
Proof.
  intros Hrun Hbad.
  pose proof (file_sanitize_filename_rejects _ (Z.of_nat FT_MAX_FILENAME_LEN) Hbad)
    as Hrej.
  split; [exact Hrej|].
  unfold bind in Hrun.
  destruct (perform_handshake_server w) as [[[]|e] w0] eqn:Hhs; [|done].
  pose proof (fs_perform_handshake_server _ _ _ Hhs) as Hfs0.
  pose proof (fs_recv_file_info _ _ _ Hrun) as Hfs1.
  unfold receive_file, receive_file_prepare, bind.
  rewrite Hhs, Hrun.
  destruct (file_sanitize_filename _ _) as [rc sanitized]. simpl in Hrej.
  subst rc. simpl.
  unfold ignore. simpl.
  split; [done|].
  destruct (send_error _ _ _ _ w1) as [r2 w2] eqn:Hse. simpl.
  rewrite (fs_send_error _ _ _ _ _ _ _ Hse). congruence.
Qed.

(** * The receiver's answer to a checksum failure *)



(** * The call history *)

Lemma history_socket_send_all buffer : preserves history (socket_send_all buffer).
Proof.
  intros w r w'. unfold socket_send_all.
  destruct buffer; [by intros [= _ <-]|].
  destruct (tx_script w) as [|[|fatal] s]; by intros [= _ <-].
Qed.

Lemma history_socket_recv_all n : preserves history (socket_recv_all n).
Proof.
  intros w r w'. unfold socket_recv_all.
  destruct (recv_items _ _). by intros [= _ <-].
Qed.

#[local] Hint Resolve history_socket_send_all history_socket_recv_all : preserves.

Lemma history_send_message `{Host} t s p n : preserves history (send_message t s p n).
Proof. unfold send_message. preserves_tac. Qed.

Lemma history_recv_message `{Host} p n : preserves history (recv_message p n).
Proof. unfold recv_message. preserves_tac. Qed.

#[local] Hint Resolve history_send_message history_recv_message : preserves.

Lemma history_recv_chunk_ack `{Host} : preserves history recv_chunk_ack.
Proof. unfold recv_chunk_ack. preserves_tac. Qed.

Lemma history_send_chunk `{Host} chunk_id chunk_offset data data_size seq w r w' :
  send_chunk chunk_id chunk_offset data data_size seq w = (r, w') ->
  history w' = history w ++ [CallSendChunk chunk_id].
Proof.
  unfold send_chunk. unfold bind at 1. unfold record_call at 1.
  intros Hrun.
  match type of Hrun with ?m _ = _ => assert (preserves history m) as Hp end.
  { preserves_tac. }
  apply Hp in Hrun. exact Hrun.
Qed.

(** The retry loop for one chunk calls [send_chunk] at most
    FT_MAX_RETRIES - retry_count times, and that much fuel ends it. *)
Lemma send_chunk_retry_attempts `{Host} chunk_id chunk_offset buf bytes_read :
  forall (fuel : nat) (retry_count sequence_num : Z) (w : World) r w',
  send_chunk_retry fuel chunk_id chunk_offset buf bytes_read retry_count
    sequence_num w = (r, w') ->
  exists k : nat,
    history w' = history w ++ replicate k (CallSendChunk chunk_id) /\
    Z.of_nat k <= Z.max 0 (FT_MAX_RETRIES - retry_count) /\
    (FT_MAX_RETRIES - retry_count <= Z.of_nat fuel -> r <> None).
Proof.
  unfold FT_MAX_RETRIES.
  induction fuel as [|fuel IH]; intros rc seq w r w'; cbn [send_chunk_retry].
  - unfold FT_MAX_RETRIES. destruct (Z.ltb_spec rc 3); intros [= <- <-].
    + exists 0%nat. simpl. rewrite app_nil_r. split; [done|]. split; lia.
    + exists 0%nat. simpl. rewrite app_nil_r. split; [done|]. split; [lia|done].
  - unfold FT_MAX_RETRIES. destruct (Z.ltb_spec rc 3) as [Hrc|Hrc].
    2:{ intros [= <- <-]. exists 0%nat. simpl. rewrite app_nil_r.
        split; [done|]. split; [lia|done]. }
    assert (forall w1 r w',
      history w1 = history w ++ [CallSendChunk chunk_id] ->
      (if rc + 1 >=? 3 then (Some (@Cleanup Z), w1)
       else send_chunk_retry fuel chunk_id chunk_offset buf bytes_read (rc + 1)
              (u64 (seq + 1)) w1) = (r, w') ->
      exists k : nat,
        history w' = history w ++ replicate k (CallSendChunk chunk_id) /\
        Z.of_nat k <= Z.max 0 (3 - rc) /\
        (3 - rc <= Z.of_nat (S fuel) -> r <> None)) as Hagain.
    { intros w1 r1 w1' Hh1.
      destruct (Z.geb_spec (rc + 1) 3) as [Hge|Hlt].
      - intros [= <- <-]. exists 1%nat. simpl. split; [done|]. split; [lia|done].
      - intros Hrun. apply IH in Hrun as (k & Hk & Hle & Hfuel).
        exists (S k). split; [|split].
        + rewrite Hk, Hh1. rewrite <- app_assoc. reflexivity.
        + lia.
        + intros Hf. apply Hfuel. lia. }
    destruct (send_chunk chunk_id chunk_offset buf bytes_read seq w)
      as [[[]|e] w1] eqn:Hsend;
      pose proof (history_send_chunk _ _ _ _ _ _ _ _ Hsend) as Hh1.
    + destruct (recv_chunk_ack w1) as [[ack|e] w2] eqn:Hack;
        pose proof (history_recv_chunk_ack _ _ _ Hack) as Hh2.
      * destruct (negb (ChunkAck.status ack =? 0)).
        -- apply Hagain. congruence.
        -- intros [= <- <-]. exists 1%nat. simpl.
           split; [congruence|]. split; [lia|done].
      * apply Hagain. congruence.
    + apply Hagain. congruence.
Qed.

(** * The receiver has no retry limit; the sender has one *)


(** * Receiving a message that was sent *)

Lemma validate_init_header msg_type sequence_num payload_size c :
  known_msg_type msg_type ->
  protocol_validate_header
    (with_checksum (protocol_init_header msg_type sequence_num payload_size) c)
  = FT_SUCCESS.
Proof.
  intros Ht. unfold protocol_validate_header, with_checksum, protocol_init_header.
  cbn [MessageHeader.magic MessageHeader.version MessageHeader.msg_type].
  unfold u8. rewrite Z.mod_small by (destruct Ht; lia).
  unfold known_msg_type, FT_MAGIC_NUMBER, FT_PROTOCOL_VERSION,
    MSG_HANDSHAKE_REQ, MSG_VERIFY_RESPONSE, MSG_ERROR in *.
  rewrite !Z.eqb_refl. simpl negb. cbv iota.
  destruct (Z.ltb_spec msg_type 1); [lia|].
  destruct (Z.gtb_spec msg_type 9); destruct (Z.eqb_spec msg_type 255);
    simpl; try done; lia.
Qed.

Lemma recv_message_bytes `{Host} buf max w msg_type sequence_num payload hb rest :
  known_msg_type msg_type -> is_u64 sequence_num ->
  length hb = 32%nat -> Z.of_nat (length payload) <= max ->
  is_u64 (Z.of_nat (length payload)) ->
  rx w = map RxByte (message_bytes msg_type sequence_num payload hb) ++ rest ->
  exists c,
    recv_message buf max w =
    (Ok (with_checksum
           (protocol_init_header msg_type sequence_num (Z.of_nat (length payload))) c,
         buf_write 0 payload buf),
     set_rx rest w).
Proof.
  intros Ht Hseq Hhb Hmax Hlen Hrx.
  rewrite message_bytes_split in Hrx.
  eexists.
  unfold recv_message. unfold bind at 1.
  rewrite (socket_recv_all_bytes _ _ _ w Hrx)
    by (by rewrite length_serialize_header).
  rewrite valid_init_header; [| destruct Ht; unfold is_u8; lia | done..].
  rewrite validate_init_header by done.
  change (negb (bool_decide (FT_SUCCESS = FT_SUCCESS))) with false. cbv iota.
  cbn [with_checksum protocol_init_header MessageHeader.payload_size].
  destruct (Z.gtb_spec (Z.of_nat (length payload)) 0) as [Hpos|Hzero].
  - destruct (Z.gtb_spec (Z.of_nat (length payload)) max); [lia|].
    unfold bind.
    rewrite (socket_recv_all_bytes _ payload rest) by done.
    reflexivity.
  - assert (payload = []) as -> by (destruct payload; [done | simpl in *; lia]).
    reflexivity.
Qed.

Lemma buf_read_be_bytes_app n x tail_bytes :
  buf_read 0 n (be_bytes n x ++ tail_bytes) = be_bytes n x.
Proof.
  unfold buf_read. rewrite drop_0.
  rewrite take_app_length'; [done|]. by rewrite length_be_bytes.
Qed.

Lemma recv_chunk_ack_message `{Host} w ack_id status sequence_num hb rest :
  is_u64 ack_id -> is_u64 sequence_num -> length hb = 32%nat ->
  rx w = map RxByte
           (message_bytes MSG_CHUNK_ACK sequence_num
              (chunk_ack_payload ack_id status) hb) ++ rest ->
  recv_chunk_ack w =
  (Ok {| ChunkAck.chunk_id := ack_id; ChunkAck.status := status |}, set_rx rest w).
Proof.
  intros Hid Hseq Hhb Hrx. unfold recv_chunk_ack, bind, uninit.
  assert (length (chunk_ack_payload ack_id status) = 12%nat) as Hplen.
  { unfold chunk_ack_payload. rewrite length_app, length_be_bytes. done. }
  destruct (recv_message_bytes (uninit_bytes 16 w) 16 w MSG_CHUNK_ACK
              sequence_num (chunk_ack_payload ack_id status) hb rest)
    as (c & ->);
    [ left; by vm_compute | done | done | rewrite Hplen; lia
    | rewrite Hplen; by vm_compute | done | ].
  cbn [with_checksum protocol_init_header MessageHeader.msg_type].
  change (negb (u8 MSG_CHUNK_ACK =? MSG_CHUNK_ACK)) with false. cbv iota.
  unfold ret. f_equal. f_equal.
  assert (length (uninit_bytes 16 w) = 16%nat) as Hj by apply length_uninit_bytes.
  assert (buf_write 0 (chunk_ack_payload ack_id status) (uninit_bytes 16 w)
          = be_bytes 8 ack_id
            ++ ([status; 0; 0; 0]
                ++ drop (length (chunk_ack_payload ack_id status))
                     (uninit_bytes 16 w))) as ->.
  { unfold buf_write, chunk_ack_payload. rewrite take_0, app_nil_l.
    rewrite <- app_assoc. reflexivity. }
  f_equal.
  unfold load64. rewrite buf_read_be_bytes_app.
  rewrite ntohll_native_val by (apply length_be_bytes || apply be_bytes_is_byte).
  rewrite be_val_be_bytes. apply Z.mod_small. exact Hid.
Qed.

(** * The sender *)

Lemma send_chunk_ok `{Host} chunk_id chunk_offset data sequence_num w :
  tx_script w = [] ->
  send_chunk chunk_id chunk_offset data (Z.of_nat (length data)) sequence_num w =
  (Ok tt,
   set_tx []
     (tx_log w
      ++ Sent (protocol_serialize_header
                 (protocol_init_header MSG_CHUNK_DATA sequence_num
                    (24 + Z.of_nat (length data))) (uninit_bytes 32 w))
         :: Sent (protocol_serialize_chunk_header
                    {| ChunkHeader.chunk_id := chunk_id;
                       ChunkHeader.chunk_offset := chunk_offset;
                       ChunkHeader.chunk_size := u32 (Z.of_nat (length data));
                       ChunkHeader.chunk_crc32 := crc32_compute data |}
                    (uninit_bytes 24 w))
         :: sent_data data)
     (set_history (history w ++ [CallSendChunk chunk_id]) w)).
Proof.
  intros Htx. unfold send_chunk, bind, record_call, uninit.
  rewrite Nat2Z.id, firstn_all.
  rewrite socket_send_all_ok;
    [| done | apply length_serialize_nonempty, length_uninit_bytes].
  rewrite socket_send_all_ok; [| done |].
  2:{ intros Heq. apply (f_equal length) in Heq.
      rewrite length_serialize_chunk_header in Heq by apply length_uninit_bytes.
      done. }
  destruct data as [|b data].
  - simpl. by rewrite <- app_assoc.
  - rewrite socket_send_all_ok by done. simpl. by rewrite <- !app_assoc.
Qed.

(** C7 (amended): a read that returns fewer bytes than the expected chunk
    size, but at least one byte, does not fail the transfer, whether the
    source shrank or the read stopped on an error. Provided the seek to
    the chunk offset succeeded, which needs an offset below 2^63, and the
    sends succeed, the sender sends a chunk of exactly the bytes read: the
    message header announces 24 + bytes_read, the chunk header bytes_read
    and their CRC-32, and on an ack with status 0 the chunk counts as sent
    and the loop goes on. *)
Theorem sender_sends_the_bytes_read `{Host}
    (file_info : FileInfo) (chunk_id : Z) (st : SendState) (w : World)
    (ack_id ack_seq : Z) (ahb : list Z) (rest : list rx_item) :
  let chunk_offset := u64 (chunk_id * FileInfo.chunk_size file_info) in
  let bytes_to_read :=
    if u64 (chunk_offset + FileInfo.chunk_size file_info)
       >? FileInfo.file_size file_info
    then u64 (FileInfo.file_size file_info - chunk_offset)
    else FileInfo.chunk_size file_info in
  let data := fread_delivers chunk_offset bytes_to_read w in
  seek_succeeds chunk_offset w -> data <> [] -> tx_script w = [] ->
  is_u64 ack_id -> is_u64 ack_seq -> length ahb = 32%nat ->
  rx w = map RxByte
           (message_bytes MSG_CHUNK_ACK ack_seq (chunk_ack_payload ack_id 0) ahb)
         ++ rest ->
  exists st' w',
    send_file_chunk file_info chunk_id st w = (Some (Continue st'), w') /\
    s_sent_chunks st' = u64 (s_sent_chunks st + 1) /\
    s_sent_bytes st' = u64 (s_sent_bytes st + Z.of_nat (length data)) /\
    tx_log w' =
      tx_log w
      ++ Sent (protocol_serialize_header
                 (protocol_init_header MSG_CHUNK_DATA (s_sequence_num st)
                    (24 + Z.of_nat (length data))) (uninit_bytes 32 w))
         :: Sent (protocol_serialize_chunk_header
                    {| ChunkHeader.chunk_id := chunk_id;
                       ChunkHeader.chunk_offset := chunk_offset;
                       ChunkHeader.chunk_size := u32 (Z.of_nat (length data));
                       ChunkHeader.chunk_crc32 := crc32_compute data |}
                    (uninit_bytes 24 w))
         :: sent_data data.
Proof.
  intros chunk_offset bytes_to_read data [Hoff Hseek] Hdata Htx Hid Hseq Hahb Hrx.
  assert (file_read_chunk chunk_offset bytes_to_read w =
          (Ok data, set_read_script (tail (read_script w)) w)) as Hread.
  { unfold file_read_chunk.
    destruct (Z.leb_spec (2 ^ 63) chunk_offset); [lia|].
    subst data. unfold fread_delivers in *.
    destruct (read_script w) as [|[| |delivered] script] eqn:Hs;
      cbn [src_data set_read_script]; try reflexivity.
    - by destruct (Hseek script).
    - rewrite take_take in Hdata. rewrite take_take.
      destruct (take _ _) as [|b l]; [done|reflexivity]. }
  unfold send_file_chunk. fold chunk_offset. fold bytes_to_read.
  rewrite Hread.
  change (Z.to_nat FT_MAX_RETRIES) with 3%nat.
  cbn [send_chunk_retry].
  change (0 <? FT_MAX_RETRIES) with true. cbv iota.
  rewrite send_chunk_ok by done.
  erewrite recv_chunk_ack_message; [| exact Hid | exact Hseq | exact Hahb | exact Hrx].
  cbn [ChunkAck.status]. simpl negb. cbv iota.
  eexists _, _. split; [reflexivity|].
  cbn [s_sent_chunks s_sent_bytes tx_log set_rx set_tx set_history set_read_script].
  repeat split; reflexivity.
Qed.

(** C6: with the default chunk size and a file size within [off_t],
    total_chunks is the ceiling of file_size / chunk_size; for an empty
    file it is 0, and once the server has answered FILE_ACK the transfer
    succeeds without anything more being sent. *)
Theorem total_chunks_is_ceiling `{Host} (metadata : FileMetadata) :
  0 <= m_file_size metadata < 2 ^ 63 ->
  let file_info := prepare_file_info metadata in
  FileInfo.chunk_size file_info = FT_DEFAULT_CHUNK_SIZE /\
  FileInfo.chunk_size file_info * (FileInfo.total_chunks file_info - 1)
    < m_file_size metadata
    <= FileInfo.chunk_size file_info * FileInfo.total_chunks file_info /\
  (m_file_size metadata = 0 ->
   FileInfo.total_chunks file_info = 0 /\
   forall filepath w w1 sequence_num w2,
     send_file_open filepath w = (Ok metadata, w1) ->
     send_file_begin file_info w1 = (Ok sequence_num, w2) ->
     send_file filepath w = (Some 0, w2)).
Proof.
  intros Hsize file_info. subst file_info.
  unfold prepare_file_info.
  cbn [FileInfo.chunk_size FileInfo.total_chunks].
  unfold FT_DEFAULT_CHUNK_SIZE.
  assert (u64 (m_file_size metadata + 524288 - 1) = m_file_size metadata + 524287)
    as Hu.
  { unfold u64. rewrite Z.mod_small; lia. }
  rewrite Hu.
  pose proof (Z.div_mod (m_file_size metadata + 524287) 524288 ltac:(lia)) as Hdm.
  pose proof (Z.mod_pos_bound (m_file_size metadata + 524287) 524288 ltac:(lia))
    as Hmod.
  split; [done|]. split; [lia|].
  intros Hzero. rewrite Hzero in *.
  assert ((0 + 524287) / 524288 = 0) as Htot by (by vm_compute).
  split; [exact Htot|].
  intros filepath w w1 seq w2 Hopen Hbegin.
  unfold send_file. rewrite Hopen.
  unfold prepare_file_info, FT_DEFAULT_CHUNK_SIZE in *.
  rewrite Hzero in *. rewrite Hu in *. rewrite Hbegin.
  cbn [FileInfo.total_chunks]. rewrite Htot. reflexivity.
Qed.

(** * The claims on concrete sessions *)

(** C1, as stated, fails: the receiver has accepted no chunk, the first
    CHUNK_DATA message carries chunk_id 5, and it is written, acknowledged
    with status 0 and the transfer completes. *)
Lemma chunk_five_accepted_first :
  fst chunk_five_first = Some 0 /\
  history (snd chunk_five_first) = [CallSendChunkAck 5 0] /\
  fs (snd chunk_five_first) !! bytes_of_string "out/a.txt" = Some [1; 2; 3].
Proof. vm_compute. repeat split; reflexivity. Qed.

(** C2 at the failing input: every chunk arrives, [rename] fails,
    [receive_file] returns -1 and the temp file is still there. *)
Lemma temp_file_left_after_failed_rename :
  fst rename_fails = Some (-1) /\
  fs (snd rename_fails) !! bytes_of_string "out/.a.txt.tmp" = Some [1; 2; 3] /\
  fs (snd rename_fails) !! bytes_of_string "out/a.txt" = None.
Proof. vm_compute. repeat split; reflexivity. Qed.

(** C4 at the failing input: the stored header CRC no longer matches the
    first 24 bytes, yet [recv_message] succeeds and reads a payload of the
    damaged length 3, leaving the fourth payload byte in the stream. *)
Lemma damaged_length_accepted :
  crc32_compute (take 24 damaged_length_header)
    <> read_u32_be damaged_length_header 24 /\
  fst damaged_length_received =
    Ok ({| MessageHeader.magic := FT_MAGIC_NUMBER;
           MessageHeader.version := FT_PROTOCOL_VERSION;
           MessageHeader.msg_type := MSG_HANDSHAKE_REQ;
           MessageHeader.flags := 0;
           MessageHeader.sequence_num := 0;
           MessageHeader.payload_size := 3;
           MessageHeader.checksum := read_u32_be damaged_length_header 24;
           MessageHeader.reserved := 0 |}, [1; 0; 0; 0]) /\
  rx (snd damaged_length_received) = [RxByte 0].
Proof. vm_compute. repeat split; (reflexivity || discriminate). Qed.

(** C5 at the failing input: the declared filename "c:\boot.ini" begins
    with a drive prefix, yet [file_sanitize_filename] does not return
    FT_ERR_INVALID_ARG, because its check for absolute paths compares the
    drive letter with 'A'..'Z' only; the receiver creates a file for the
    transfer, under the name "c_boot.ini", and returns 0. *)
Lemma lower_case_drive_prefix_accepted :
  fst (file_sanitize_filename (bytes_of_string "c:\boot.ini" ++ [0]) 256)
    <> FT_ERR_INVALID_ARG /\
  fst lower_case_drive = Some 0 /\
  fs (snd lower_case_drive) !! bytes_of_string "out/c_boot.ini" = Some [].
Proof. vm_compute. repeat split; (reflexivity || discriminate). Qed.

(** C7, as stated, fails: the read returns 4 bytes where 10 were expected,
    and the sender sends them as a chunk and reports success. *)
Lemma short_chunk_sent_after_shrink :
  fst source_shrank = Some 0 /\
  history (snd source_shrank) = [CallSendChunk 0] /\
  last (tx_log (snd source_shrank)) = Some (Sent [7; 7; 7; 7]).
Proof. vm_compute. repeat split; reflexivity. Qed.


(** ** Witnesses *)

(** Closed side conditions: evaluate, then compare. *)
Ltac by_evaluation :=
  vm_compute; repeat split; first [reflexivity | congruence].

Lemma receive_file_rejects_escaping_name_witness :
  fst (file_sanitize_filename (FileInfo.filename parent_directory_file_info)
         (Z.of_nat FT_MAX_FILENAME_LEN)) = FT_ERR_INVALID_ARG /\
  fst (@receive_file little_endian_host (bytes_of_string "out")
         parent_directory_name) = Some (-1) /\
  fs (snd (@receive_file little_endian_host (bytes_of_string "out")
             parent_directory_name)) = fs parent_directory_name.
Proof.
  apply (@receive_file_rejects_escaping_name little_endian_host
           (bytes_of_string "out") parent_directory_name
           (snd parent_directory_prelude) parent_directory_file_info).
  - vm_compute. reflexivity.
  - left. exists [], (bytes_of_string "/etc/passwd"). vm_compute. reflexivity.
Defined.

Lemma total_chunks_is_ceiling_witness :
  0 <= m_file_size metadata_700000 < 2 ^ 63 /\
  FileInfo.total_chunks (prepare_file_info metadata_700000) = 2 /\
  FileInfo.chunk_size (prepare_file_info metadata_700000)
    * (FileInfo.total_chunks (prepare_file_info metadata_700000) - 1)
    < m_file_size metadata_700000
    <= FileInfo.chunk_size (prepare_file_info metadata_700000)
       * FileInfo.total_chunks (prepare_file_info metadata_700000).
Proof.
  assert (0 <= m_file_size metadata_700000 < 2 ^ 63) as Hsize
    by by_evaluation.
  split; [exact Hsize|]. split; [reflexivity|].
  exact (proj1 (proj2 (@total_chunks_is_ceiling little_endian_host
                         metadata_700000 Hsize))).
Defined.

Lemma sender_sends_the_bytes_read_witness :
  exists st' w',
    @send_file_chunk little_endian_host ten_byte_file 0 (mkSendState 3 0 0)
      read_error_world = (Some (Continue st'), w') /\
    s_sent_bytes st' = 2 /\
    last (tx_log w') = Some (Sent [7; 7]).
Proof.
  destruct (@sender_sends_the_bytes_read little_endian_host ten_byte_file 0
              (mkSendState 3 0 0) read_error_world 0 3 (replicate 32 0) [])
    as (st' & w' & Hrun & _ & Hbytes & Hlog);
    [ split; [by_evaluation | discriminate] | by_evaluation..|].
  exists st', w'. split; [exact Hrun|]. split; [rewrite Hbytes; reflexivity|].
  rewrite Hlog. reflexivity.
Defined.

(** * Reading from the socket *)

Lemma recv_items_ok n items bs items' :
  recv_items n items = (Ok bs, items') ->
  length bs = n /\ items = map RxByte bs ++ items'.
Proof.
  revert items bs items'. induction n as [|n IH]; intros items bs items'; simpl.
  - intros [= <- <-]. done.
  - destruct items as [|[b|fatal] items]; try done.
    destruct (recv_items n items) as [[bs1|e] items1] eqn:Hrec; [|done].
    intros [= <- <-]. apply IH in Hrec as [Hlen ->]. simpl. by rewrite Hlen.
Qed.

Lemma recv_items_shrinks n items r items' :
  recv_items n items = (r, items') -> (length items' <= length items)%nat.
Proof.
  revert items r items'. induction n as [|n IH]; intros items r items'; simpl.
  - intros [= _ <-]. done.
  - destruct items as [|[b|fatal] items].
    + intros [= _ <-]. done.
    + destruct (recv_items n items) as [[bs1|e] items1] eqn:Hrec;
        intros [= _ <-]; apply IH in Hrec; simpl; lia.
    + intros [= _ <-]. simpl. lia.
Qed.

Lemma recv_items_error n items e items' :
  recv_items n items = (Err e, items') -> e = FT_ERR_RECV \/ e = FT_ERR_TIMEOUT.
Proof.
  revert items e items'. induction n as [|n IH]; intros items e items'; simpl.
  - done.
  - destruct items as [|[b|fatal] items].
    + intros [= <- _]. by left.
    + destruct (recv_items n items) as [[bs1|e1] items1] eqn:Hrec; [done|].
      intros [= <- _]. eauto.
    + intros [= <- _]. destruct fatal; eauto.
Qed.

Lemma socket_recv_all_ok n w bs w' :
  socket_recv_all n w = (Ok bs, w') ->
  length bs = Z.to_nat n /\ rx w = map RxByte bs ++ rx w'.
Proof.
  unfold socket_recv_all.
  destruct (recv_items (Z.to_nat n) (rx w)) as [r items] eqn:Hrec.
  intros [= -> <-]. by apply recv_items_ok in Hrec.
Qed.

Lemma socket_recv_all_error n w e w' :
  socket_recv_all n w = (Err e, w') -> e = FT_ERR_RECV \/ e = FT_ERR_TIMEOUT.
Proof.
  unfold socket_recv_all.
  destruct (recv_items (Z.to_nat n) (rx w)) as [r items] eqn:Hrec.
  intros [= -> _]. by apply recv_items_error in Hrec.
Qed.

Lemma socket_recv_all_shrinks n w r w' :
  socket_recv_all n w = (r, w') -> (length (rx w') <= length (rx w))%nat.
Proof.
  unfold socket_recv_all.
  destruct (recv_items (Z.to_nat n) (rx w)) as [r1 items] eqn:Hrec.
  intros [= _ <-]. simpl. by apply recv_items_shrinks in Hrec.
Qed.

(** X2: when [recv_message] succeeds, the header it returns passed
    validation, a positive payload_size is at most max_payload_size, and
    exactly 32 + payload_size bytes were taken from the stream: the header
    bytes, then the payload bytes now at the start of the payload buffer. *)
Theorem recv_message_reads_one_frame `{Host}
    (payload : list Z) (max_payload_size : Z) (w w' : World)
    (header : MessageHeader) (payload' : list Z) :
  recv_message payload max_payload_size w = (Ok (header, payload'), w') ->
  protocol_validate_header header = FT_SUCCESS /\
  (0 < MessageHeader.payload_size header ->
   MessageHeader.payload_size header <= max_payload_size) /\
  exists header_buf bytes,
    rx w = map RxByte (header_buf ++ bytes) ++ rx w' /\
    length header_buf = 32%nat /\
    length bytes = Z.to_nat (MessageHeader.payload_size header) /\
    header = protocol_deserialize_header header_buf /\
    payload' = buf_write 0 bytes payload.
Proof.
  unfold recv_message, bind.
  destruct (socket_recv_all (Z.of_nat FT_HEADER_SIZE) w) as [[hb|e] w1] eqn:Hh;
    [|done].
  apply socket_recv_all_ok in Hh as [Hhlen Hhrx].
  destruct (bool_decide (protocol_validate_header (protocol_deserialize_header hb)
                         = FT_SUCCESS)) eqn:Hval; [|done].
  apply bool_decide_eq_true in Hval. cbv beta iota delta [negb].
  destruct (Z.gtb_spec (MessageHeader.payload_size (protocol_deserialize_header hb)) 0)
    as [Hpos|Hnonpos].
  - destruct (Z.gtb_spec (MessageHeader.payload_size (protocol_deserialize_header hb))
                max_payload_size) as [|Hle]; [done|].
    destruct (socket_recv_all
                (MessageHeader.payload_size (protocol_deserialize_header hb)) w1)
      as [[bs|e] w2] eqn:Hp; [|done].
    apply socket_recv_all_ok in Hp as [Hplen Hprx].
    intros [= <- <- <-]. split; [done|]. split; [done|].
    exists hb, bs. rewrite Hhrx, Hprx, map_app, <- app_assoc. done.
  - intros [= <- <- <-]. split; [done|]. split; [lia|].
    exists hb, []. rewrite app_nil_r.
    rewrite Z2Nat.nonpos by lia. done.
Qed.

(** X3: the data [recv_chunk] hands to its caller have the length its chunk
    header announces, which is at most max_data_size, and the CRC-32 the
    header announces; on a checksum failure the header returned is the one
    received, the whole message has been read, and the CRC announced
    differs from that of the data read. *)
Theorem recv_chunk_checked `{Host} (chunk_hdr0 : ChunkHeader) (max_data_size : Z)
    (w w' : World) (r : result (list Z)) (chunk_hdr : ChunkHeader) :
  recv_chunk chunk_hdr0 max_data_size w = (r, chunk_hdr, w') ->
  match r with
  | Ok data =>
    length data = Z.to_nat (ChunkHeader.chunk_size chunk_hdr) /\
    ChunkHeader.chunk_size chunk_hdr <= max_data_size /\
    crc32_compute data = ChunkHeader.chunk_crc32 chunk_hdr
  | Err e =>
    e = FT_ERR_CHECKSUM ->
    exists msg_hdr_buf chunk_hdr_buf data,
      rx w = map RxByte (msg_hdr_buf ++ chunk_hdr_buf ++ data) ++ rx w' /\
      length msg_hdr_buf = 32%nat /\ length chunk_hdr_buf = 24%nat /\
      chunk_hdr = protocol_deserialize_chunk_header chunk_hdr_buf /\
      length data = Z.to_nat (ChunkHeader.chunk_size chunk_hdr) /\
      crc32_compute data <> ChunkHeader.chunk_crc32 chunk_hdr
  end.
Proof.
  unfold recv_chunk.
  destruct (socket_recv_all (Z.of_nat FT_HEADER_SIZE) w) as [[hb|e] w1] eqn:Hh.
  2:{ intros [= <- <- <-]. intros ->.
      apply socket_recv_all_error in Hh. destruct Hh; done. }
  apply socket_recv_all_ok in Hh as [Hhlen Hhrx].
  destruct (negb (bool_decide _)); [by intros [= <- <- <-]|].
  destruct (negb (_ =? MSG_CHUNK_DATA)); [by intros [= <- <- <-]|].
  destruct (socket_recv_all (Z.of_nat FT_CHUNK_HEADER_SIZE) w1)
    as [[cb|e] w2] eqn:Hc.
  2:{ intros [= <- <- <-]. intros ->.
      apply socket_recv_all_error in Hc. destruct Hc; done. }
  apply socket_recv_all_ok in Hc as [Hclen Hcrx].
  destruct (Z.gtb_spec (ChunkHeader.chunk_size (protocol_deserialize_chunk_header cb))
              max_data_size) as [|Hle]; [by intros [= <- <- <-]|].
  destruct (socket_recv_all
              (ChunkHeader.chunk_size (protocol_deserialize_chunk_header cb)) w2)
    as [[data|e] w3] eqn:Hd.
  2:{ intros [= <- <- <-]. intros ->.
      apply socket_recv_all_error in Hd. destruct Hd; done. }
  apply socket_recv_all_ok in Hd as [Hdlen Hdrx].
  destruct (Z.eqb_spec (crc32_compute data)
              (ChunkHeader.chunk_crc32 (protocol_deserialize_chunk_header cb)))
    as [Heq|Hne]; simpl negb; cbv iota; intros [= <- <- <-].
  - done.
  - intros _. exists hb, cb, data.
    rewrite Hhrx, Hcrx, Hdrx, !map_app, <- !app_assoc. done.
Qed.

Lemma recv_message_reads_one_frame_witness :
  protocol_validate_header handshake_received_header = FT_SUCCESS /\
  (0 < MessageHeader.payload_size handshake_received_header ->
   MessageHeader.payload_size handshake_received_header <= 4).
Proof.
  assert (@recv_message little_endian_host [0; 0; 0; 0] 4 handshake_world
          = (Ok (handshake_received_header, [1; 0; 0; 0]), snd handshake_received))
    as Hrun by (vm_compute; reflexivity).
  pose proof (@recv_message_reads_one_frame little_endian_host _ _ _ _ _ _ Hrun)
    as (Hval & Hle & _).
  split; [exact Hval | exact Hle].
Defined.

Lemma recv_chunk_checked_witness :
  ChunkHeader.chunk_size (snd (fst chunk_five_received)) <= 4 /\
  crc32_compute [1; 2; 3] = ChunkHeader.chunk_crc32 (snd (fst chunk_five_received)).
Proof.
  assert (@recv_chunk little_endian_host (ChunkHeader.mk 0 0 0 0) 4 chunk_five_world
          = (Ok [1; 2; 3], snd (fst chunk_five_received), snd chunk_five_received))
    as Hrun by (vm_compute; reflexivity).
  pose proof (@recv_chunk_checked little_endian_host _ _ _ _ _ _ Hrun)
    as (_ & Hle & Hcrc).
  split; [exact Hle | exact Hcrc].
Defined.

(** * The sanitized name *)

Lemma char_allowed_plain c : char_allowed c = true <-> plain_char c.
Proof.
  unfold char_allowed, plain_char.
  change (chr "a") with 97. change (chr "z") with 122.
  change (chr "A") with 65. change (chr "Z") with 90.
  change (chr "0") with 48. change (chr "9") with 57.
  change (chr "-") with 45. change (chr "_") with 95. change (chr ".") with 46.
  rewrite !orb_true_iff, !andb_true_iff, !Z.leb_le, !Z.eqb_eq. tauto.
Qed.

Lemma sanitize_copy_plain filename size :
  forall sanitized,
  Forall plain_char sanitized ->
  Forall plain_char (sanitize_copy filename size sanitized) /\
  Z.of_nat (length (sanitize_copy filename size sanitized))
    <= Z.max (Z.of_nat (length sanitized)) (size - 1).
Proof.
  induction filename as [|c rest IH]; intros sanitized Hs; simpl.
  - split; [done|lia].
  - destruct (negb (c =? 0)); simpl; [|split; [done|lia]].
    destruct (Z.ltb_spec (Z.of_nat (length sanitized)) (size - 1)) as [Hlt|Hge];
      [|split; [done|lia]].
    destruct (char_allowed c) eqn:Hc.
    + apply char_allowed_plain in Hc.
      destruct (IH (sanitized ++ [c])) as [Hp Hl].
      { apply Forall_app. split; [done|]. by constructor. }
      split; [done|]. rewrite length_app in Hl. simpl in Hl. lia.
    + destruct ((c =? chr "/") || (c =? chr "\")).
      * destruct (IH (sanitized ++ [chr "_"])) as [Hp Hl].
        { apply Forall_app. split; [done|]. constructor; [|done].
          unfold plain_char. change (chr "_") with 95. lia. }
        split; [done|]. rewrite length_app in Hl. simpl in Hl. lia.
      * destruct (IH sanitized Hs) as [Hp Hl]. split; [done|lia].
Qed.

(** X4: a name that [file_sanitize_filename] accepts is not empty, is
    shorter than [size], and is made of letters, digits, '.', '-' and '_'
    only: it holds no path separator, no colon and no NUL. *)
Theorem file_sanitize_filename_result (filename : list Z) (size : Z)
    (sanitized : list Z) :
  file_sanitize_filename filename size = (FT_SUCCESS, sanitized) ->
  sanitized <> [] /\
  Z.of_nat (length sanitized) < size /\
  Forall plain_char sanitized /\
  Forall (fun c => c <> chr "/" /\ c <> chr "\" /\ c <> chr ":" /\ c <> 0) sanitized.
Proof.
  unfold file_sanitize_filename. cbv zeta.
  destruct (Z.eqb_spec size 0) as [|Hsize]; [done|].
  destruct (strstr_dotdot filename); [done|].
  destruct (_ || _); [done|].
  pose proof (sanitize_copy_plain filename size [] (List.Forall_nil _)) as [Hp Hl].
  destruct (length (sanitize_copy filename size []) =? 0)%nat eqn:Hlen; [done|].
  intros [= Heq]. subst sanitized. apply Nat.eqb_neq in Hlen.
  split; [intros Hnil; by rewrite Hnil in Hlen|]. split.
  - simpl in Hl. lia.
  - split; [done|].
    eapply Forall_impl; [exact Hp|]. intros c Hc. unfold plain_char in Hc.
    change (chr "/") with 47. change (chr "\") with 92. change (chr ":") with 58.
    lia.
Qed.

Lemma file_sanitize_filename_result_witness :
  Z.of_nat (length (bytes_of_string "c_boot.ini")) < 256 /\
  Forall plain_char (bytes_of_string "c_boot.ini").
Proof.
  destruct (file_sanitize_filename_result
              (bytes_of_string "c:\boot.ini" ++ [0]) 256
              (bytes_of_string "c_boot.ini") eq_refl) as (_ & Hlen & Hp & _).
  split; [exact Hlen | exact Hp].
Defined.

(** * Each turn of the chunk loop takes a message *)

Lemma rx_socket_send_all buffer : preserves rx (socket_send_all buffer).
Proof.
  intros w r w'. unfold socket_send_all.
  destruct buffer; [by intros [= _ <-]|].
  destruct (tx_script w) as [|[|fatal] s]; by intros [= _ <-].
Qed.

Lemma rx_record_call c : preserves rx (record_call c).
Proof. by intros w r w' [= _ <-]. Qed.

#[local] Hint Resolve rx_socket_send_all rx_record_call : preserves.

Lemma rx_send_message `{Host} t s p n : preserves rx (send_message t s p n).
Proof. unfold send_message. preserves_tac. Qed.

#[local] Hint Resolve rx_send_message : preserves.

Lemma rx_send_chunk_ack `{Host} c st s : preserves rx (send_chunk_ack c st s).
Proof. unfold send_chunk_ack. preserves_tac. Qed.

Lemma rx_send_error `{Host} e c m s : preserves rx (send_error e c m s).
Proof. unfold send_error. preserves_tac. Qed.

Lemma rx_file_write_chunk file offset buffer n :
  preserves rx (file_write_chunk file offset buffer n).
Proof.
  intros w r w'. unfold file_write_chunk.
  destruct (2 ^ 63 <=? offset); [by intros [= _ <-]|].
  destruct (match write_script w with [] => WriteOk | o :: _ => o end);
    by intros [= _ <-].
Qed.

(** [recv_chunk] has read the two headers and the data when it returns
    them or complains about the checksum. *)
Lemma recv_chunk_whole_message `{Host} chunk_hdr0 max w r chunk_hdr w' :
  recv_chunk chunk_hdr0 max w = (r, chunk_hdr, w') ->
  (exists e, r = Err e /\ e <> FT_ERR_CHECKSUM) \/
  (exists headers data,
     rx w = map RxByte (headers ++ data) ++ rx w' /\
     length headers = 56%nat /\
     (length data <= Z.to_nat max)%nat).
Proof.
  unfold recv_chunk.
  destruct (socket_recv_all (Z.of_nat FT_HEADER_SIZE) w) as [[hb|e] w1] eqn:Hh.
  2:{ intros [= <- <- <-]. left. exists e. split; [done|].
      apply socket_recv_all_error in Hh. destruct Hh; by subst. }
  apply socket_recv_all_ok in Hh as [Hhlen Hhrx].
  destruct (negb (bool_decide _)); [intros [= <- <- <-]; left; eexists; done|].
  destruct (negb (_ =? MSG_CHUNK_DATA)); [intros [= <- <- <-]; left; eexists; done|].
  destruct (socket_recv_all (Z.of_nat FT_CHUNK_HEADER_SIZE) w1)
    as [[cb|e] w2] eqn:Hc.
  2:{ intros [= <- <- <-]. left. exists e. split; [done|].
      apply socket_recv_all_error in Hc. destruct Hc; by subst. }
  apply socket_recv_all_ok in Hc as [Hclen Hcrx].
  destruct (Z.gtb_spec (ChunkHeader.chunk_size (protocol_deserialize_chunk_header cb))
              max) as [|Hle]; [intros [= <- <- <-]; left; eexists; done|].
  destruct (socket_recv_all
              (ChunkHeader.chunk_size (protocol_deserialize_chunk_header cb)) w2)
    as [[data|e] w3] eqn:Hd.
  2:{ intros [= <- <- <-]. left. exists e. split; [done|].
      apply socket_recv_all_error in Hd. destruct Hd; by subst. }
  apply socket_recv_all_ok in Hd as [Hdlen Hdrx].
  assert (rx w = map RxByte ((hb ++ cb) ++ data) ++ rx w3) as Hrx.
  { rewrite Hhrx, Hcrx, Hdrx, !map_app, <- !app_assoc. done. }
  assert (length (hb ++ cb) = 56%nat) as Hlen.
  { rewrite length_app, Hhlen, Hclen. reflexivity. }
  destruct (negb _); intros [= <- <- <-]; right; exists (hb ++ cb), data;
    (split; [exact Hrx|split; [exact Hlen|lia]]).
Qed.



Lemma receive_chunk_step_progress `{Host} file file_info st w st' w' :
  receive_chunk_step file file_info st w = (Continue st', w') ->
  (length (rx w') < length (rx w))%nat.
Proof.
  unfold receive_chunk_step.
  destruct (recv_chunk _ _ w) as [[r chunk_hdr] w1] eqn:Hrecv.
  apply recv_chunk_whole_message in Hrecv.
  assert ((exists e, r = Err e /\ e <> FT_ERR_CHECKSUM) \/
          (length (rx w1) < length (rx w))%nat) as Hprog.
  { destruct Hrecv as [?|(headers & bytes & -> & Hlen & _)]; [by left|right].
    rewrite length_app, length_map, length_app. lia. }
  clear Hrecv.
  destruct r as [data|e].
  - destruct Hprog as [(e & [=] & _)|Hlt].
    destruct (file_write_chunk _ _ _ _ w1) as [[[]|e] w2] eqn:Hw; [|done].
    apply rx_file_write_chunk in Hw.
    destruct (send_chunk_ack _ _ _ w2) as [[[]|e] w3] eqn:Ha; [|done].
    apply rx_send_chunk_ack in Ha.
    intros [= _ <-]. rewrite Ha, Hw. exact Hlt.
  - destruct (bool_decide (e = FT_ERR_CHECKSUM)) eqn:He; [|done].
    apply bool_decide_eq_true in He. subst e.
    destruct Hprog as [(e & [= <-] & Hne)|Hlt]; [done|].
    destruct (send_chunk_ack _ _ _ w1) as [r2 w2] eqn:Ha.
    apply rx_send_chunk_ack in Ha. simpl.
    intros [= _ <-]. rewrite Ha. exact Hlt.
Qed.

Lemma receive_chunks_returns `{Host} file file_info :
  forall (fuel : nat) (st : RecvState) (w : World),
  (length (rx w) < fuel)%nat ->
  exists r w', receive_chunks fuel file file_info st w = (Some r, w').
Proof.
  induction fuel as [|fuel IH]; intros st w Hfuel; [lia|].
  cbn [receive_chunks].
  destruct (_ <? _); [|eauto].
  destruct (receive_chunk_step file file_info st w) as [[st'|] w'] eqn:Hstep;
    [|eauto].
  apply receive_chunk_step_progress in Hstep. apply IH. lia.
Qed.

(** The incoming stream of a world is finite: the peer sends these bytes
    and closes the connection, or a read fails. On such a stream
    [receive_file] returns, and the fuel that [receive_file_transfer] gives
    the loop is enough, since each turn that stays in the loop takes a
    message. Against a peer that never stops sending damaged chunks the
    loop of the program does not end; no world describes that peer. *)
Lemma receive_file_returns `{Host} (output_dir : list Z) (w : World) :
  exists result w',
    receive_file output_dir w = (Some result, w') /\ (result = 0 \/ result = -1).
Proof.
  unfold receive_file.
  destruct (receive_file_prepare output_dir w) as [[p|e] w1]; [|eauto].
  unfold receive_file_transfer.
  destruct (send_message _ _ _ _ w1) as [[[]|e] w2].
  2:{ unfold receive_file_cleanup. simpl. eauto. }
  destruct (negb (malloc_ok w2)).
  { unfold receive_file_cleanup. simpl. eauto. }
  destruct (receive_chunks_returns (p_file p) (p_file_info p)
              (S (length (rx w2))) (mkRecvState (u64 (p_sequence_num p + 1)) 0 0)
              w2 ltac:(lia)) as (r & w3 & ->).
  destruct r as [st|].
  - destruct (file_finalize_write _ _ w3) as [[] w4];
      unfold receive_file_cleanup; simpl; eauto.
  - unfold receive_file_cleanup. simpl. eauto.
Qed.

(** * The temp file and the final file *)

Lemma receive_file_transfer_open_file `{Host} output_dir p w result file w' :
  receive_file_transfer output_dir p w = (Some (result, Some file), w') ->
  result = -1.
Proof.
  unfold receive_file_transfer.
  destruct (send_message _ _ _ _ w) as [[[]|e] w1]; [|by intros [= <- _ _]].
  destruct (negb (malloc_ok w1)); [by intros [= <- _ _]|].
  destruct (receive_chunks _ _ _ _ w1) as [[[st|]|] w2]; try done.
  - destruct (file_finalize_write _ _ w2) as [[] w3]; done.
  - by intros [= <- _ _].
Qed.

(** X6: whenever [receive_file] reaches its cleanup with the temp file
    still open (FILE_ACK could not be sent, the chunk buffer could not be
    allocated, or the chunk loop gave up), it returns -1 and calls
    [file_delete] on the temp path, whose result it does not look at: when
    [remove] succeeds the temp path no longer exists, and when it fails
    the file system stays as the failure left it. *)
Theorem failure_with_open_file_calls_file_delete `{Host}
    (output_dir : list Z) (w w1 w2 : World) (p : Prepared)
    (result : Z) (file : list Z) :
  receive_file_prepare output_dir w = (Ok p, w1) ->
  receive_file_transfer output_dir p w1 = (Some (result, Some file), w2) ->
  receive_file output_dir w
    = (Some (-1), snd (file_delete (p_temp_path p) w2)) /\
  (remove_ok w2 = true ->
   fs (snd (receive_file output_dir w)) !! p_temp_path p = None) /\
  (remove_ok w2 = false -> snd (receive_file output_dir w) = w2).
Proof.
  intros Hprep Htrans.
  pose proof (receive_file_transfer_open_file _ _ _ _ _ _ Htrans) as ->.
  unfold receive_file. rewrite Hprep, Htrans.
  unfold receive_file_cleanup. simpl. split; [done|].
  unfold file_delete. split.
  - intros ->. destruct (fs w2 !! p_temp_path p) eqn:Hlook; simpl.
    + apply lookup_delete_eq.
    + done.
  - by intros ->.
Qed.

Lemma failure_with_open_file_calls_file_delete_witness :
  fst (@receive_file little_endian_host (bytes_of_string "out") malloc_fails_world)
    = Some (-1) /\
  fs (snd (@receive_file little_endian_host (bytes_of_string "out")
             malloc_fails_world))
    !! p_temp_path malloc_fails_p = None.
Proof.
  destruct (@failure_with_open_file_calls_file_delete little_endian_host
              (bytes_of_string "out") malloc_fails_world
              (snd malloc_fails_prepared)
              (snd (@receive_file_transfer little_endian_host
                      (bytes_of_string "out") malloc_fails_p
                      (snd malloc_fails_prepared)))
              malloc_fails_p (-1) (p_file malloc_fails_p))
    as (Hrun & Hgone & _).
  - vm_compute. reflexivity.
  - vm_compute. reflexivity.
  - split; [by rewrite Hrun|]. apply Hgone. vm_compute. reflexivity.
Defined.

Lemma receive_chunks_complete `{Host} file file_info :
  forall (fuel : nat) (st0 : RecvState) (w : World) (st : RecvState) (w' : World),
  receive_chunks fuel file file_info st0 w = (Some (Continue st), w') ->
  FileInfo.total_chunks file_info <= r_received_chunks st.
Proof.
  induction fuel as [|fuel IH]; intros st0 w st w'; cbn [receive_chunks].
  - destruct (Z.ltb_spec (r_received_chunks st0)
                (FileInfo.total_chunks file_info)); [done|].
    intros [= <- _]. lia.
  - destruct (Z.ltb_spec (r_received_chunks st0)
                (FileInfo.total_chunks file_info)).
    + destruct (receive_chunk_step _ _ st0 w) as [[st1|] w1]; [|done].
      apply IH.
    + intros [= <- _]. lia.
Qed.

(** X7: when [receive_file] returns 0, it has opened the temp file, sent
    FILE_ACK, and run the chunk loop until total_chunks chunks were
    accepted; what it leaves is the state at the end of the loop with the
    temp file renamed: the final path <output_dir>/<sanitized name> holds
    what the temp file held then and, the two paths being different, the
    temp path is gone. *)
Theorem success_publishes_the_temp_file `{Host}
    (output_dir : list Z) (w w' : World) :
  receive_file output_dir w = (Some 0, w') ->
  exists p w1 w2 st w3 content,
    receive_file_prepare output_dir w = (Ok p, w1) /\
    send_message MSG_FILE_ACK (p_sequence_num p) [0; 0; 0; 0] 4 w1 = (Ok tt, w2) /\
    receive_chunks (S (length (rx w2))) (p_file p) (p_file_info p)
      (mkRecvState (u64 (p_sequence_num p + 1)) 0 0) w2
      = (Some (Continue st), w3) /\
    FileInfo.total_chunks (p_file_info p) <= r_received_chunks st /\
    fs w3 !! p_temp_path p = Some content /\
    w' = set_fs (<[file_build_path output_dir (p_sanitized_name p) 1024 := content]>
                   (delete (p_temp_path p) (fs w3))) w3 /\
    fs w' !! file_build_path output_dir (p_sanitized_name p) 1024 = Some content /\
    (file_build_path output_dir (p_sanitized_name p) 1024 <> p_temp_path p ->
     fs w' !! p_temp_path p = None).
Proof.
  unfold receive_file.
  destruct (receive_file_prepare output_dir w) as [[p|e] w1] eqn:Hprep; [|done].
  destruct (receive_file_transfer output_dir p w1) as [[[result file]|] w2]
    eqn:Htrans; [|done].
  destruct file as [file|].
  { pose proof (receive_file_transfer_open_file _ _ _ _ _ _ Htrans) as ->.
    unfold receive_file_cleanup. simpl. done. }
  unfold receive_file_cleanup. intros [= -> <-].
  unfold receive_file_transfer in Htrans.
  destruct (send_message _ _ _ _ w1) as [[[]|e] w3] eqn:Hack; [|done].
  destruct (negb (malloc_ok w3)); [done|].
  destruct (receive_chunks _ _ _ _ w3) as [[[st|]|] w4] eqn:Hloop; try done.
  unfold file_finalize_write in Htrans.
  destruct (rename_ok w4); [|done].
  destruct (fs w4 !! p_temp_path p) as [content|] eqn:Htemp; [|done].
  injection Htrans as <-.
  exists p, w1, w3, st, w4, content.
  split; [done|]. split; [done|]. split; [exact Hloop|].
  split; [exact (receive_chunks_complete _ _ _ _ _ _ _ Hloop)|].
  split; [done|]. split; [done|]. split.
  - simpl. apply lookup_insert_eq.
  - intros Hne. simpl. rewrite lookup_insert_ne by done. apply lookup_delete_eq.
Qed.

Lemma success_publishes_the_temp_file_witness :
  exists p content,
    fs (snd chunk_five_first)
      !! file_build_path (bytes_of_string "out") (p_sanitized_name p) 1024
      = Some content.
Proof.
  destruct (@success_publishes_the_temp_file little_endian_host
              (bytes_of_string "out")
              (session
                 (handshake_request ++ file_info_message "a.txt" 3 1 4
                  ++ chunk_message 5 0 [1; 2; 3] (crc32_compute [1; 2; 3]) 3)
                 true 0 [])
              (snd chunk_five_first))
    as (p & w1 & w2 & st & w3 & content & _ & _ & _ & _ & _ & _ & Hfinal & _).
  - vm_compute. reflexivity.
  - exists p, content. exact Hfinal.
Defined.

(** * Wire formats *)

Lemma buf_read_all buf n : length buf = n -> buf_read 0 n buf = buf.
Proof. intros <-. unfold buf_read. by rewrite drop_0, firstn_all. Qed.

Lemma header_fields_written `{Host} h buffer :
  is_u64 (MessageHeader.sequence_num h) -> is_u64 (MessageHeader.payload_size h) ->
  length buffer = 32%nat ->
  take 24 (protocol_serialize_header h buffer) = header_fields h.
Proof.
  intros Hseq Hsize Hlen. rewrite take_24_serialize_header by done.
  change (take 24 ?b) with (buf_read 0 24 b).
  change 24%nat with (4 + (1 + (1 + (2 + (8 + 8)))))%nat.
  rewrite !buf_read_app by buf_len.
  unfold store8, store16, store32, store64. read_back.
  rewrite native_bytes_htonl, native_bytes_htons, !native_bytes_htonll by done.
  reflexivity.
Qed.

Lemma serialize_header_bytes `{Host} h buffer :
  wf_header h -> length buffer = 32%nat ->
  protocol_serialize_header h buffer =
  header_fields h
  ++ be_bytes 4 (crc32_compute (header_fields h))
  ++ be_bytes 4 (MessageHeader.reserved h).
Proof.
  intros (_ & _ & _ & _ & Hseq & Hsize & _ & _) Hlen.
  rewrite <- (buf_read_all (protocol_serialize_header h buffer) 32)
    by (by apply length_serialize_header).
  change 32%nat with (24 + (4 + 4))%nat.
  rewrite !buf_read_app by (rewrite length_serialize_header by done; lia).
  change (buf_read 0 24 ?b) with (take 24 b).
  rewrite stored_checksum by done.
  rewrite header_fields_written by done.
  do 2 f_equal.
  unfold protocol_serialize_header, store32. read_back.
  apply native_bytes_htonl.
Qed.

(** X8: the 32 bytes [protocol_serialize_header] produces are the fields in
    big-endian order, the checksum field being the CRC-32 of the 24 bytes
    before it. They depend neither on the byte order of the host nor on
    what the buffer held, so a host of the other byte order reads the same
    fields back. *)
Theorem header_wire_format (sender receiver : Host) (h : MessageHeader)
    (buffer : list Z) :
  wf_header h -> length buffer = 32%nat ->
  @protocol_serialize_header sender h buffer =
    header_fields h
    ++ be_bytes 4 (crc32_compute (header_fields h))
    ++ be_bytes 4 (MessageHeader.reserved h) /\
  @protocol_deserialize_header receiver (@protocol_serialize_header sender h buffer) =
    with_checksum h (crc32_compute (header_fields h)).
Proof.
  intros Hwf Hlen. split; [by apply serialize_header_bytes|].
  rewrite (@serialize_header_bytes sender) by done.
  rewrite <- (@serialize_header_bytes receiver h buffer) by done.
  rewrite (@deserialize_serialize_header receiver) by done.
  destruct Hwf as (_ & _ & _ & _ & Hseq & Hsize & _ & _).
  by rewrite header_fields_written.
Qed.

Lemma header_wire_format_witness :
  @protocol_deserialize_header big_endian_host
    (@protocol_serialize_header little_endian_host handshake_req_header
       (replicate 32 255)) =
  with_checksum handshake_req_header
    (crc32_compute (header_fields handshake_req_header)).
Proof.
  destruct (header_wire_format little_endian_host big_endian_host
              handshake_req_header (replicate 32 255)) as [_ Hback];
    [by_evaluation..|].
  exact Hback.
Defined.

Lemma serialize_chunk_header_bytes `{Host} c buffer :
  wf_chunk_header c -> length buffer = 24%nat ->
  protocol_serialize_chunk_header c buffer =
    be_bytes 8 (ChunkHeader.chunk_id c) ++ be_bytes 8 (ChunkHeader.chunk_offset c)
    ++ be_bytes 4 (ChunkHeader.chunk_size c) ++ be_bytes 4 (ChunkHeader.chunk_crc32 c).
Proof.
  intros (Hid & Hoff & _ & _) Hlen.
  rewrite <- (buf_read_all (protocol_serialize_chunk_header c buffer) 24)
    by (by apply length_serialize_chunk_header).
  change 24%nat with (8 + (8 + (4 + 4)))%nat.
  rewrite !buf_read_app by (rewrite length_serialize_chunk_header by done; lia).
  unfold protocol_serialize_chunk_header, store32, store64. read_back.
  rewrite !native_bytes_htonl, !native_bytes_htonll by done.
  reflexivity.
Qed.

(** X9: [protocol_serialize_chunk_header] writes chunk_id, chunk_offset,
    chunk_size and chunk_crc32 in big-endian order, whatever the host, and
    [protocol_deserialize_chunk_header] reads the same chunk header back. *)
Theorem chunk_header_wire_format `{Host} (c : ChunkHeader) (buffer : list Z) :
  wf_chunk_header c -> length buffer = 24%nat ->
  protocol_serialize_chunk_header c buffer =
    be_bytes 8 (ChunkHeader.chunk_id c) ++ be_bytes 8 (ChunkHeader.chunk_offset c)
    ++ be_bytes 4 (ChunkHeader.chunk_size c) ++ be_bytes 4 (ChunkHeader.chunk_crc32 c) /\
  protocol_deserialize_chunk_header (protocol_serialize_chunk_header c buffer) = c.
Proof.
  intros Hwf Hlen.
  split; [by apply serialize_chunk_header_bytes
         | by apply deserialize_serialize_chunk_header].
Qed.

Lemma chunk_header_wire_format_witness :
  @protocol_serialize_chunk_header little_endian_host sample_chunk_header
    (replicate 24 255) =
  [0; 0; 0; 0; 0; 0; 0; 5; 0; 0; 0; 0; 0; 40; 0; 0; 0; 0; 0; 3; 85; 188; 128; 29] /\
  @protocol_deserialize_chunk_header little_endian_host
    (@protocol_serialize_chunk_header little_endian_host sample_chunk_header
       (replicate 24 255)) = sample_chunk_header.
Proof.
  destruct (@chunk_header_wire_format little_endian_host sample_chunk_header
              (replicate 24 255)) as [Hbytes Hback]; [by_evaluation..|].
  split; [|exact Hback]. rewrite Hbytes. vm_compute. reflexivity.
Defined.

(** Writes that follow one another: [pre] is what has been written from
    the start of [buffer]. *)
Lemma buf_write_next pre bs buffer off :
  off = length pre ->
  buf_write off bs (pre ++ drop off buffer) =
  (pre ++ bs) ++ drop (off + length bs) buffer.
Proof.
  intros ->. unfold buf_write.
  rewrite take_app_length, drop_app_add, drop_drop, <- app_assoc. reflexivity.
Qed.

Lemma buf_read_app_skip a l off n :
  (length a <= off)%nat -> buf_read off n (a ++ l) = buf_read (off - length a) n l.
Proof. intros Hle. unfold buf_read. by rewrite drop_app_ge. Qed.

Lemma buf_read_app_here a l n : length a = n -> buf_read 0 n (a ++ l) = a.
Proof. intros <-. unfold buf_read. by rewrite drop_0, take_app_length. Qed.

Lemma load8_app_skip a l off :
  (length a <= off)%nat -> load8 (a ++ l) off = load8 l (off - length a).
Proof. intros Hle. unfold load8. by rewrite app_nth2. Qed.

Lemma serialize_file_info_bytes `{Host} f buffer :
  wf_file_info f ->
  protocol_serialize_file_info f buffer = file_info_fields f ++ drop 992 buffer.
Proof.
  intros (_ & Hname & Hsize & Htotal & _ & Hsum & _ & Htime).
  unfold protocol_serialize_file_info, file_info_fields. cbv zeta.
  unfold FT_MAX_FILENAME_LEN, FT_SHA256_SIZE.
  rewrite (take_ge (FileInfo.filename f)) by (rewrite Hname; lia).
  rewrite (take_ge (FileInfo.file_checksum f)) by (rewrite Hsum; lia).
  unfold store8, store16, store32, store64, memcpy_to, memset.
  rewrite native_bytes_htons, !native_bytes_htonl, !native_bytes_htonll by done.
  change buffer with ([] ++ drop 0 buffer) at 1.
  repeat (rewrite buf_write_next
            by (rewrite ?length_app, ?length_be_bytes, ?Hname, ?Hsum; reflexivity);
          rewrite ?length_be_bytes, ?Hname, ?Hsum, ?length_replicate;
          simpl Nat.add).
  rewrite <- !app_assoc. reflexivity.
Qed.

Ltac skip_fields Hname Hsum :=
  repeat first
    [ rewrite buf_read_app_here
        by (rewrite ?length_be_bytes, ?Hname, ?Hsum; reflexivity)
    | rewrite buf_read_app_skip
        by (rewrite ?length_be_bytes, ?Hname, ?Hsum; simpl; lia);
      rewrite ?length_be_bytes, ?Hname, ?Hsum; simpl Nat.sub
    | rewrite load8_app_skip
        by (rewrite ?length_be_bytes, ?Hname, ?Hsum; simpl; lia);
      rewrite ?length_be_bytes, ?Hname, ?Hsum; simpl Nat.sub ].

Lemma deserialize_file_info_fields `{Host} f f0 tail_bytes :
  wf_file_info f ->
  protocol_deserialize_file_info (file_info_fields f ++ tail_bytes) f0 =
  received_file_info f f0.
Proof.
  intros (Hlen & Hname & Hsize & Htotal & Hchunk & Hsum & Hmode & Htime).
  unfold protocol_deserialize_file_info, received_file_info, file_info_fields.
  cbv zeta. unfold FT_MAX_FILENAME_LEN, FT_SHA256_SIZE.
  unfold load16, load32, load64. simpl Nat.add. simpl Nat.sub.
  rewrite <- !app_assoc.
  f_equal.
  - skip_fields Hname Hsum.
    rewrite ntohs_native_val by (apply length_be_bytes || apply be_bytes_is_byte).
    rewrite be_val_be_bytes. by apply Z.mod_small.
  - skip_fields Hname Hsum. unfold store8, buf_write.
    rewrite (drop_ge (FileInfo.filename f)) by (rewrite Hname; simpl; lia).
    reflexivity.
  - skip_fields Hname Hsum.
    rewrite ntohll_native_val by (apply length_be_bytes || apply be_bytes_is_byte).
    rewrite be_val_be_bytes. by apply Z.mod_small.
  - skip_fields Hname Hsum.
    rewrite ntohll_native_val by (apply length_be_bytes || apply be_bytes_is_byte).
    rewrite be_val_be_bytes. by apply Z.mod_small.
  - skip_fields Hname Hsum.
    rewrite ntohl_native_val by (apply length_be_bytes || apply be_bytes_is_byte).
    rewrite be_val_be_bytes. by apply Z.mod_small.
  - skip_fields Hname Hsum. reflexivity.
  - skip_fields Hname Hsum. reflexivity.
  - skip_fields Hname Hsum.
    rewrite ntohl_native_val by (apply length_be_bytes || apply be_bytes_is_byte).
    rewrite be_val_be_bytes. by apply Z.mod_small.
  - skip_fields Hname Hsum.
    rewrite ntohll_native_val by (apply length_be_bytes || apply be_bytes_is_byte).
    rewrite be_val_be_bytes. by apply Z.mod_small.
Qed.

Lemma length_file_info_fields f :
  wf_file_info f -> length (file_info_fields f) = 992%nat.
Proof.
  intros (_ & Hname & _ & _ & _ & Hsum & _).
  unfold file_info_fields.
  rewrite !length_app, !length_be_bytes, Hname, Hsum, length_replicate.
  reflexivity.
Qed.

Lemma length_serialize_file_info_1024 `{Host} f buffer :
  wf_file_info f -> length buffer = 1024%nat ->
  length (protocol_serialize_file_info f buffer) = 1024%nat.
Proof.
  intros Hwf Hlen. rewrite serialize_file_info_bytes by done.
  rewrite length_app, length_file_info_fields, length_drop, Hlen by done.
  reflexivity.
Qed.

(** X10: [protocol_serialize_file_info] writes the fields of a FileInfo in
    big-endian order into the first 992 bytes of the 1024-byte buffer and
    leaves the last 32 bytes as they were; [protocol_deserialize_file_info]
    reads the fields back, with the last byte of the filename set to 0 and
    the receiver's reserved bytes untouched. *)
Theorem file_info_wire_format `{Host} (f f0 : FileInfo) (buffer : list Z) :
  wf_file_info f -> length buffer = 1024%nat ->
  length (protocol_serialize_file_info f buffer) = 1024%nat /\
  take 992 (protocol_serialize_file_info f buffer) = file_info_fields f /\
  drop 992 (protocol_serialize_file_info f buffer) = drop 992 buffer /\
  protocol_deserialize_file_info (protocol_serialize_file_info f buffer) f0 =
    received_file_info f f0.
Proof.
  intros Hwf Hlen.
  rewrite serialize_file_info_bytes by done.
  pose proof (length_file_info_fields f Hwf) as Hfields.
  split; [|split; [|split]].
  - rewrite length_app, Hfields, length_drop, Hlen. reflexivity.
  - rewrite <- Hfields. apply take_app_length.
  - rewrite <- Hfields. apply drop_app_length.
  - by apply deserialize_file_info_fields.
Qed.

Lemma file_info_wire_format_witness :
  drop 992 (@protocol_serialize_file_info little_endian_host sample_file_info
              (replicate 1024 170)) = replicate 32 170 /\
  @protocol_deserialize_file_info little_endian_host
    (@protocol_serialize_file_info little_endian_host sample_file_info
       (replicate 1024 170)) four_byte_chunks =
  received_file_info sample_file_info four_byte_chunks.
Proof.
  destruct (@file_info_wire_format little_endian_host sample_file_info
              four_byte_chunks (replicate 1024 170))
    as (_ & _ & Htail & Hback); [by_evaluation..|].
  split; [exact Htail | exact Hback].
Defined.

(** * What one side sends, the other side reads *)

Lemma wire_app l1 l2 : wire (l1 ++ l2) = wire l1 ++ wire l2.
Proof. unfold wire. apply flat_map_app. Qed.

Lemma wire_sent_data data : wire (sent_data data) = data.
Proof. destruct data; [done|]. simpl. by rewrite app_nil_r. Qed.

Lemma sent_since_log w w' sent :
  tx_log w' = tx_log w ++ sent -> sent_since w w' = wire sent.
Proof. intros Hlog. unfold sent_since. by rewrite Hlog, drop_app_length. Qed.

Lemma socket_send_all_log buffer w w' :
  socket_send_all buffer w = (Ok tt, w') ->
  tx_log w' = tx_log w ++ sent_data buffer /\ junk w' = junk w.
Proof.
  unfold socket_send_all. destruct buffer as [|b buffer].
  - intros [= <-]. by rewrite app_nil_r.
  - destruct (tx_script w) as [|[|fatal] s]; intros [= <-]; done.
Qed.

Lemma uninit_bytes_junk n w w' : junk w' = junk w -> uninit_bytes n w' = uninit_bytes n w.
Proof. unfold uninit_bytes. by intros ->. Qed.

Lemma send_message_sent `{Host} msg_type sequence_num payload payload_size w w' :
  0 <= payload_size <= Z.of_nat (length payload) ->
  send_message msg_type sequence_num payload payload_size w = (Ok tt, w') ->
  sent_since w w' =
    message_bytes msg_type sequence_num (take (Z.to_nat payload_size) payload)
      (uninit_bytes 32 w) /\
  junk w' = junk w /\ rx w' = rx w.
Proof.
  intros Hsize. unfold send_message, bind, uninit, message_bytes.
  rewrite length_take, Nat.min_l, Z2Nat.id by lia.
  destruct (socket_send_all _ w) as [[[]|e] w1] eqn:Hh; [|done].
  pose proof (rx_socket_send_all _ _ _ _ Hh) as Hrx1.
  apply socket_send_all_log in Hh as [Hlog1 Hjunk1].
  destruct (Z.gtb_spec payload_size 0) as [Hpos|Hzero].
  - intros Hp. pose proof (rx_socket_send_all _ _ _ _ Hp) as Hrx2.
    apply socket_send_all_log in Hp as [Hlog2 Hjunk2].
    split; [|split; congruence].
    assert (tx_log w' =
            tx_log w
            ++ (sent_data (protocol_serialize_header
                             (protocol_init_header msg_type sequence_num payload_size)
                             (uninit_bytes FT_HEADER_SIZE w))
                ++ sent_data (take (Z.to_nat payload_size) payload))) as Hlog
      by (by rewrite Hlog2, Hlog1, <- app_assoc).
    rewrite (sent_since_log _ _ _ Hlog), wire_app, !wire_sent_data. done.
  - intros [= <-]. split; [|done].
    assert (payload_size = 0) as -> by lia.
    apply sent_since_log in Hlog1 as ->.
    rewrite wire_sent_data. change (Z.to_nat 0) with 0%nat.
    rewrite take_0, app_nil_r. reflexivity.
Qed.

Lemma send_message_log `{Host} msg_type sequence_num payload w w' :
  send_message msg_type sequence_num payload (Z.of_nat (length payload)) w
    = (Ok tt, w') ->
  sent_since w w' = message_bytes msg_type sequence_num payload (uninit_bytes 32 w) /\
  junk w' = junk w.
Proof.
  intros Hsend. apply send_message_sent in Hsend as (Hsent & Hjunk & _); [|lia].
  by rewrite Nat2Z.id, firstn_all in Hsent.
Qed.

Lemma wf_init_header msg_type sequence_num payload_size :
  known_msg_type msg_type -> is_u64 sequence_num -> is_u64 payload_size ->
  wf_header (protocol_init_header msg_type sequence_num payload_size).
Proof.
  intros Ht Hseq Hlen. unfold wf_header. simpl.
  repeat split; try apply Hseq; try apply Hlen; try (vm_compute; congruence).
  all: unfold u8; pose proof (Z.mod_pos_bound msg_type (2 ^ 8)); lia.
Qed.

Lemma message_bytes_host (h1 h2 : Host) msg_type sequence_num payload hb1 hb2 :
  known_msg_type msg_type -> is_u64 sequence_num ->
  is_u64 (Z.of_nat (length payload)) ->
  length hb1 = 32%nat -> length hb2 = 32%nat ->
  @message_bytes h1 msg_type sequence_num payload hb1 =
  @message_bytes h2 msg_type sequence_num payload hb2.
Proof.
  intros Ht Hseq Hlen H1 H2. unfold message_bytes.
  rewrite (@serialize_header_bytes h1), (@serialize_header_bytes h2)
    by (done || by apply wf_init_header).
  reflexivity.
Qed.

Lemma recv_message_of_bytes `{Host} buf max w msg_type sequence_num payload hb rest :
  known_msg_type msg_type -> is_u64 sequence_num ->
  length hb = 32%nat -> Z.of_nat (length payload) <= max ->
  is_u64 (Z.of_nat (length payload)) ->
  rx w = map RxByte (message_bytes msg_type sequence_num payload hb) ++ rest ->
  recv_message buf max w =
  (Ok (with_checksum
         (protocol_init_header msg_type sequence_num (Z.of_nat (length payload)))
         (crc32_compute
            (header_fields
               (protocol_init_header msg_type sequence_num
                  (Z.of_nat (length payload))))),
       buf_write 0 payload buf),
   set_rx rest w).
Proof.
  intros Ht Hseq Hhb Hmax Hlen Hrx.
  rewrite message_bytes_split in Hrx.
  unfold recv_message. unfold bind at 1.
  rewrite (socket_recv_all_bytes _ _ _ w Hrx)
    by (by rewrite length_serialize_header).
  rewrite valid_init_header; [| destruct Ht; unfold is_u8; lia | done..].
  rewrite header_fields_written by (apply Hseq || apply Hlen || done).
  rewrite validate_init_header by done.
  change (negb (bool_decide (FT_SUCCESS = FT_SUCCESS))) with false. cbv iota.
  cbn [with_checksum protocol_init_header MessageHeader.payload_size].
  destruct (Z.gtb_spec (Z.of_nat (length payload)) 0) as [Hpos|Hzero].
  - destruct (Z.gtb_spec (Z.of_nat (length payload)) max); [lia|].
    unfold bind.
    rewrite (socket_recv_all_bytes _ payload rest) by done.
    reflexivity.
  - assert (payload = []) as -> by (destruct payload; [done | simpl in *; lia]).
    reflexivity.
Qed.

(** X11: a message that [send_message] has sent is read back by
    [recv_message] at the other end, of either byte order: the header it
    returns carries the type, sequence number and payload length sent, as
    its checksum the CRC-32 of the 24 header bytes before it, and the
    payload lies at the start of the receiving buffer. *)
Theorem message_round_trip (sender receiver : Host)
    (msg_type sequence_num : Z) (payload : list Z)
    (ws ws' wr : World) (buf : list Z) (max_payload_size : Z)
    (rest : list rx_item) :
  known_msg_type msg_type -> is_u64 sequence_num ->
  is_u64 (Z.of_nat (length payload)) ->
  Z.of_nat (length payload) <= max_payload_size ->
  @send_message sender msg_type sequence_num payload (Z.of_nat (length payload)) ws
    = (Ok tt, ws') ->
  rx wr = map RxByte (sent_since ws ws') ++ rest ->
  @recv_message receiver buf max_payload_size wr =
  (Ok (with_checksum
         (protocol_init_header msg_type sequence_num (Z.of_nat (length payload)))
         (crc32_compute
            (header_fields
               (protocol_init_header msg_type sequence_num
                  (Z.of_nat (length payload))))),
       buf_write 0 payload buf),
   set_rx rest wr).
Proof.
  intros Ht Hseq Hlen Hmax Hsend Hrx.
  apply send_message_log in Hsend as [Hsent _]. rewrite Hsent in Hrx.
  rewrite (message_bytes_host sender receiver _ _ _ _ (replicate 32 0)) in Hrx
    by (done || apply length_uninit_bytes || apply length_replicate).
  exact (recv_message_of_bytes _ _ _ _ _ _ _ _ Ht Hseq (length_replicate _ _)
           Hmax Hlen Hrx).
Qed.

Lemma message_round_trip_witness :
  fst (@recv_message big_endian_host [9; 9; 9; 9] 4 handshake_delivered) =
  Ok (with_checksum (protocol_init_header MSG_HANDSHAKE_REQ 0 4)
        (crc32_compute (header_fields (protocol_init_header MSG_HANDSHAKE_REQ 0 4))),
      [1; 0; 0; 0]).
Proof.
  rewrite (message_round_trip little_endian_host big_endian_host
             MSG_HANDSHAKE_REQ 0 [1; 0; 0; 0] (receiving []) (snd handshake_sent)
             handshake_delivered [9; 9; 9; 9] 4 []);
    [reflexivity | unfold known_msg_type, MSG_HANDSHAKE_REQ; lia | by_evaluation..].
Defined.

Lemma send_chunk_log `{Host} chunk_id chunk_offset data sequence_num w w' :
  send_chunk chunk_id chunk_offset data (Z.of_nat (length data)) sequence_num w
    = (Ok tt, w') ->
  is_u32 (Z.of_nat (length data)) ->
  sent_since w w' =
  message_bytes MSG_CHUNK_DATA sequence_num
    (chunk_payload chunk_id chunk_offset data (crc32_compute data)
       (uninit_bytes 24 w)) (uninit_bytes 32 w).
Proof.
  intros Hsend Hsize. revert Hsend.
  unfold send_chunk, bind, record_call, uninit.
  rewrite Nat2Z.id, firstn_all.
  destruct (socket_send_all _ (set_history _ w)) as [[[]|e] w1] eqn:H1; [|done].
  apply socket_send_all_log in H1 as [Hlog1 Hjunk1].
  destruct (socket_send_all _ w1) as [[[]|e] w2] eqn:H2; [|done].
  apply socket_send_all_log in H2 as [Hlog2 Hjunk2].
  intros H3. apply socket_send_all_log in H3 as [Hlog3 Hjunk3].
  simpl in Hlog1.
  erewrite sent_since_log; last first.
  { rewrite Hlog3, Hlog2, Hlog1, <- !app_assoc. reflexivity. }
  rewrite !wire_app, !wire_sent_data.
  unfold message_bytes, chunk_payload.
  rewrite length_app, length_serialize_chunk_header by apply length_uninit_bytes.
  unfold u32. rewrite (Z.mod_small (Z.of_nat (length data))) by apply Hsize.
  replace (Z.of_nat (24 + length data)) with (Z.of_nat FT_CHUNK_HEADER_SIZE
                                              + Z.of_nat (length data))
    by (unfold FT_CHUNK_HEADER_SIZE; lia).
  reflexivity.
Qed.

Lemma chunk_payload_host (h1 h2 : Host) chunk_id chunk_offset data crc cb1 cb2 :
  is_u64 chunk_id -> is_u64 chunk_offset -> is_u32 (Z.of_nat (length data)) ->
  is_u32 crc -> length cb1 = 24%nat -> length cb2 = 24%nat ->
  @chunk_payload h1 chunk_id chunk_offset data crc cb1 =
  @chunk_payload h2 chunk_id chunk_offset data crc cb2.
Proof.
  intros Hid Hoff Hsize Hcrc H1 H2. unfold chunk_payload.
  rewrite (@serialize_chunk_header_bytes h1), (@serialize_chunk_header_bytes h2)
    by done.
  reflexivity.
Qed.

Lemma length_chunk_payload `{Host} chunk_id chunk_offset data crc cb :
  length cb = 24%nat ->
  length (chunk_payload chunk_id chunk_offset data crc cb) = (24 + length data)%nat.
Proof.
  intros Hcb. unfold chunk_payload.
  by rewrite length_app, length_serialize_chunk_header.
Qed.

(** X12: a chunk that [send_chunk] has sent is accepted by [recv_chunk] at
    the other end, of either byte order: it returns the data sent and fills
    the chunk header with the chunk_id, chunk_offset, length and CRC-32 the
    sender gave, and reads nothing beyond the message. *)
Theorem chunk_round_trip (sender receiver : Host)
    (chunk_id chunk_offset : Z) (data : list Z) (sequence_num : Z)
    (ws ws' wr : World) (chunk_hdr : ChunkHeader) (max_data_size : Z)
    (rest : list rx_item) :
  is_u64 chunk_id -> is_u64 chunk_offset -> is_u64 sequence_num ->
  is_u32 (Z.of_nat (length data)) -> Z.of_nat (length data) <= max_data_size ->
  @send_chunk sender chunk_id chunk_offset data (Z.of_nat (length data))
    sequence_num ws = (Ok tt, ws') ->
  rx wr = map RxByte (sent_since ws ws') ++ rest ->
  @recv_chunk receiver chunk_hdr max_data_size wr =
  (Ok data,
   ChunkHeader.mk chunk_id chunk_offset (Z.of_nat (length data)) (crc32_compute data),
   set_rx rest wr).
Proof.
  intros Hid Hoff Hseq Hsize Hmax Hsend Hrx.
  rewrite (send_chunk_log _ _ _ _ _ _ Hsend Hsize) in Hrx.
  assert (is_u64 (Z.of_nat (24 + length data))) as Hlen.
  { unfold is_u64, is_u32 in *. lia. }
  rewrite (message_bytes_host sender receiver _ _ _ _ (replicate 32 0)) in Hrx;
    [| unfold known_msg_type, MSG_CHUNK_DATA; lia | done | by rewrite length_chunk_payload by apply length_uninit_bytes
     | apply length_uninit_bytes | apply length_replicate ].
  rewrite (chunk_payload_host sender receiver _ _ _ _ _ (replicate 24 0)) in Hrx
    by (done || apply crc32_compute_u32 || apply length_uninit_bytes
        || apply length_replicate).
  rewrite (@recv_chunk_message receiver chunk_hdr max_data_size wr chunk_id
             chunk_offset data (crc32_compute data) sequence_num
             (replicate 32 0) (replicate 24 0) rest Hid Hoff
             (crc32_compute_u32 data) Hseq (length_replicate _ _)
             (length_replicate _ _) Hsize Hmax Hrx).
  by rewrite Z.eqb_refl.
Qed.

Lemma chunk_round_trip_witness :
  fst (@recv_chunk big_endian_host (ChunkHeader.mk 0 0 0 0) 524288 chunk_delivered)
  = (Ok [1; 2; 3], ChunkHeader.mk 5 2621440 3 (crc32_compute [1; 2; 3])).
Proof.
  rewrite (chunk_round_trip little_endian_host big_endian_host 5 2621440
             [1; 2; 3] 9 (receiving []) (snd chunk_sent) chunk_delivered
             (ChunkHeader.mk 0 0 0 0) 524288 []);
    [reflexivity | by_evaluation..].
Defined.

Lemma send_chunk_ack_sent `{Host} chunk_id status sequence_num w w' :
  is_u64 chunk_id ->
  send_chunk_ack chunk_id status sequence_num w = (Ok tt, w') ->
  sent_since w w' =
  message_bytes MSG_CHUNK_ACK sequence_num (chunk_ack_payload chunk_id status)
    (uninit_bytes 32 w).
Proof.
  intros Hid. unfold send_chunk_ack, bind, record_call, uninit.
  intros Hsend. apply send_message_sent in Hsend as (Hsent & _).
  2:{ match goal with
      | |- context [uninit_bytes 16 ?x] =>
        pose proof (length_uninit_bytes 16 x) as Hj; revert Hj;
        generalize (uninit_bytes 16 x); intros j Hj
      end.
      split; [lia|]. replace (length _) with 16%nat; [lia|]. symmetry. buf_len. }
  change (Z.to_nat 12) with 12%nat in Hsent.
  rewrite chunk_ack_buffer in Hsent by (done || apply length_uninit_bytes).
  exact Hsent.
Qed.

(** X13: an acknowledgement that [send_chunk_ack] has sent is read by
    [recv_chunk_ack] at the other end, of either byte order, with the
    chunk_id and the status given to the sender. *)
Theorem chunk_ack_round_trip (sender receiver : Host)
    (chunk_id status sequence_num : Z) (ws ws' wr : World)
    (rest : list rx_item) :
  is_u64 chunk_id -> is_u64 sequence_num ->
  @send_chunk_ack sender chunk_id status sequence_num ws = (Ok tt, ws') ->
  rx wr = map RxByte (sent_since ws ws') ++ rest ->
  @recv_chunk_ack receiver wr =
  (Ok {| ChunkAck.chunk_id := chunk_id; ChunkAck.status := status |},
   set_rx rest wr).
Proof.
  intros Hid Hseq Hsend Hrx.
  rewrite (send_chunk_ack_sent _ _ _ _ _ Hid Hsend) in Hrx.
  rewrite (message_bytes_host sender receiver _ _ _ _ (replicate 32 0)) in Hrx;
    [| unfold known_msg_type, MSG_CHUNK_ACK; lia | done
     | unfold chunk_ack_payload; rewrite length_app, length_be_bytes; by_evaluation
     | apply length_uninit_bytes | apply length_replicate ].
  exact (@recv_chunk_ack_message receiver wr chunk_id status sequence_num
           (replicate 32 0) rest Hid Hseq (length_replicate _ _) Hrx).
Qed.

Lemma chunk_ack_round_trip_witness :
  fst (@recv_chunk_ack little_endian_host retry_ack_delivered) =
  Ok {| ChunkAck.chunk_id := 5; ChunkAck.status := 1 |}.
Proof.
  rewrite (chunk_ack_round_trip big_endian_host little_endian_host 5 1 9
             (receiving []) (snd retry_ack_sent) retry_ack_delivered []);
    [reflexivity | by_evaluation..].
Defined.

Lemma send_file_info_sent `{Host} f sequence_num w w' :
  wf_file_info f ->
  send_file_info f sequence_num w = (Ok tt, w') ->
  sent_since w w' =
  message_bytes MSG_FILE_INFO sequence_num
    (file_info_fields f ++ drop 992 (uninit_bytes 1024 w)) (uninit_bytes 32 w).
Proof.
  intros Hwf. unfold send_file_info, bind, uninit.
  rewrite serialize_file_info_bytes by done.
  assert (length (file_info_fields f ++ drop 992 (uninit_bytes FT_FILE_INFO_SIZE w))
          = FT_FILE_INFO_SIZE) as Hlen.
  { rewrite <- serialize_file_info_bytes by done.
    apply length_serialize_file_info_1024, length_uninit_bytes. done. }
  intros Hsend.
  apply send_message_sent in Hsend as (Hsent & _); [|rewrite Hlen; lia].
  rewrite Nat2Z.id, take_ge in Hsent by (rewrite Hlen; lia).
  exact Hsent.
Qed.

(** X14: the FILE_INFO message that [send_file_info] sends ends with the 32
    bytes its buffer held before serialization, which nothing initialises;
    [recv_file_info] at the other end, of either byte order, returns the
    fields sent, the last byte of the filename set to 0. *)
Theorem file_info_round_trip (sender receiver : Host)
    (f : FileInfo) (sequence_num : Z) (ws ws' wr : World) (rest : list rx_item) :
  wf_file_info f -> is_u64 sequence_num ->
  @send_file_info sender f sequence_num ws = (Ok tt, ws') ->
  rx wr = map RxByte (sent_since ws ws') ++ rest ->
  drop (32 + 992) (sent_since ws ws') = drop 992 (uninit_bytes 1024 ws) /\
  exists f0,
    @recv_file_info receiver wr = (Ok (received_file_info f f0), set_rx rest wr).
Proof.
  intros Hwf Hseq Hsend Hrx.
  pose proof (@send_file_info_sent sender _ _ _ _ Hwf Hsend) as Hsent.
  pose proof (length_file_info_fields f Hwf) as Hfields.
  assert (length (file_info_fields f ++ drop 992 (uninit_bytes 1024 ws))
          = 1024%nat) as Hlen.
  { rewrite length_app, Hfields, length_drop, length_uninit_bytes. reflexivity. }
  split.
  - rewrite Hsent. unfold message_bytes.
    rewrite <- drop_drop, drop_app_length'
      by (symmetry; apply length_serialize_header, length_uninit_bytes).
    rewrite <- Hfields. apply drop_app_length.
  - rewrite Hsent in Hrx.
    rewrite (message_bytes_host sender receiver _ _ _ _ (replicate 32 0)) in Hrx;
      [| unfold known_msg_type, MSG_FILE_INFO; lia | done
       | rewrite Hlen; by_evaluation
       | apply length_uninit_bytes | apply length_replicate ].
    eexists.
    unfold recv_file_info, uninit_FileInfo, uninit, bind, ret.
    rewrite (@recv_message_of_bytes receiver (uninit_bytes FT_FILE_INFO_SIZE wr)
               (Z.of_nat FT_FILE_INFO_SIZE) wr MSG_FILE_INFO sequence_num
               (file_info_fields f ++ drop 992 (uninit_bytes 1024 ws))
               (replicate 32 0) rest);
      [| unfold known_msg_type, MSG_FILE_INFO; lia | done | apply length_replicate
       | rewrite Hlen; by_evaluation | rewrite Hlen; by_evaluation | exact Hrx ].
    cbn [with_checksum protocol_init_header MessageHeader.msg_type].
    change (negb (u8 MSG_FILE_INFO =? MSG_FILE_INFO)) with false. cbv iota.
    unfold buf_write. rewrite take_0, app_nil_l, <- app_assoc.
    rewrite deserialize_file_info_fields by done.
    reflexivity.
Qed.

Lemma file_info_round_trip_witness :
  drop (32 + 992) (sent_since stale_memory (snd file_info_sent))
    = replicate 32 170 /\
  exists f0,
    fst (@recv_file_info big_endian_host file_info_delivered) =
    Ok (received_file_info sample_file_info f0).
Proof.
  destruct (file_info_round_trip little_endian_host big_endian_host
              sample_file_info 2 stale_memory (snd file_info_sent)
              file_info_delivered []) as [Htail [f0 Hrecv]];
    [by_evaluation..|].
  split; [rewrite Htail; vm_compute; reflexivity|].
  exists f0. by rewrite Hrecv.
Defined.

(** * The handshake *)

Lemma perform_handshake_server_request `{Host} w sequence_num v p3 hb rest :
  is_u64 sequence_num -> length hb = 32%nat -> length p3 = 3%nat ->
  rx w = map RxByte (message_bytes MSG_HANDSHAKE_REQ sequence_num (v :: p3) hb)
         ++ rest ->
  perform_handshake_server w =
  if v =? FT_PROTOCOL_VERSION
  then send_message MSG_HANDSHAKE_ACK (u64 (sequence_num + 1))
         (HandshakePayload_bytes FT_PROTOCOL_VERSION 0) 4 (set_rx rest w)
  else (Err FT_ERR_VERSION, set_rx rest w).
Proof.
  intros Hseq Hhb Hp3 Hrx. unfold perform_handshake_server, uninit.
  unfold bind at 1 2.
  rewrite (recv_message_of_bytes (uninit_bytes 4 w) 4 w MSG_HANDSHAKE_REQ
             sequence_num (v :: p3) hb rest);
    [| unfold known_msg_type, MSG_HANDSHAKE_REQ; lia | done | done
     | simpl; lia | simpl length; rewrite Hp3; by_evaluation | done ].
  cbn [with_checksum protocol_init_header MessageHeader.msg_type
       MessageHeader.sequence_num].
  change (negb (u8 MSG_HANDSHAKE_REQ =? MSG_HANDSHAKE_REQ)) with false. cbv iota.
  unfold buf_write. rewrite take_0, app_nil_l.
  change (load8 ((v :: p3) ++ ?l) 0) with v.
  by destruct (v =? FT_PROTOCOL_VERSION).
Qed.

(** X15: [perform_handshake_server] answers a HANDSHAKE_REQ whose payload
    starts with the protocol version by a HANDSHAKE_ACK whose sequence
    number is the request's plus one and whose payload is 1, 0, 0, 0; a
    request with any other version byte fails with FT_ERR_VERSION and
    nothing is sent back. *)
Theorem handshake_server_reply `{Host} (w : World) (sequence_num v : Z)
    (p3 hb : list Z) (rest : list rx_item) :
  is_u64 sequence_num -> length hb = 32%nat -> length p3 = 3%nat ->
  rx w = map RxByte (message_bytes MSG_HANDSHAKE_REQ sequence_num (v :: p3) hb)
         ++ rest ->
  tx_script w = [] ->
  (v = FT_PROTOCOL_VERSION ->
   exists w',
     perform_handshake_server w = (Ok tt, w') /\ rx w' = rest /\
     sent_since w w' =
       message_bytes MSG_HANDSHAKE_ACK (u64 (sequence_num + 1)) [1; 0; 0; 0]
         (uninit_bytes 32 w)) /\
  (v <> FT_PROTOCOL_VERSION ->
   perform_handshake_server w = (Err FT_ERR_VERSION, set_rx rest w) /\
   tx_log (snd (perform_handshake_server w)) = tx_log w).
Proof.
  intros Hseq Hhb Hp3 Hrx Htx.
  rewrite (perform_handshake_server_request _ _ _ _ _ _ Hseq Hhb Hp3 Hrx).
  split.
  - intros ->. rewrite Z.eqb_refl.
    destruct (send_message MSG_HANDSHAKE_ACK (u64 (sequence_num + 1))
                (HandshakePayload_bytes FT_PROTOCOL_VERSION 0) 4 (set_rx rest w))
      as [r w'] eqn:Hsend.
    rewrite send_message_ok in Hsend by (done || lia).
    injection Hsend as <- <-. eexists. split; [reflexivity|]. split; [done|].
    unfold sent_since, message_bytes. cbn [tx_log set_tx set_rx].
    rewrite drop_app_length. cbn [wire flat_map]. rewrite app_nil_r.
    reflexivity.
  - intros Hv. apply Z.eqb_neq in Hv. rewrite Hv. done.
Qed.

Lemma handshake_server_reply_witness :
  exists w',
    @perform_handshake_server big_endian_host handshake_world = (Ok tt, w') /\
    rx w' = [] /\
    sent_since handshake_world w' =
      @message_bytes big_endian_host MSG_HANDSHAKE_ACK (u64 (0 + 1)) [1; 0; 0; 0]
        (uninit_bytes 32 handshake_world).
Proof.
  destruct (@handshake_server_reply big_endian_host handshake_world 0 1
              [0; 0; 0] (replicate 32 0) []) as [Hreply _];
    [by_evaluation..|].
  exact (Hreply eq_refl).
Defined.

(** X16: a client and a server that run this code complete the handshake
    with each other, whatever their byte orders: the server accepts the
    request that [perform_handshake_client] sends, and the client accepts
    the acknowledgement that [perform_handshake_server] sends back. *)
Theorem handshake_completes (client server : Host)
    (wc wc1 wsv : World) (rest_s rest_c : list rx_item) :
  @send_message client MSG_HANDSHAKE_REQ 0
    (HandshakePayload_bytes FT_PROTOCOL_VERSION 0) 4 wc = (Ok tt, wc1) ->
  rx wsv = map RxByte (sent_since wc wc1) ++ rest_s ->
  tx_script wsv = [] ->
  exists wsv',
    @perform_handshake_server server wsv = (Ok tt, wsv') /\ rx wsv' = rest_s /\
    (rx wc = map RxByte (sent_since wsv wsv') ++ rest_c ->
     exists wc',
       @perform_handshake_client client wc = (Ok tt, wc') /\ rx wc' = rest_c).
Proof.
  intros Hsend Hrx Htx.
  pose proof Hsend as Hreq.
  apply (@send_message_sent client) in Hreq as (Hsent & _ & Hrxc);
    [|simpl; lia].
  change (take (Z.to_nat 4) (HandshakePayload_bytes FT_PROTOCOL_VERSION 0))
    with [FT_PROTOCOL_VERSION; 0; 0; 0] in Hsent.
  rewrite Hsent in Hrx.
  rewrite (message_bytes_host client server _ _ _ _ (replicate 32 0)) in Hrx;
    [| unfold known_msg_type, MSG_HANDSHAKE_REQ; lia | by_evaluation..
     | apply length_uninit_bytes | apply length_replicate ].
  rewrite (@perform_handshake_server_request server wsv 0 FT_PROTOCOL_VERSION
             [0; 0; 0] (replicate 32 0) rest_s) by (done || by_evaluation).
  rewrite Z.eqb_refl.
  rewrite send_message_ok by (done || lia).
  eexists. split; [reflexivity|]. split; [done|].
  unfold sent_since. cbn [tx_log set_tx set_rx].
  rewrite drop_app_length. cbn [wire flat_map]. rewrite app_nil_r.
  change (take (Z.to_nat 4) (HandshakePayload_bytes FT_PROTOCOL_VERSION 0))
    with [FT_PROTOCOL_VERSION; 0; 0; 0].
  intros Hack. rewrite <- Hrxc in Hack.
  change (protocol_serialize_header
            (protocol_init_header MSG_HANDSHAKE_ACK (u64 (0 + 1)) 4)
            (uninit_bytes 32 (set_rx rest_s wsv)) ++ [FT_PROTOCOL_VERSION; 0; 0; 0])
    with (@message_bytes server MSG_HANDSHAKE_ACK 1 [FT_PROTOCOL_VERSION; 0; 0; 0]
            (uninit_bytes 32 wsv)) in Hack.
  rewrite (message_bytes_host server client _ _ _ _ (replicate 32 0)) in Hack;
    [| unfold known_msg_type, MSG_HANDSHAKE_ACK; lia | by_evaluation..
     | apply length_uninit_bytes | apply length_replicate ].
  unfold perform_handshake_client. unfold bind at 1. rewrite Hsend.
  unfold uninit. unfold bind at 1 2.
  rewrite (@recv_message_of_bytes client (uninit_bytes 4 wc1) 4 wc1
             MSG_HANDSHAKE_ACK 1 [FT_PROTOCOL_VERSION; 0; 0; 0] (replicate 32 0)
             rest_c);
    [| unfold known_msg_type, MSG_HANDSHAKE_ACK; lia | by_evaluation..
     | exact Hack ].
  eexists. split; reflexivity.
Qed.

Lemma handshake_completes_witness :
  exists wc',
    @perform_handshake_client little_endian_host client_world = (Ok tt, wc') /\
    rx wc' = [].
Proof.
  destruct (handshake_completes little_endian_host big_endian_host client_world
              (snd client_request_sent) server_world [] [])
    as (wsv' & Hserver & _ & Hclient); [by_evaluation..|].
  apply Hclient.
  assert (wsv' = snd (@perform_handshake_server big_endian_host server_world))
    as -> by (by rewrite Hserver).
  vm_compute. reflexivity.
Defined.

(** * Error messages *)

Lemma length_strncpy src n : length (strncpy src n) = n.
Proof.
  unfold strncpy. rewrite length_take, length_app, length_replicate. lia.
Qed.

Lemma length_error_payload e chunk_id message :
  length (error_payload e chunk_id message) = 256%nat.
Proof.
  unfold error_payload.
  rewrite !length_app, length_be_bytes, length_strncpy. reflexivity.
Qed.

Lemma error_buffer `{Host} e chunk_id message j :
  is_u64 chunk_id -> length j = 256%nat ->
  memcpy_to (store64 (store8 j 0 (u8 (FTErrorCode_value e))) 1 (htonll chunk_id))
    9 (strncpy message 246 ++ [0])
  = error_payload e chunk_id message.
Proof.
  intros Hid Hj. unfold memcpy_to, store64, store8, error_payload.
  rewrite native_bytes_htonll by done.
  change j with ([] ++ drop 0 j) at 1.
  repeat (rewrite buf_write_next
            by (rewrite ?length_app, ?length_be_bytes; reflexivity);
          rewrite ?length_app, ?length_be_bytes, ?length_strncpy;
          simpl Nat.add).
  rewrite drop_ge by (rewrite Hj; lia).
  rewrite app_nil_r, <- !app_assoc. reflexivity.
Qed.

Lemma send_error_sent `{Host} e chunk_id message sequence_num w w' :
  is_u64 chunk_id ->
  send_error e chunk_id message sequence_num w = (Ok tt, w') ->
  sent_since w w' =
  message_bytes MSG_ERROR sequence_num (error_payload e chunk_id message)
    (uninit_bytes 32 w).
Proof.
  intros Hid. unfold send_error, bind, uninit.
  rewrite error_buffer by (done || apply length_uninit_bytes).
  intros Hsend.
  apply send_message_sent in Hsend as (Hsent & _);
    [|rewrite length_error_payload; lia].
  rewrite take_ge in Hsent by (rewrite length_error_payload; simpl; lia).
  exact Hsent.
Qed.

Lemma send_error_ok `{Host} e chunk_id message sequence_num w :
  is_u64 chunk_id -> tx_script w = [] ->
  fst (send_error e chunk_id message sequence_num w) = Ok tt.
Proof.
  intros Hid Htx. unfold send_error, bind, uninit.
  rewrite error_buffer by (done || apply length_uninit_bytes).
  rewrite send_message_ok; [done | done | lia |].
  intros Hnil. apply (f_equal length) in Hnil.
  rewrite length_take, length_error_payload in Hnil. simpl in Hnil. lia.
Qed.

Lemma u8_error_code e :
  e <> FT_SUCCESS ->
  223 <= u8 (FTErrorCode_value e) <= 255.
Proof. intros He. destruct e; try done; vm_compute; split; congruence. Qed.

(** X17: what [recv_error] makes of a message that [send_error] has sent:
    the chunk_id and the text, cut to 246 characters, arrive; the error
    code arrives as one unsigned byte, so that for every code but
    FT_SUCCESS it is the value of no FTErrorCode and
    [protocol_get_error_string] calls it an unknown error. *)
Theorem error_message_round_trip (sender receiver : Host)
    (e : FTErrorCode) (chunk_id : Z) (message : list Z) (sequence_num : Z)
    (ws ws' wr : World) (rest : list rx_item) :
  is_u64 chunk_id -> is_u64 sequence_num ->
  @send_error sender e chunk_id message sequence_num ws = (Ok tt, ws') ->
  rx wr = map RxByte (sent_since ws ws') ++ rest ->
  @recv_error receiver wr =
    (Ok {| ErrorMessage.error_code := u8 (FTErrorCode_value e);
           ErrorMessage.chunk_id := chunk_id;
           ErrorMessage.message := strncpy message 246 ++ [0] |},
     set_rx rest wr) /\
  (e <> FT_SUCCESS ->
   (forall e', u8 (FTErrorCode_value e) <> FTErrorCode_value e') /\
   protocol_get_error_string (u8 (FTErrorCode_value e)) = "Unknown error"%string).
Proof.
  intros Hid Hseq Hsend Hrx. split.
  - rewrite (@send_error_sent sender _ _ _ _ _ _ Hid Hsend) in Hrx.
    rewrite (message_bytes_host sender receiver _ _ _ _ (replicate 32 0)) in Hrx;
      [| unfold known_msg_type, MSG_ERROR; lia | done
       | rewrite length_error_payload; by_evaluation
       | apply length_uninit_bytes | apply length_replicate ].
    unfold recv_error, uninit. unfold bind at 1 2.
    rewrite (@recv_message_of_bytes receiver (uninit_bytes 256 wr) 256 wr
               MSG_ERROR sequence_num (error_payload e chunk_id message)
               (replicate 32 0) rest);
      [| unfold known_msg_type, MSG_ERROR; lia | done | apply length_replicate
       | rewrite length_error_payload; lia
       | rewrite length_error_payload; by_evaluation | exact Hrx ].
    cbn [with_checksum protocol_init_header MessageHeader.msg_type].
    change (negb (u8 MSG_ERROR =? MSG_ERROR)) with false. cbv iota.
    unfold ret. do 2 f_equal.
    unfold buf_write. rewrite take_0, app_nil_l.
    unfold error_payload. rewrite <- !app_assoc. f_equal.
    + unfold load64.
      rewrite (buf_read_app_skip [_]) by (simpl; lia). simpl Nat.sub.
      rewrite buf_read_app_here by apply length_be_bytes.
      rewrite ntohll_native_val by (apply length_be_bytes || apply be_bytes_is_byte).
      rewrite be_val_be_bytes. by apply Z.mod_small.
    + rewrite (buf_read_app_skip [_]) by (simpl; lia). simpl Nat.sub.
      rewrite buf_read_app_skip by (rewrite length_be_bytes; lia).
      rewrite length_be_bytes. simpl Nat.sub.
      rewrite app_assoc.
      rewrite buf_read_app_here
        by (rewrite length_app, length_strncpy; reflexivity).
      unfold store8, buf_write.
      rewrite take_app_length' by (by rewrite length_strncpy).
      rewrite drop_ge by (rewrite length_app, length_strncpy; simpl; lia).
      reflexivity.
  - intros He. pose proof (u8_error_code e He) as Hrange. split.
    + intros e'. destruct e'; simpl; lia.
    + destruct e; try done; vm_compute; reflexivity.
Qed.

Lemma error_message_round_trip_witness :
  fst (@recv_error big_endian_host disk_full_error_delivered) =
    Ok {| ErrorMessage.error_code := 242;
          ErrorMessage.chunk_id := 0;
          ErrorMessage.message :=
            strncpy (bytes_of_string "Insufficient disk space") 246 ++ [0] |} /\
  protocol_get_error_string 242 = "Unknown error"%string.
Proof.
  destruct (error_message_round_trip little_endian_host big_endian_host
              FT_ERR_DISK_FULL 0 (bytes_of_string "Insufficient disk space") 2
              (receiving []) (snd disk_full_error_sent)
              disk_full_error_delivered []) as [Hrecv Hcode];
    [by_evaluation..|].
  split; [by rewrite Hrecv|].
  destruct Hcode as [_ Hstring]; [done|]. exact Hstring.
Defined.

Lemma recv_message_too_long `{Host} buf max w msg_type sequence_num payload hb rest :
  known_msg_type msg_type -> is_u64 sequence_num ->
  length hb = 32%nat -> 0 <= max < Z.of_nat (length payload) ->
  is_u64 (Z.of_nat (length payload)) ->
  rx w = map RxByte (message_bytes msg_type sequence_num payload hb) ++ rest ->
  recv_message buf max w =
  (Err FT_ERR_PROTOCOL, set_rx (map RxByte payload ++ rest) w).
Proof.
  intros Ht Hseq Hhb Hmax Hlen Hrx.
  rewrite message_bytes_split in Hrx.
  unfold recv_message. unfold bind at 1.
  rewrite (socket_recv_all_bytes _ _ _ w Hrx)
    by (by rewrite length_serialize_header).
  rewrite valid_init_header; [| destruct Ht; unfold is_u8; lia | done..].
  rewrite validate_init_header by done.
  change (negb (bool_decide (FT_SUCCESS = FT_SUCCESS))) with false. cbv iota.
  cbn [with_checksum protocol_init_header MessageHeader.payload_size].
  destruct (Z.gtb_spec (Z.of_nat (length payload)) 0) as [Hpos|Hzero].
  - destruct (Z.gtb_spec (Z.of_nat (length payload)) max); [done|lia].
  - lia.
Qed.

(** X18: the client cannot read an error message of the server's. Every
    buffer it receives into holds 16 bytes or fewer, [send_error] sends a
    payload of 256, so [recv_message] fails with FT_ERR_PROTOCOL once it
    has read the header, and leaves the payload in the stream. *)
Theorem client_cannot_read_server_error (server client : Host)
    (e : FTErrorCode) (chunk_id : Z) (message : list Z) (sequence_num : Z)
    (ws ws' wc : World) (ack_buf : list Z) (max_payload_size : Z)
    (rest : list rx_item) :
  is_u64 chunk_id -> is_u64 sequence_num -> 0 <= max_payload_size <= 16 ->
  @send_error server e chunk_id message sequence_num ws = (Ok tt, ws') ->
  rx wc = map RxByte (sent_since ws ws') ++ rest ->
  @recv_message client ack_buf max_payload_size wc =
  (Err FT_ERR_PROTOCOL,
   set_rx (map RxByte (error_payload e chunk_id message) ++ rest) wc).
Proof.
  intros Hid Hseq Hmax Hsend Hrx.
  rewrite (@send_error_sent server _ _ _ _ _ _ Hid Hsend) in Hrx.
  rewrite (message_bytes_host server client _ _ _ _ (replicate 32 0)) in Hrx;
    [| unfold known_msg_type, MSG_ERROR; lia | done
     | rewrite length_error_payload; by_evaluation
     | apply length_uninit_bytes | apply length_replicate ].
  apply (recv_message_too_long ack_buf max_payload_size wc MSG_ERROR sequence_num
           (error_payload e chunk_id message) (replicate 32 0) rest);
    [ unfold known_msg_type, MSG_ERROR; lia | done | apply length_replicate
    | rewrite length_error_payload; lia
    | rewrite length_error_payload; by_evaluation | exact Hrx ].
Qed.

Lemma client_cannot_read_server_error_witness :
  fst (@recv_message big_endian_host (replicate 16 0) 16 disk_full_error_delivered)
  = Err FT_ERR_PROTOCOL.
Proof.
  rewrite (client_cannot_read_server_error little_endian_host big_endian_host
             FT_ERR_DISK_FULL 0 (bytes_of_string "Insufficient disk space") 2
             (receiving []) (snd disk_full_error_sent)
             disk_full_error_delivered (replicate 16 0) 16 []);
    [reflexivity | by_evaluation..].
Defined.

(** * The sender always returns *)

Lemma send_file_chunk_returns `{Host} file_info chunk_id st w :
  exists r w', send_file_chunk file_info chunk_id st w = (Some r, w').
Proof.
  unfold send_file_chunk.
  destruct (file_read_chunk _ _ w) as [[chunk_buffer|e] w1]; [|eauto].
  destruct (send_chunk_retry _ _ _ _ _ _ _ w1) as [r w2] eqn:Hretry.
  apply send_chunk_retry_attempts in Hretry as (k & _ & _ & Hsome).
  destruct r as [[sequence_num|]|]; [eauto | eauto |].
  exfalso. apply Hsome; [|done]. by_evaluation.
Qed.

Lemma send_chunks_returns `{Host} file_info :
  FileInfo.total_chunks file_info < 2 ^ 64 ->
  forall (fuel : nat) (chunk_id : Z) (st : SendState) (w : World),
  0 <= chunk_id ->
  FileInfo.total_chunks file_info - chunk_id <= Z.of_nat fuel ->
  exists r w', send_chunks fuel file_info chunk_id st w = (Some r, w').
Proof.
  intros Htotal. induction fuel as [|fuel IH]; intros chunk_id st w Hid Hfuel;
    cbn [send_chunks].
  - destruct (Z.ltb_spec chunk_id (FileInfo.total_chunks file_info)); [lia|eauto].
  - destruct (Z.ltb_spec chunk_id (FileInfo.total_chunks file_info)); [|eauto].
    destruct (send_file_chunk_returns file_info chunk_id st w) as (r & w1 & ->).
    destruct r as [st1|]; [|eauto].
    unfold u64. rewrite Z.mod_small by lia. apply IH; lia.
Qed.

(** X19: [send_file] returns on every path and whatever the peer and the
    file system do, and what it returns is 0 or -1: the chunk loop makes at
    most total_chunks turns and each turn at most FT_MAX_RETRIES attempts. *)
Theorem send_file_returns `{Host} (filepath : list Z) (w : World) :
  exists result w',
    send_file filepath w = (Some result, w') /\ (result = 0 \/ result = -1).
Proof.
  unfold send_file.
  destruct (send_file_open filepath w) as [[metadata|e] w1]; [|eauto].
  destruct (send_file_begin _ w1) as [[sequence_num|e] w2]; [|eauto].
  destruct (send_chunks_returns (prepare_file_info metadata)) with
    (fuel := Z.to_nat (FileInfo.total_chunks (prepare_file_info metadata)))
    (chunk_id := 0) (st := mkSendState sequence_num 0 0) (w := w2)
    as (r & w3 & ->).
  - cbn [prepare_file_info FileInfo.total_chunks]. unfold u64, FT_DEFAULT_CHUNK_SIZE.
    pose proof (Z.mod_pos_bound (m_file_size metadata + 524288 - 1) (2 ^ 64)).
    apply Z.div_lt_upper_bound; lia.
  - lia.
  - lia.
  - destruct r; eauto.
Qed.

(** * Refusals before the temp file is opened *)

Lemma fs_file_check_disk_space path n : preserves fs (file_check_disk_space path n).
Proof.
  intros w r w'. unfold file_check_disk_space.
  destruct (disk_avail w) as [a|]; [|by intros [= _ <-]].
  destruct (a <? n); by intros [= _ <-].
Qed.

Lemma file_open_write_error output_dir filename size w e w' :
  file_open_write output_dir filename size w = (Err e, w') -> fs w' = fs w.
Proof.
  unfold file_open_write. destruct (fopen_errno w); [|done]. by intros [= _ <-].
Qed.

Lemma receive_file_prepare_error `{Host} output_dir w e w' :
  receive_file_prepare output_dir w = (Err e, w') -> fs w' = fs w.
Proof.
  unfold receive_file_prepare. unfold bind at 1.
  destruct (perform_handshake_server w) as [[[]|e0] w0] eqn:Hhs.
  2:{ intros [= _ <-]. exact (fs_perform_handshake_server _ _ _ Hhs). }
  pose proof (fs_perform_handshake_server _ _ _ Hhs) as Hfs0.
  unfold bind at 1.
  destruct (recv_file_info w0) as [[file_info|e1] w1] eqn:Hfi.
  2:{ intros [= _ <-]. rewrite (fs_recv_file_info _ _ _ Hfi). exact Hfs0. }
  pose proof (fs_recv_file_info _ _ _ Hfi) as Hfs1.
  destruct (file_sanitize_filename _ _) as [rc sanitized].
  destruct (negb (bool_decide (rc = FT_SUCCESS))).
  { unfold bind, ignore, fail.
    destruct (send_error _ _ _ _ w1) as [r2 w2] eqn:Hse. simpl.
    intros [= _ <-]. rewrite (fs_send_error _ _ _ _ _ _ _ Hse). congruence. }
  unfold bind at 1. unfold on_failure at 1.
  destruct (file_check_disk_space _ _ w1) as [[[]|e2] w2] eqn:Hds.
  2:{ unfold ignore.
      destruct (send_error _ _ _ _ w2) as [r3 w3] eqn:Hse. simpl.
      intros [= _ <-]. rewrite (fs_send_error _ _ _ _ _ _ _ Hse).
      rewrite (fs_file_check_disk_space _ _ _ _ _ Hds). congruence. }
  pose proof (fs_file_check_disk_space _ _ _ _ _ Hds) as Hfs2.
  unfold bind, on_failure.
  destruct (file_open_write _ _ _ w2) as [[temp_path|e3] w3] eqn:Hopen; [done|].
  unfold ignore.
  destruct (send_error _ _ _ _ w3) as [r4 w4] eqn:Hse. simpl.
  intros [= _ <-]. rewrite (fs_send_error _ _ _ _ _ _ _ Hse).
  rewrite (file_open_write_error _ _ _ _ _ _ Hopen). congruence.
Qed.

(** X20: when [receive_file] gives up before the temp file is open (the
    handshake or the file info fails, the name is refused, the disk space
    is short, or the file cannot be created) it returns -1 and the file
    system is as it was. When the disk space is short the sender is told
    so: an ERROR message with the code of FT_ERR_DISK_FULL goes out. *)
Theorem receive_file_refusal_leaves_no_file `{Host}
    (output_dir : list Z) (w : World) :
  (forall e w',
     receive_file_prepare output_dir w = (Err e, w') ->
     receive_file output_dir w = (Some (-1), w') /\ fs w' = fs w) /\
  (forall file_info w1,
     (perform_handshake_server ;; recv_file_info) w = (Ok file_info, w1) ->
     fst (file_sanitize_filename (FileInfo.filename file_info)
            (Z.of_nat FT_MAX_FILENAME_LEN)) = FT_SUCCESS ->
     match disk_avail w1 with
     | Some available => available < FileInfo.file_size file_info
     | None => True
     end ->
     tx_script w1 = [] ->
     exists w',
       receive_file_prepare output_dir w = (Err FT_ERR_DISK_FULL, w') /\
       sent_since w1 w' =
         message_bytes MSG_ERROR 2
           (error_payload FT_ERR_DISK_FULL 0
              (bytes_of_string "Insufficient disk space"))
           (uninit_bytes 32 w1)).
Proof.
  split.
  - intros e w' Hprep. split; [|exact (receive_file_prepare_error _ _ _ _ Hprep)].
    unfold receive_file. by rewrite Hprep.
  - intros file_info w1 Hrun Hname Hdisk Htx.
    unfold receive_file_prepare. unfold bind in Hrun |- *.
    destruct (perform_handshake_server w) as [[[]|e0] w0]; [|done].
    rewrite Hrun.
    destruct (file_sanitize_filename _ _) as [rc sanitized]. simpl in Hname.
    subst rc. cbn [bool_decide decide_rel negb]. 
    change (negb (bool_decide (FT_SUCCESS = FT_SUCCESS))) with false. cbv iota.
    unfold on_failure at 1.
    assert (file_check_disk_space output_dir (FileInfo.file_size file_info) w1
            = (Err FT_ERR_DISK_FULL, w1)) as ->.
    { unfold file_check_disk_space. destruct (disk_avail w1) as [a|]; [|done].
      destruct (Z.ltb_spec a (FileInfo.file_size file_info)); [done|lia]. }
    unfold ignore.
    destruct (send_error FT_ERR_DISK_FULL 0
                (bytes_of_string "Insufficient disk space") 2 w1)
      as [r w2] eqn:Hse.
    cbn [snd]. eexists. split; [reflexivity|].
    assert (r = Ok tt) as ->.
    { change r with (fst (r, w2)). rewrite <- Hse.
      apply send_error_ok; [by_evaluation | done]. }
    apply send_error_sent in Hse; [done | by_evaluation].
Qed.

(** * Connecting *)

Lemma backoff_next i :
  (if backoff i * 2 <? FT_BACKOFF_MAX_MS then backoff i * 2 else FT_BACKOFF_MAX_MS)
  = backoff (S i).
Proof.
  unfold backoff, FT_BACKOFF_MAX_MS.
  rewrite Nat2Z.inj_succ, Z.pow_succ_r by lia.
  assert (0 < 2 ^ Z.of_nat i) by (apply Z.pow_pos_nonneg; lia).
  destruct (Z.ltb_spec (Z.min (1000 * 2 ^ Z.of_nat i) 16000 * 2) 16000); lia.
Qed.

(** The loop from attempt [a] + 1 on, when the next [k] calls of [connect]
    fail. *)
Lemma connect_attempts_fail (max_retries : Z) :
  forall (k a : nat) (fuel : nat) (w : ConnectWorld),
  Z.of_nat a + Z.of_nat k <= max_retries ->
  (k <= fuel)%nat ->
  Forall (fun b => b = false) (take k (connect_script w)) ->
  connect_attempts fuel (Z.of_nat a + 1) max_retries (backoff a) w =
  connect_attempts (fuel - k) (Z.of_nat (a + k) + 1) max_retries (backoff (a + k))
    (mkConnectWorld (resolves w) (drop k (connect_script w)) (connects w + k)
       (slept w
        ++ map backoff (seq a (Nat.min k (Z.to_nat (max_retries - 1) - a))))).
Proof.
  induction k as [|k IH]; intros a fuel w Hmax Hfuel Hfail.
  - rewrite Nat.sub_0_r, !Nat.add_0_r, drop_0. simpl. rewrite app_nil_r.
    by destruct w.
  - destruct fuel as [|fuel]; [lia|]. cbn [connect_attempts].
    destruct (Z.leb_spec (Z.of_nat a + 1) max_retries); [|lia].
    destruct w as [res script n sl]. cbn [resolves connect_script connects slept] in *.
    assert (match script with [] => false | b :: _ => b end = false
            /\ Forall (fun b => b = false) (take k (tail script))
            /\ drop k (tail script) = drop (S k) script) as (-> & Htail & Hdrop).
    { destruct script as [|b s]; simpl.
      - rewrite take_nil, !drop_nil. done.
      - simpl in Hfail. by inversion Hfail. }
    replace (Z.of_nat a + 1 + 1) with (Z.of_nat (S a) + 1) by lia.
    destruct (Z.ltb_spec (Z.of_nat a + 1) max_retries) as [Hlt|Hge].
    + rewrite backoff_next. rewrite IH by (simpl; done || lia).
      cbn [resolves connect_script connects slept Nat.sub].
      rewrite Hdrop.
      replace (S a + k)%nat with (a + S k)%nat by lia.
      replace (S n + k)%nat with (n + S k)%nat by lia.
      replace (Nat.min (S k) (Z.to_nat (max_retries - 1) - a))
        with (S (Nat.min k (Z.to_nat (max_retries - 1) - S a))) by lia.
      cbn [seq map]. rewrite <- app_assoc. reflexivity.
    + assert (k = 0%nat) as -> by lia.
      replace (Nat.min 1 (Z.to_nat (max_retries - 1) - a)) with 0%nat by lia.
      cbn [seq map Nat.sub]. rewrite app_nil_r, Nat.sub_0_r.
      rewrite <- Hdrop, drop_0.
      replace (a + 1)%nat with (S a) by lia.
      replace (n + 1)%nat with (S n) by lia.
      destruct fuel as [|fuel]; cbn [connect_attempts];
        destruct (Z.leb_spec (Z.of_nat (S a) + 1) max_retries); try lia.
      * reflexivity.
      * reflexivity.
Qed.

(** X21: [socket_connect_with_retry] calls [connect] until it succeeds, at
    most max_retries times, and sleeps between two attempts, not after the
    last: 1000 ms after the first failure, then twice the pause before,
    capped at FT_BACKOFF_MAX_MS. When no attempt succeeds it fails with
    FT_ERR_CONNECT. *)
Theorem connect_backoff (max_retries : Z) (w : ConnectWorld) :
  0 <= max_retries < 2 ^ 31 - 1 -> resolves w = true ->
  (forall (k : nat) (rest : list bool),
     Z.of_nat k < max_retries ->
     connect_script w = replicate k false ++ true :: rest ->
     socket_connect_with_retry max_retries w =
     (Some (Ok tt),
      mkConnectWorld true rest (connects w + k + 1)
        (slept w ++ map backoff (seq 0 k)))) /\
  (Forall (fun b => b = false) (take (Z.to_nat max_retries) (connect_script w)) ->
   socket_connect_with_retry max_retries w =
   (Some (Err FT_ERR_CONNECT),
    mkConnectWorld true (drop (Z.to_nat max_retries) (connect_script w))
      (connects w + Z.to_nat max_retries)
      (slept w ++ map backoff (seq 0 (Z.to_nat max_retries - 1))))).
Proof.
  intros Hmax Hres. unfold socket_connect_with_retry. rewrite Hres.
  cbn [negb]. change 1000 with (backoff 0). change 1 with (Z.of_nat 0 + 1).
  split.
  - intros k rest Hk Hscript.
    rewrite (connect_attempts_fail max_retries k 0) by
      (lia || (rewrite Hscript, take_app_length' by (by rewrite length_replicate);
               apply Forall_forall; intros b Hb;
               by apply elem_of_replicate in Hb as [-> _])).
    rewrite Hscript, drop_app_length' by (by rewrite length_replicate).
    destruct (Z.to_nat max_retries - k)%nat as [|fuel] eqn:Hfuel; [lia|].
    cbn [connect_attempts connect_script resolves connects slept tail].
    destruct (Z.leb_spec (Z.of_nat (0 + k) + 1) max_retries); [|lia].
    rewrite Hres. do 3 f_equal; [lia|].
    do 2 f_equal. lia.
  - intros Hfail.
    rewrite (connect_attempts_fail max_retries (Z.to_nat max_retries) 0)
      by (done || lia).
    rewrite Nat.sub_diag. cbn [connect_attempts].
    destruct (Z.leb_spec (Z.of_nat (0 + Z.to_nat max_retries) + 1) max_retries);
      [lia|].
    rewrite Hres. do 3 f_equal. do 2 f_equal. lia.
Qed.

Lemma connect_backoff_witness :
  socket_connect_with_retry 5 third_attempt_connects =
    (Some (Ok tt), mkConnectWorld true [] 3 [1000; 2000]) /\
  socket_connect_with_retry 5 unreachable_server =
    (Some (Err FT_ERR_CONNECT), mkConnectWorld true [] 5 [1000; 2000; 4000; 8000]).
Proof.
  split.
  - destruct (connect_backoff 5 third_attempt_connects) as [Hok _];
      [lia | reflexivity |].
    exact (Hok 2%nat [] ltac:(lia) eq_refl).
  - destruct (connect_backoff 5 unreachable_server) as [_ Hfail];
      [lia | reflexivity |].
    apply Hfail. constructor.
Defined.

(** * The 64-bit byte swap of platform.h *)

Lemma htonll_value `{Host} x :
  is_u64 x -> htonll x = if big_endian then x else bswap 8 x.
Proof.
  intros Hx. unfold htonll. destruct big_endian eqn:Hbe.
  - by rewrite htonl_1_big.
  - rewrite htonl_1_little by done. unfold htonl. rewrite Hbe.
    by apply swap64_bswap.
Qed.

Lemma native_val_native_bytes `{Host} n x :
  native_val (native_bytes n x) = x mod 256 ^ Z.of_nat n.
Proof.
  unfold native_val, native_bytes.
  destruct big_endian; [apply be_val_be_bytes | apply le_val_le_bytes].
Qed.

(** X22: the macros [htonll] and [ntohll] of platform.h, on a 64-bit value:
    on a little-endian host they reverse its eight bytes, on a big-endian
    host they leave it alone, so that the value stored is always
    big-endian in memory; the result fits 64 bits and [ntohll] undoes
    [htonll]. *)
Theorem htonll_swaps_bytes `{Host} (x : Z) :
  is_u64 x ->
  htonll x = (if big_endian then x else bswap 8 x) /\
  is_u64 (htonll x) /\
  native_bytes 8 (htonll x) = be_bytes 8 x /\
  ntohll (htonll x) = x.
Proof.
  intros Hx. split; [by apply htonll_value|].
  assert (is_u64 (htonll x)) as Hy.
  { rewrite htonll_value by done. destruct big_endian; [done|].
    apply (bswap_bounds 8). }
  split; [done|]. split; [by apply native_bytes_htonll|].
  rewrite <- (Z.mod_small (htonll x) (256 ^ Z.of_nat 8)) at 1 by apply Hy.
  rewrite <- native_val_native_bytes.
  by apply ntohll_htonll_memory.
Qed.

Lemma htonll_swaps_bytes_witness :
  @htonll little_endian_host 0x0102030405060708 = 0x0807060504030201 /\
  @ntohll little_endian_host (@htonll little_endian_host 0x0102030405060708)
    = 0x0102030405060708.
Proof.
  destruct (@htonll_swaps_bytes little_endian_host 0x0102030405060708)
    as (Hvalue & _ & _ & Hback); [by_evaluation|].
  split; [|exact Hback]. rewrite Hvalue. vm_compute. reflexivity.
Defined.

(** * The name the sender announces *)

Lemma after_last_some sep s r :
  after_last sep s = Some r ->
  exists pre, s = pre ++ sep :: r /\ Forall (fun c => c <> sep) r.
Proof.
  revert r. induction s as [|c rest IH]; intros r; simpl; [done|].
  destruct (after_last sep rest) as [r1|] eqn:Hrest.
  - intros [= <-]. destruct (IH r1 eq_refl) as (pre & -> & Hr).
    exists (c :: pre). done.
  - destruct (Z.eqb_spec c sep) as [->|]; [|done].
    intros [= <-]. exists []. split; [done|].
    clear IH. induction rest as [|d rest IH]; [done|].
    simpl in Hrest. destruct (after_last sep rest); [done|].
    destruct (Z.eqb_spec d sep); [done|]. constructor; [done|]. by apply IH.
Qed.

Lemma after_last_none sep s :
  after_last sep s = None -> Forall (fun c => c <> sep) s.
Proof.
  induction s as [|c rest IH]; simpl; [done|].
  destruct (after_last sep rest); [done|].
  destruct (Z.eqb_spec c sep); [done|]. intros _. constructor; [done|]. by apply IH.
Qed.

Lemma cstr_app_zero a l : Forall (fun c => c <> 0) a -> cstr (a ++ 0 :: l) = a.
Proof.
  induction a as [|c a IH]; intros Ha; simpl; [done|].
  inversion Ha as [|? ? Hc Ha']; subst.
  destruct (Z.eqb_spec c 0); [done|]. by rewrite IH.
Qed.

Lemma strncpy_terminated src n :
  exists zeros, strncpy src n ++ [0] = take n src ++ 0 :: zeros.
Proof.
  unfold strncpy. rewrite take_app, take_replicate.
  exists (replicate (Nat.min (n - length src) n) 0).
  rewrite <- app_assoc. f_equal.
  generalize (Nat.min (n - length src) n). intros k.
  induction k as [|k IH]; [done|]. simpl. by rewrite IH.
Qed.

(** X23: the name [file_get_metadata] reports is the part of the path after
    its last '/', or the whole path when it holds none, cut to 255
    characters and terminated within the 256-byte field; it contains no
    '/'. *)
Theorem file_get_metadata_basename (filepath : list Z) (w w' : World)
    (metadata : FileMetadata) :
  Forall (fun c => c <> 0) filepath ->
  file_get_metadata filepath w = (Ok metadata, w') ->
  exists dir base,
    (filepath = base /\ dir = [] \/ filepath = dir ++ PATH_SEPARATOR :: base) /\
    Forall (fun c => c <> PATH_SEPARATOR) base /\
    cstr (m_filename metadata) = take 255 base /\
    length (m_filename metadata) = 256%nat /\
    w' = w.
Proof.
  intros Hpath. unfold file_get_metadata.
  destruct (src_stat w) as [st|]; [|done].
  destruct (negb (st_is_reg st)); [done|].
  intros [= <- <-]. cbn [m_filename].
  assert (forall base, Forall (fun c => c <> 0) base ->
            cstr (strncpy base (FT_MAX_FILENAME_LEN - 1) ++ [0]) = take 255 base /\
            length (strncpy base (FT_MAX_FILENAME_LEN - 1) ++ [0]) = 256%nat)
    as Hname.
  { intros base Hbase. split.
    - destruct (strncpy_terminated base (FT_MAX_FILENAME_LEN - 1)) as [zeros ->].
      apply cstr_app_zero. by apply Forall_take.
    - rewrite length_app, length_strncpy. reflexivity. }
  destruct (after_last PATH_SEPARATOR filepath) as [base|] eqn:Hlast; simpl.
  - apply after_last_some in Hlast as (dir & -> & Hbase).
    exists dir, base. split; [by right|]. split; [done|].
    apply Forall_app in Hpath as [_ Hpath]. inversion Hpath; subst.
    destruct (Hname base) as [? ?]; done.
  - apply after_last_none in Hlast.
    exists [], filepath. split; [by left|]. split; [done|].
    destruct (Hname filepath) as [? ?]; done.
Qed.

Lemma file_get_metadata_basename_witness :
  exists dir base,
    (bytes_of_string "dir/sub/data.bin" = base /\ dir = [] \/
     bytes_of_string "dir/sub/data.bin" = dir ++ PATH_SEPARATOR :: base) /\
    Forall (fun c => c <> PATH_SEPARATOR) base /\
    cstr (m_filename
            (mkFileMetadata
               (strncpy (bytes_of_string "data.bin") 255 ++ [0]) 10 420 0))
      = take 255 base.
Proof.
  destruct (file_get_metadata_basename (bytes_of_string "dir/sub/data.bin")
              (session [] true 10 []) (session [] true 10 [])
              (mkFileMetadata
                 (strncpy (bytes_of_string "data.bin") 255 ++ [0]) 10 420 0))
    as (dir & base & Hsplit & Hbase & Hname & _).
  - vm_compute. repeat constructor; congruence.
  - vm_compute. reflexivity.
  - exists dir, base. done.
Defined.

(** * The order in which chunks are sent *)

Lemma send_chunk_retry_first `{Host} chunk_id chunk_offset buf bytes_read
    (fuel : nat) (rc seq : Z) (w : World) r w' :
  rc < FT_MAX_RETRIES ->
  send_chunk_retry (S fuel) chunk_id chunk_offset buf bytes_read rc seq w = (r, w') ->
  exists k : nat,
    history w' = history w ++ replicate (S k) (CallSendChunk chunk_id) /\
    Z.of_nat (S k) <= FT_MAX_RETRIES - rc.
Proof.
  unfold FT_MAX_RETRIES. intros Hrc. cbn [send_chunk_retry]. unfold FT_MAX_RETRIES.
  destruct (Z.ltb_spec rc 3); [|lia].
  assert (forall w1 r w',
    history w1 = history w ++ [CallSendChunk chunk_id] ->
    (if rc + 1 >=? 3 then (Some (@Cleanup Z), w1)
     else send_chunk_retry fuel chunk_id chunk_offset buf bytes_read (rc + 1)
            (u64 (seq + 1)) w1) = (r, w') ->
    exists k : nat,
      history w' = history w ++ replicate (S k) (CallSendChunk chunk_id) /\
      Z.of_nat (S k) <= 3 - rc) as Hagain.
  { intros w1 r1 w1' Hh1.
    destruct (Z.geb_spec (rc + 1) 3) as [Hge|Hlt].
    - intros [= <- <-]. exists 0%nat. split; [done|lia].
    - intros Hrun. apply send_chunk_retry_attempts in Hrun as (k & Hk & Hle & _).
      exists k. split.
      + rewrite Hk, Hh1, <- app_assoc. reflexivity.
      + unfold FT_MAX_RETRIES in Hle. lia. }
  destruct (send_chunk chunk_id chunk_offset buf bytes_read seq w)
    as [[[]|e] w1] eqn:Hsend;
    pose proof (history_send_chunk _ _ _ _ _ _ _ _ Hsend) as Hh1.
  - destruct (recv_chunk_ack w1) as [[ack|e] w2] eqn:Hack;
      pose proof (history_recv_chunk_ack _ _ _ Hack) as Hh2.
    + destruct (negb (ChunkAck.status ack =? 0)).
      * apply Hagain. congruence.
      * intros [= <- <-]. exists 0%nat. split; [simpl; congruence|lia].
    + apply Hagain. congruence.
  - apply Hagain. congruence.
Qed.

Lemma history_file_read_chunk offset n : preserves history (file_read_chunk offset n).
Proof.
  intros w r w'. unfold file_read_chunk.
  destruct (2 ^ 63 <=? offset); [by intros [= _ <-]|].
  destruct (match read_script w with [] => ReadOk | o :: _ => o end);
    try by intros [= _ <-].
  destruct (_ =? _)%nat; by intros [= _ <-].
Qed.

Lemma send_file_chunk_calls `{Host} file_info chunk_id st w r w' :
  send_file_chunk file_info chunk_id st w = (Some r, w') ->
  exists k : nat,
    history w' = history w ++ replicate k (CallSendChunk chunk_id) /\
    (k <= 3)%nat /\
    (forall st', r = Continue st' -> (1 <= k)%nat).
Proof.
  unfold send_file_chunk.
  destruct (file_read_chunk _ _ w) as [[chunk_buffer|e] w1] eqn:Hread;
    pose proof (history_file_read_chunk _ _ _ _ _ Hread) as Hh.
  2:{ intros [= <- <-]. exists 0%nat. simpl. rewrite app_nil_r.
      split; [done|]. split; [lia|done]. }
  destruct (send_chunk_retry _ _ _ _ _ _ _ w1) as [r1 w2] eqn:Hretry.
  change (Z.to_nat FT_MAX_RETRIES) with 3%nat in Hretry.
  apply send_chunk_retry_first in Hretry as (k & Hk & Hle); [|by_evaluation].
  unfold FT_MAX_RETRIES in Hle.
  destruct r1 as [[sequence_num|]|]; [| |done].
  - intros [= <- <-]. exists (S k). rewrite Hk, Hh. split; [done|]. split; lia.
  - intros [= <- <-]. exists (S k). rewrite Hk, Hh. split; [done|]. split; lia.
Qed.

Lemma send_chunks_calls `{Host} file_info :
  FileInfo.total_chunks file_info < 2 ^ 64 ->
  forall (fuel : nat) (chunk_id : Z) (st : SendState) (w : World) r w',
  0 <= chunk_id ->
  send_chunks fuel file_info chunk_id st w = (Some r, w') ->
  exists ks : list nat,
    history w' = history w ++ chunk_calls chunk_id ks /\
    Forall (fun k => (k <= 3)%nat) ks /\
    (forall st', r = Continue st' ->
       Forall (fun k => (1 <= k)%nat) ks /\
       Z.of_nat (length ks) = Z.max 0 (FileInfo.total_chunks file_info - chunk_id)).
Proof.
  intros Htotal.
  induction fuel as [|fuel IH]; intros chunk_id st w r w' Hid; cbn [send_chunks].
  - destruct (Z.ltb_spec chunk_id (FileInfo.total_chunks file_info)); [done|].
    intros [= <- <-]. exists []. simpl. rewrite app_nil_r.
    split; [done|]. split; [done|]. intros _ _. split; [done|lia].
  - destruct (Z.ltb_spec chunk_id (FileInfo.total_chunks file_info)).
    2:{ intros [= <- <-]. exists []. simpl. rewrite app_nil_r.
        split; [done|]. split; [done|]. intros _ _. split; [done|lia]. }
    destruct (send_file_chunk file_info chunk_id st w) as [[[st1|]|] w1] eqn:Hchunk;
      [| |done].
    + apply send_file_chunk_calls in Hchunk as (k & Hk & Hle & Hpos).
      unfold u64. rewrite Z.mod_small by lia.
      intros Hrest. apply IH in Hrest as (ks & Hks & Hall & Hdone); [|lia].
      exists (k :: ks). split; [|split].
      * simpl. rewrite Hks, Hk, <- app_assoc. reflexivity.
      * by constructor.
      * intros st' Hr. destruct (Hdone st' Hr) as [Hones Hlen].
        split; [constructor; [by eapply Hpos|done]|].
        simpl length. lia.
    + apply send_file_chunk_calls in Hchunk as (k & Hk & Hle & _).
      intros [= <- <-]. exists [k]. simpl. rewrite app_nil_r.
      split; [done|]. split; [constructor; [exact Hle|constructor]|]. done.
Qed.

Lemma history_file_get_metadata filepath : preserves history (file_get_metadata filepath).
Proof.
  intros w r w'. unfold file_get_metadata.
  destruct (src_stat w) as [st|]; [|by intros [= _ <-]].
  destruct (negb (st_is_reg st)); by intros [= _ <-].
Qed.

Lemma history_file_open_read filepath : preserves history (file_open_read filepath).
Proof.
  intros w r w'. unfold file_open_read.
  destruct (src_open_errno w) as [[]|]; by intros [= _ <-].
Qed.

#[local] Hint Resolve history_file_get_metadata history_file_open_read : preserves.

Lemma history_send_file_open filepath : preserves history (send_file_open filepath).
Proof. unfold send_file_open. preserves_tac. Qed.

Lemma history_send_file_begin `{Host} file_info :
  preserves history (send_file_begin file_info).
Proof.
  unfold send_file_begin, perform_handshake_client, send_file_info.
  preserves_tac. intros w r w'. destruct (malloc_ok w); by intros [= _ <-].
Qed.

(** X24: [send_file] sends the chunks in ascending chunk_id order starting
    at 0, never goes back to an earlier chunk, and calls [send_chunk] at
    most FT_MAX_RETRIES times for one chunk. When it returns 0, it has
    called [send_chunk] at least once for each of the total_chunks chunks. *)
Theorem send_file_sends_chunks_in_order `{Host} (filepath : list Z) (w w' : World)
    (result : Z) :
  send_file filepath w = (Some result, w') ->
  exists ks : list nat,
    history w' = history w ++ chunk_calls 0 ks /\
    Forall (fun k => (k <= 3)%nat) ks /\
    (result = 0 ->
     Forall (fun k => (1 <= k)%nat) ks /\
     exists metadata w1,
       send_file_open filepath w = (Ok metadata, w1) /\
       Z.of_nat (length ks) = FileInfo.total_chunks (prepare_file_info metadata)).
Proof.
  unfold send_file.
  destruct (send_file_open filepath w) as [[metadata|e] w1] eqn:Hopen;
    pose proof (history_send_file_open _ _ _ _ Hopen) as Hh1.
  2:{ intros [= <- <-]. exists []. simpl. rewrite app_nil_r. done. }
  destruct (send_file_begin _ w1) as [[sequence_num|e] w2] eqn:Hbegin;
    pose proof (history_send_file_begin _ _ _ _ Hbegin) as Hh2.
  2:{ intros [= <- <-]. exists []. simpl. rewrite app_nil_r.
      split; [congruence|done]. }
  assert (0 <= FileInfo.total_chunks (prepare_file_info metadata) < 2 ^ 64)
    as Htotal.
  { cbn [prepare_file_info FileInfo.total_chunks]. unfold u64, FT_DEFAULT_CHUNK_SIZE.
    pose proof (Z.mod_pos_bound (m_file_size metadata + 524288 - 1) (2 ^ 64)).
    split; [apply Z.div_pos; lia | apply Z.div_lt_upper_bound; lia]. }
  destruct (send_chunks _ _ _ _ w2) as [[r|] w3] eqn:Hloop; [|done].
  apply send_chunks_calls in Hloop as (ks & Hks & Hall & Hdone); [|lia..].
  destruct r as [st'|]; intros [= <- <-]; exists ks;
    (split; [congruence|]); (split; [done|]); [|done].
  intros _. destruct (Hdone st' eq_refl) as [Hones Hlen].
  split; [done|]. exists metadata, w1. split; [done|]. lia.
Qed.

Lemma send_file_sends_chunks_in_order_witness :
  exists ks : list nat,
    history (snd source_shrank) = chunk_calls 0 ks /\
    Forall (fun k => (k <= 3)%nat) ks /\
    Forall (fun k => (1 <= k)%nat) ks.
Proof.
  destruct (@send_file_sends_chunks_in_order little_endian_host
              (bytes_of_string "dir/data.bin")
              (session
                 (message MSG_HANDSHAKE_ACK 1 [1; 0; 0; 0]
                  ++ message MSG_FILE_ACK 2 [0; 0; 0; 0]
                  ++ message MSG_CHUNK_ACK 3 (be_bytes 8 0 ++ [0; 0; 0; 0]))
                 true 10 [7; 7; 7; 7])
              (snd source_shrank) 0) as (ks & Hks & Hall & Hdone).
  - vm_compute. reflexivity.
  - exists ks. split; [exact Hks|]. split; [exact Hall|].
    exact (proj1 (Hdone eq_refl)).
Defined.

(** * A whole transfer *)

Lemma message_bytes_message `{Host} msg_type sequence_num payload hb :
  known_msg_type msg_type -> is_u64 sequence_num ->
  is_u64 (Z.of_nat (length payload)) -> length hb = 32%nat ->
  message_bytes msg_type sequence_num payload hb =
  message msg_type sequence_num payload.
Proof.
  intros Ht Hseq Hlen Hhb.
  apply (message_bytes_host H little_endian_host); try done.
Qed.

Lemma chunk_message_bytes `{Host} chunk_id chunk_offset data sequence_num hb cb :
  is_u64 chunk_id -> is_u64 chunk_offset -> is_u64 sequence_num ->
  is_u32 (Z.of_nat (length data)) ->
  length hb = 32%nat -> length cb = 24%nat ->
  message_bytes MSG_CHUNK_DATA sequence_num
    (chunk_payload chunk_id chunk_offset data (crc32_compute data) cb) hb =
  chunk_message chunk_id chunk_offset data (crc32_compute data) sequence_num.
Proof.
  intros Hid Hoff Hseq Hlen Hhb Hcb.
  rewrite (chunk_payload_host H little_endian_host _ _ _ _ _ (replicate 24 0))
    by (done || apply crc32_compute_u32).
  apply message_bytes_message; [unfold known_msg_type, MSG_CHUNK_DATA; lia|done| |done].
  rewrite length_chunk_payload by done. unfold is_u64, is_u32 in *. lia.
Qed.

Lemma sends_nothing w w' : tx_log w' = tx_log w -> sends w w' [].
Proof. intros Hlog. exists []. by rewrite app_nil_r. Qed.

Lemma sends_then w w1 w2 a b : sends w w1 a -> sends w1 w2 b -> sends w w2 (a ++ b).
Proof.
  intros (l1 & Hl1 & <-) (l2 & Hl2 & <-). exists (l1 ++ l2).
  by rewrite Hl2, Hl1, <- app_assoc, wire_app.
Qed.

Lemma sends_sent_since w w' bytes : sends w w' bytes -> sent_since w w' = bytes.
Proof. intros (l & Hl & <-). by apply sent_since_log. Qed.

Lemma file_piece_length chunk_size chunk_id data :
  0 <= chunk_size ->
  Z.of_nat (length (file_piece chunk_size chunk_id data)) <= chunk_size.
Proof. intros Hcs. unfold file_piece. rewrite length_take. lia. Qed.

(** What the sender reads for a chunk, when the file is as long as [stat]
    said. *)
Lemma sender_reads_file_piece chunk_size chunk_id data :
  0 < chunk_size -> 0 <= chunk_id ->
  chunk_id * chunk_size <= Z.of_nat (length data) ->
  Z.of_nat (length data) + chunk_size < 2 ^ 64 ->
  let chunk_offset := u64 (chunk_id * chunk_size) in
  take (Z.to_nat (if u64 (chunk_offset + chunk_size) >? Z.of_nat (length data)
                  then u64 (Z.of_nat (length data) - chunk_offset)
                  else chunk_size))
    (drop (Z.to_nat chunk_offset) data)
  = file_piece chunk_size chunk_id data.
Proof.
  intros Hcs Hid Hoff Hmax chunk_offset. subst chunk_offset. unfold file_piece.
  assert (0 <= chunk_id * chunk_size) by (apply Z.mul_nonneg_nonneg; lia).
  unfold u64. rewrite !(Z.mod_small (chunk_id * chunk_size)) by lia.
  rewrite (Z.mod_small (chunk_id * chunk_size + chunk_size)) by lia.
  destruct (Z.gtb_spec (chunk_id * chunk_size + chunk_size) (Z.of_nat (length data))).
  - rewrite Z.mod_small by lia.
    rewrite !take_ge by (rewrite length_drop; lia). reflexivity.
  - reflexivity.
Qed.

Lemma send_file_chunk_acked `{Host} file_info chunk_id st w ack_seq rest :
  let chunk_size := FileInfo.chunk_size file_info in
  let piece := file_piece chunk_size chunk_id (src_data w) in
  0 < chunk_size < 2 ^ 32 -> 0 <= chunk_id -> is_u64 chunk_id ->
  FileInfo.file_size file_info = Z.of_nat (length (src_data w)) ->
  chunk_id * chunk_size <= Z.of_nat (length (src_data w)) ->
  Z.of_nat (length (src_data w)) < 2 ^ 62 ->
  read_script w = [] -> tx_script w = [] ->
  is_u64 (s_sequence_num st) -> is_u64 ack_seq ->
  rx w = map RxByte (message MSG_CHUNK_ACK ack_seq (chunk_ack_payload chunk_id 0))
         ++ rest ->
  exists w',
    send_file_chunk file_info chunk_id st w =
      (Some (Continue (mkSendState (u64 (s_sequence_num st + 1))
                         (u64 (s_sent_chunks st + 1))
                         (u64 (s_sent_bytes st + Z.of_nat (length piece))))), w') /\
    sends w w'
      (chunk_message chunk_id (chunk_id * chunk_size) piece (crc32_compute piece)
         (s_sequence_num st)) /\
    rx w' = rest /\ src_data w' = src_data w /\
    read_script w' = [] /\ tx_script w' = [].
Proof.
  intros chunk_size piece Hcs Hid Hid64 Hsize Hoff Hmax Hrs Htx Hseq Haseq Hrx.
  assert (0 <= chunk_id * chunk_size) as Hoff0 by (apply Z.mul_nonneg_nonneg; lia).
  unfold send_file_chunk. fold chunk_size. rewrite Hsize.
  unfold file_read_chunk. rewrite Hrs. simpl tail.
  destruct (Z.leb_spec (2 ^ 63) (u64 (chunk_id * chunk_size))) as [Hbig|_].
  { unfold u64 in Hbig. rewrite Z.mod_small in Hbig by lia. lia. }
  cbn [src_data set_read_script].
  rewrite sender_reads_file_piece by lia. fold piece.
  change (Z.to_nat FT_MAX_RETRIES) with 3%nat.
  cbn [send_chunk_retry].
  change (0 <? FT_MAX_RETRIES) with true. cbv iota.
  rewrite send_chunk_ok by done.
  rewrite <- (message_bytes_message MSG_CHUNK_ACK ack_seq
                (chunk_ack_payload chunk_id 0) (replicate 32 0)) in Hrx
    by (done || by_evaluation || (unfold known_msg_type, MSG_CHUNK_ACK; lia)).
  erewrite (recv_chunk_ack_message _ chunk_id 0 ack_seq (replicate 32 0) rest);
    [| exact Hid64 | exact Haseq | apply length_replicate | exact Hrx].
  cbn [ChunkAck.status]. simpl negb. cbv iota.
  eexists. split; [reflexivity|].
  cbn [rx src_data read_script tx_script set_rx set_tx set_history set_read_script].
  split; [|done].
  eexists. cbn [tx_log set_rx set_tx set_history set_read_script].
  split; [reflexivity|].
  change (?a :: ?b :: sent_data piece) with ([a; b] ++ sent_data piece).
  rewrite (wire_app [_; _] (sent_data piece)), wire_sent_data.
  cbn [wire flat_map]. rewrite app_nil_r.
  assert (is_u32 (Z.of_nat (length piece))) as Hplen.
  { pose proof (file_piece_length chunk_size chunk_id (src_data w)). fold piece in H0.
    unfold is_u32. lia. }
  unfold u64, u32. rewrite !Z.mod_small by (apply Hplen || lia).
  rewrite <- (chunk_message_bytes chunk_id (chunk_id * chunk_size) piece
                (s_sequence_num st) (uninit_bytes 32 w) (uninit_bytes 24 w))
    by (done || (unfold is_u64; lia) || apply length_uninit_bytes).
  unfold message_bytes, chunk_payload.
  rewrite length_app, length_serialize_chunk_header by apply length_uninit_bytes.
  rewrite <- app_assoc.
  replace (Z.of_nat (24 + length piece)) with (24 + Z.of_nat (length piece)) by lia.
  reflexivity.
Qed.

Lemma send_chunks_all `{Host} file_info data :
  let chunk_size := FileInfo.chunk_size file_info in
  let total := FileInfo.total_chunks file_info in
  0 < chunk_size < 2 ^ 32 ->
  FileInfo.file_size file_info = Z.of_nat (length data) ->
  (total - 1) * chunk_size <= Z.of_nat (length data) ->
  Z.of_nat (length data) < 2 ^ 62 ->
  forall (k fuel : nat) (chunk_id : Z) (st : SendState) (w : World)
         (ack_seq : Z) (rest : list rx_item),
  0 <= chunk_id -> chunk_id + Z.of_nat k = total -> total < 2 ^ 64 ->
  (k <= fuel)%nat ->
  src_data w = data -> read_script w = [] -> tx_script w = [] ->
  0 <= s_sequence_num st -> s_sequence_num st + Z.of_nat k < 2 ^ 64 ->
  0 <= ack_seq -> ack_seq + Z.of_nat k < 2 ^ 64 ->
  rx w = map RxByte (chunk_acks k chunk_id ack_seq) ++ rest ->
  exists st' w',
    send_chunks fuel file_info chunk_id st w = (Some (Continue st'), w') /\
    sends w w' (chunk_messages k chunk_id (s_sequence_num st) chunk_size data) /\
    rx w' = rest.
Proof.
  intros chunk_size total Hcs Hsize Hcover Hmax.
  induction k as [|k IH];
    intros fuel chunk_id st w ack_seq rest Hid Hk Htotal Hfuel Hdata Hrs Htx
      Hseq0 Hseq Hack0 Hack Hrx.
  - exists st, w. split; [|split].
    + destruct fuel; cbn [send_chunks]; fold total;
        destruct (Z.ltb_spec chunk_id total); try lia; reflexivity.
    + by apply sends_nothing.
    + simpl in Hrx. exact Hrx.
  - destruct fuel as [|fuel]; [lia|]. cbn [send_chunks]. fold total.
    destruct (Z.ltb_spec chunk_id total); [|lia].
    cbn [chunk_acks] in Hrx. rewrite map_app, <- app_assoc in Hrx.
    assert (chunk_id * chunk_size <= Z.of_nat (length data)) as Hoff.
    { transitivity ((total - 1) * chunk_size); [|done].
      apply Z.mul_le_mono_nonneg_r; lia. }
    destruct (send_file_chunk_acked file_info chunk_id st w ack_seq
                (map RxByte (chunk_acks k (chunk_id + 1) (ack_seq + 1)) ++ rest))
      as (w1 & -> & Hsent1 & Hrx1 & Hdata1 & Hrs1 & Htx1);
      [ done | done | unfold is_u64; lia | by rewrite Hdata | by rewrite Hdata
      | by rewrite Hdata | done | done | unfold is_u64; lia | unfold is_u64; lia
      | done | ].
    fold chunk_size in Hsent1 |- *. rewrite Hdata in Hsent1 |- *.
    replace (u64 (chunk_id + 1)) with (chunk_id + 1)
      by (unfold u64; rewrite Z.mod_small; lia).
    destruct (IH fuel (chunk_id + 1)
                (mkSendState (u64 (s_sequence_num st + 1)) (u64 (s_sent_chunks st + 1))
                   (u64 (s_sent_bytes st
                         + Z.of_nat (length (file_piece chunk_size chunk_id data)))))
                w1 (ack_seq + 1) rest)
      as (st' & w' & -> & Hsent & Hrx');
      try (cbn [s_sequence_num]; unfold u64; rewrite ?Z.mod_small by lia; lia);
      try done; try congruence; try lia.
    exists st', w'. split; [reflexivity|]. split; [|done].
    cbn [chunk_messages]. eapply sends_then; [exact Hsent1|].
    cbn [s_sequence_num] in Hsent. unfold u64 in Hsent.
    rewrite Z.mod_small in Hsent by lia. exact Hsent.
Qed.

Lemma perform_handshake_client_ok `{Host} w rest :
  tx_script w = [] ->
  rx w = map RxByte (message MSG_HANDSHAKE_ACK 1 [1; 0; 0; 0]) ++ rest ->
  perform_handshake_client w =
  (Ok tt,
   set_rx rest
     (set_tx []
        (tx_log w
         ++ [Sent (protocol_serialize_header
                     (protocol_init_header MSG_HANDSHAKE_REQ 0 4) (uninit_bytes 32 w));
             Sent [1; 0; 0; 0]]) w)).
Proof.
  intros Htx Hrx.
  rewrite <- (message_bytes_message MSG_HANDSHAKE_ACK 1 [1; 0; 0; 0]
                (replicate 32 0)) in Hrx
    by (done || by_evaluation || (unfold known_msg_type, MSG_HANDSHAKE_ACK; lia)).
  unfold perform_handshake_client, bind, uninit.
  rewrite send_message_ok by (done || lia).
  erewrite (recv_message_of_bytes _ 4 _ MSG_HANDSHAKE_ACK 1 [1; 0; 0; 0]
              (replicate 32 0) rest);
    [| unfold known_msg_type, MSG_HANDSHAKE_ACK; lia | by_evaluation..
     | exact Hrx ].
  reflexivity.
Qed.

Lemma send_file_info_ok `{Host} file_info sequence_num w :
  wf_file_info file_info -> tx_script w = [] ->
  send_file_info file_info sequence_num w =
  (Ok tt,
   set_tx []
     (tx_log w
      ++ [Sent (protocol_serialize_header
                  (protocol_init_header MSG_FILE_INFO sequence_num 1024)
                  (uninit_bytes 32 w));
          Sent (file_info_fields file_info ++ drop 992 (uninit_bytes 1024 w))]) w).
Proof.
  intros Hwf Htx.
  assert (length (file_info_fields file_info
                  ++ drop 992 (uninit_bytes 1024 w)) = 1024%nat) as Hlen.
  { rewrite length_app, length_file_info_fields, length_drop, length_uninit_bytes
      by done. reflexivity. }
  unfold send_file_info, bind, uninit.
  rewrite serialize_file_info_bytes by done.
  unfold FT_FILE_INFO_SIZE.
  rewrite send_message_ok;
    [| done | by_evaluation
     | intros Hnil; apply (f_equal length) in Hnil;
       rewrite length_take, Hlen in Hnil; simpl in Hnil; lia ].
  rewrite Nat2Z.id, take_ge by (rewrite Hlen; lia).
  reflexivity.
Qed.

Lemma send_file_begin_ok `{Host} file_info w rest :
  wf_file_info file_info -> tx_script w = [] -> malloc_ok w = true ->
  rx w = map RxByte (message MSG_HANDSHAKE_ACK 1 [1; 0; 0; 0]
                     ++ message MSG_FILE_ACK 2 [0; 0; 0; 0]) ++ rest ->
  exists w',
    send_file_begin file_info w = (Ok 3, w') /\
    sends w w'
      (message MSG_HANDSHAKE_REQ 0 [1; 0; 0; 0]
       ++ message MSG_FILE_INFO 2
            (file_info_fields file_info ++ drop 992 (uninit_bytes 1024 w))) /\
    rx w' = rest /\ src_data w' = src_data w /\
    read_script w' = read_script w /\ tx_script w' = [].
Proof.
  intros Hwf Htx Hmalloc Hrx.
  rewrite map_app, <- app_assoc in Hrx.
  assert (length (file_info_fields file_info
                  ++ drop 992 (uninit_bytes 1024 w)) = 1024%nat) as Hlen.
  { rewrite length_app, length_file_info_fields, length_drop, length_uninit_bytes
      by done. reflexivity. }
  unfold send_file_begin. unfold bind at 1.
  rewrite (perform_handshake_client_ok w _ Htx Hrx).
  unfold bind at 1. rewrite send_file_info_ok by done.
  unfold bind, uninit.
  erewrite (recv_message_of_bytes _ 16 _ MSG_FILE_ACK 2 [0; 0; 0; 0]
              (replicate 32 0) rest);
    [| unfold known_msg_type, MSG_FILE_ACK; lia | by_evaluation..
     | cbn [rx set_rx set_tx];
       rewrite (message_bytes_message MSG_FILE_ACK 2 [0; 0; 0; 0] (replicate 32 0))
         by (done || by_evaluation || (unfold known_msg_type, MSG_FILE_ACK; lia));
       reflexivity ].
  cbn [with_checksum protocol_init_header MessageHeader.msg_type].
  change (u8 MSG_FILE_ACK =? MSG_ERROR) with false.
  change (negb (u8 MSG_FILE_ACK =? MSG_FILE_ACK)) with false. cbv iota.
  cbn [malloc_ok set_rx set_tx]. rewrite Hmalloc.
  eexists. split; [reflexivity|].
  cbn [rx src_data read_script tx_script set_rx set_tx].
  split; [|done].
  eexists. cbn [tx_log set_rx set_tx]. rewrite <- app_assoc.
  split; [reflexivity|].
  cbn [wire flat_map app]. rewrite app_nil_r.
  cbn [uninit_bytes junk set_rx set_tx].
  change (take ?n (junk w ++ replicate ?n 0)) with (uninit_bytes n w).
  rewrite <- (message_bytes_message MSG_HANDSHAKE_REQ 0 [1; 0; 0; 0]
                (uninit_bytes 32 w));
    [| unfold known_msg_type, MSG_HANDSHAKE_REQ; lia | by_evaluation..
     | apply length_uninit_bytes ].
  rewrite <- (message_bytes_message MSG_FILE_INFO 2 _ (uninit_bytes 32 w));
    [| unfold known_msg_type, MSG_FILE_INFO; lia | by_evaluation
     | rewrite Hlen; by_evaluation | apply length_uninit_bytes ].
  unfold message_bytes. rewrite Hlen, <- !app_assoc. reflexivity.
Qed.

Lemma send_file_open_ok filepath w metadata w' :
  send_file_open filepath w = (Ok metadata, w') ->
  w' = w /\ is_u64 (m_file_size metadata) /\ is_u32 (m_file_mode metadata) /\
  is_u64 (m_timestamp metadata).
Proof.
  unfold send_file_open, bind, file_get_metadata, file_open_read, ret.
  destruct (src_stat w) as [st|]; [|done].
  destruct (negb (st_is_reg st)); [done|].
  destruct (src_open_errno w) as [[]|]; try done.
  intros [= <- <-]. cbn [m_file_size m_file_mode m_timestamp].
  split; [done|]. unfold is_u64, is_u32, u64, u32.
  repeat split; apply Z.mod_pos_bound; lia.
Qed.

Lemma wf_prepare_file_info metadata :
  is_u64 (m_file_size metadata) -> is_u32 (m_file_mode metadata) ->
  is_u64 (m_timestamp metadata) ->
  wf_file_info (prepare_file_info metadata).
Proof.
  intros Hsize Hmode Htime. unfold wf_file_info, prepare_file_info.
  cbn [FileInfo.filename_len FileInfo.filename FileInfo.file_size
       FileInfo.total_chunks FileInfo.chunk_size FileInfo.file_checksum
       FileInfo.file_mode FileInfo.timestamp].
  repeat split; try apply Hsize; try apply Hmode; try apply Htime.
  - unfold u16. apply Z.mod_pos_bound. lia.
  - unfold u16. apply Z.mod_pos_bound. lia.
  - rewrite length_app, length_strncpy. reflexivity.
  - unfold u64, FT_DEFAULT_CHUNK_SIZE. apply Z.div_pos; [|lia].
    apply Z.mod_pos_bound. lia.
  - unfold u64, FT_DEFAULT_CHUNK_SIZE.
    pose proof (Z.mod_pos_bound (m_file_size metadata + 524288 - 1) (2 ^ 64)).
    apply Z.div_lt_upper_bound; lia.
  - by_evaluation.
Qed.

(** The number of chunks, when the size is that of [data]. *)
Lemma total_chunks_cover metadata (data : list Z) :
  m_file_size metadata = Z.of_nat (length data) ->
  Z.of_nat (length data) < 2 ^ 62 ->
  let total := FileInfo.total_chunks (prepare_file_info metadata) in
  0 <= total < 2 ^ 62 /\
  (total - 1) * FT_DEFAULT_CHUNK_SIZE <= Z.of_nat (length data)
    <= total * FT_DEFAULT_CHUNK_SIZE.
Proof.
  intros Hsize Hmax total. subst total.
  cbn [prepare_file_info FileInfo.total_chunks]. rewrite Hsize.
  unfold u64, FT_DEFAULT_CHUNK_SIZE. rewrite Z.mod_small by lia.
  pose proof (Z.div_mod (Z.of_nat (length data) + 524288 - 1) 524288 ltac:(lia)).
  pose proof (Z.mod_pos_bound (Z.of_nat (length data) + 524288 - 1) 524288
                ltac:(lia)).
  split; [split; [apply Z.div_pos; lia | apply Z.div_lt_upper_bound; lia]|].
  lia.
Qed.

Lemma send_file_all `{Host} filepath w metadata rest :
  send_file_open filepath w = (Ok metadata, w) ->
  m_file_size metadata = Z.of_nat (length (src_data w)) ->
  Z.of_nat (length (src_data w)) < 2 ^ 62 ->
  read_script w = [] -> tx_script w = [] -> malloc_ok w = true ->
  let file_info := prepare_file_info metadata in
  let n := Z.to_nat (FileInfo.total_chunks file_info) in
  rx w = map RxByte (receiver_replies n) ++ rest ->
  exists w',
    send_file filepath w = (Some 0, w') /\
    sends w w'
      (message MSG_HANDSHAKE_REQ 0 [1; 0; 0; 0]
       ++ message MSG_FILE_INFO 2
            (file_info_fields file_info ++ drop 992 (uninit_bytes 1024 w))
       ++ chunk_messages n 0 3 FT_DEFAULT_CHUNK_SIZE (src_data w)) /\
    rx w' = rest.
Proof.
  intros Hopen Hsize Hmax Hrs Htx Hmalloc file_info n Hrx.
  destruct (send_file_open_ok _ _ _ _ Hopen) as (_ & Hs64 & Hmode & Htime).
  pose proof (wf_prepare_file_info metadata Hs64 Hmode Htime) as Hwf.
  destruct (total_chunks_cover metadata (src_data w) Hsize Hmax) as [Htotal Hcover].
  fold file_info in Hwf, Htotal, Hcover.
  unfold receiver_replies in Hrx. rewrite !app_assoc, map_app in Hrx.
  rewrite <- !app_assoc in Hrx.
  destruct (send_file_begin_ok file_info w
              (map RxByte (chunk_acks n 0 3) ++ rest) Hwf Htx Hmalloc)
    as (w1 & Hbegin & Hsent1 & Hrx1 & Hdata1 & Hrs1 & Htx1).
  { rewrite Hrx, map_app, <- !app_assoc. reflexivity. }
  destruct (send_chunks_all file_info (src_data w)) with
    (k := n) (fuel := n) (chunk_id := 0) (st := mkSendState 3 0 0) (w := w1)
    (ack_seq := 3) (rest := rest)
    as (st' & w' & Hloop & Hsent & Hrx');
    try done; try (cbn [s_sequence_num]; lia); try (subst n; lia);
    try congruence; try apply Hcover.
  unfold send_file. rewrite Hopen. fold file_info. rewrite Hbegin.
  fold n. rewrite Hloop.
  exists w'. split; [reflexivity|]. split; [|done].
  rewrite app_assoc. eapply sends_then; [exact Hsent1|]. exact Hsent.
Qed.

(** ** The receiving side *)

Lemma file_pwrite_append offset data content :
  length content = offset -> file_pwrite offset data content = content ++ data.
Proof.
  intros <-. unfold file_pwrite.
  destruct data as [|b data]; [by rewrite app_nil_r|].
  rewrite Nat.sub_diag. simpl replicate. rewrite app_nil_r, firstn_all.
  rewrite drop_ge by lia. by rewrite app_nil_r.
Qed.

Lemma file_piece_append chunk_size chunk_id data :
  0 <= chunk_size -> 0 <= chunk_id ->
  take (Z.to_nat (chunk_id * chunk_size)) data ++ file_piece chunk_size chunk_id data
  = take (Z.to_nat ((chunk_id + 1) * chunk_size)) data.
Proof.
  intros Hcs Hid. unfold file_piece. rewrite take_take_drop. f_equal.
  assert (0 <= chunk_id * chunk_size) by (apply Z.mul_nonneg_nonneg; lia).
  lia.
Qed.

Lemma receive_chunk_step_stored `{Host} file file_info st w chunk_id chunk_offset
    data sequence_num rest :
  is_u64 chunk_id -> 0 <= chunk_offset < 2 ^ 63 -> is_u64 sequence_num ->
  is_u32 (Z.of_nat (length data)) ->
  Z.of_nat (length data) <= FileInfo.chunk_size file_info ->
  rx w = map RxByte
           (chunk_message chunk_id chunk_offset data (crc32_compute data)
              sequence_num) ++ rest ->
  tx_script w = [] -> write_script w = [] ->
  exists w',
    receive_chunk_step file file_info st w =
      (Continue (mkRecvState (u64 (r_sequence_num st + 1))
                   (u64 (r_received_chunks st + 1))
                   (u64 (r_received_bytes st + Z.of_nat (length data)))), w') /\
    sends w w' (message_bytes MSG_CHUNK_ACK (r_sequence_num st)
                  (chunk_ack_payload chunk_id 0) (uninit_bytes 32 w)) /\
    rx w' = rest /\
    fs w' = alter (file_pwrite (Z.to_nat chunk_offset) data) file (fs w) /\
    tx_script w' = [] /\ write_script w' = [] /\ rename_ok w' = rename_ok w /\
    history w' = history w ++ [CallSendChunkAck chunk_id 0].
Proof.
  intros Hid Hoff Hseq Hlen Hmax Hrx Htx Hws.
  assert (is_u64 chunk_offset) as Hoff64 by (unfold is_u64; lia).
  rewrite <- (chunk_message_bytes chunk_id chunk_offset data sequence_num
                (replicate 32 0) (replicate 24 0)) in Hrx
    by (done || apply length_replicate).
  unfold receive_chunk_step.
  rewrite (recv_chunk_message _ _ w chunk_id chunk_offset data
             (crc32_compute data) sequence_num (replicate 32 0) (replicate 24 0)
             rest Hid Hoff64 (crc32_compute_u32 data) Hseq (length_replicate _ _)
             (length_replicate _ _) Hlen Hmax Hrx).
  rewrite Z.eqb_refl.
  cbn [ChunkHeader.chunk_id ChunkHeader.chunk_offset ChunkHeader.chunk_size].
  rewrite file_write_chunk_ok by done.
  rewrite send_chunk_ack_ok by done.
  eexists. split; [reflexivity|].
  cbn [fs tx_log tx_script write_script rename_ok rx history set_tx set_history
       set_fs set_write_script set_rx].
  split; [|done].
  eexists. split; [reflexivity|]. cbn [wire flat_map]. by rewrite app_nil_r.
Qed.

Lemma alter_present (m : gmap (list Z) (list Z)) f k x :
  m !! k = Some x -> alter f k m = <[k := f x]> m.
Proof.
  intros Hk. apply map_eq. intros i.
  destruct (decide (i = k)) as [->|Hne].
  - by rewrite lookup_alter_eq, lookup_insert_eq, Hk.
  - by rewrite lookup_alter_ne, lookup_insert_ne.
Qed.

Lemma length_chunk_messages n chunk_id sequence_num chunk_size data :
  (n <= length (chunk_messages n chunk_id sequence_num chunk_size data))%nat.
Proof.
  revert chunk_id sequence_num.
  induction n as [|n IH]; intros chunk_id sequence_num; [simpl; lia|].
  cbn [chunk_messages]. rewrite length_app.
  specialize (IH (chunk_id + 1) (sequence_num + 1)).
  unfold chunk_message, message.
  rewrite length_app, length_serialize_header by apply length_replicate. lia.
Qed.

Lemma receive_chunks_all `{Host} file file_info data :
  let chunk_size := FileInfo.chunk_size file_info in
  let total := FileInfo.total_chunks file_info in
  0 < chunk_size < 2 ^ 32 ->
  (total - 1) * chunk_size <= Z.of_nat (length data) ->
  Z.of_nat (length data) < 2 ^ 62 -> total < 2 ^ 62 ->
  forall (k fuel : nat) (st : RecvState) (w : World) (seq : Z)
         (rest : list rx_item),
  0 <= r_received_chunks st -> r_received_chunks st + Z.of_nat k = total ->
  (k <= fuel)%nat ->
  0 <= r_sequence_num st -> r_sequence_num st + Z.of_nat k < 2 ^ 64 ->
  0 <= seq -> seq + Z.of_nat k < 2 ^ 64 ->
  rx w = map RxByte (chunk_messages k (r_received_chunks st) seq chunk_size data)
         ++ rest ->
  tx_script w = [] -> write_script w = [] ->
  fs w !! file = Some (take (Z.to_nat (r_received_chunks st * chunk_size)) data) ->
  exists st' w',
    receive_chunks fuel file file_info st w = (Some (Continue st'), w') /\
    sends w w' (chunk_acks k (r_received_chunks st) (r_sequence_num st)) /\
    rx w' = rest /\
    fs w' = <[file := take (Z.to_nat (total * chunk_size)) data]> (fs w) /\
    tx_script w' = [] /\ rename_ok w' = rename_ok w.
Proof.
  intros chunk_size total Hcs Hcover Hmax Htotal.
  induction k as [|k IH];
    intros fuel st w seq rest Hrc0 Hk Hfuel Hseq0 Hseq Hs0 Hs Hrx Htx Hws Hfile.
  - exists st, w. split; [|split; [|split; [|split]]].
    + destruct fuel; cbn [receive_chunks]; fold total;
        destruct (Z.ltb_spec (r_received_chunks st) total); try lia; reflexivity.
    + by apply sends_nothing.
    + simpl in Hrx. exact Hrx.
    + replace total with (r_received_chunks st) by lia.
      symmetry. by apply insert_id.
    + done.
  - destruct fuel as [|fuel]; [lia|]. cbn [receive_chunks]. fold total.
    destruct (Z.ltb_spec (r_received_chunks st) total); [|lia].
    cbn [chunk_messages] in Hrx. rewrite map_app, <- app_assoc in Hrx.
    assert (0 <= (r_received_chunks st) * chunk_size <= Z.of_nat (length data)) as Hoff.
    { split; [apply Z.mul_nonneg_nonneg; lia|].
      transitivity ((total - 1) * chunk_size); [|done].
      apply Z.mul_le_mono_nonneg_r; lia. }
    pose proof (file_piece_length chunk_size (r_received_chunks st) data ltac:(lia)) as Hplen.
    destruct (receive_chunk_step_stored file file_info st w (r_received_chunks st) (r_received_chunks st * chunk_size)
                (file_piece chunk_size (r_received_chunks st) data) seq
                (map RxByte (chunk_messages k (r_received_chunks st + 1) (seq + 1) chunk_size data)
                 ++ rest))
      as (w1 & -> & Hsent1 & Hrx1 & Hfs1 & Htx1 & Hws1 & Hren1 & _);
      [ unfold is_u64; lia | lia | unfold is_u64; lia | unfold is_u32; lia
      | done | done | done | done | ].
    rewrite (alter_present _ _ _ _ Hfile) in Hfs1.
    rewrite file_pwrite_append in Hfs1 by (rewrite length_take; lia).
    rewrite file_piece_append in Hfs1 by lia.
    destruct (IH fuel
                (mkRecvState (u64 (r_sequence_num st + 1)) (u64 (r_received_chunks st + 1))
                   (u64 (r_received_bytes st
                         + Z.of_nat (length (file_piece chunk_size (r_received_chunks st) data)))))
                w1 (seq + 1) rest)
      as (st' & w' & -> & Hsent & Hrx' & Hfs' & Htx' & Hren');
      try (cbn [r_sequence_num r_received_chunks]; unfold u64;
           rewrite ?Z.mod_small by lia; lia);
      try done.
    { cbn [r_received_chunks]. unfold u64. rewrite Z.mod_small by lia. exact Hrx1. }
    { cbn [r_received_chunks]. unfold u64. rewrite Z.mod_small by lia.
      rewrite Hfs1. apply lookup_insert_eq. }
    exists st', w'. split; [reflexivity|]. split; [|split; [done|split; [|split]]].
    + cbn [chunk_acks]. eapply sends_then.
      * rewrite <- (message_bytes_message MSG_CHUNK_ACK (r_sequence_num st)
                      (chunk_ack_payload (r_received_chunks st) 0) (uninit_bytes 32 w));
          [ exact Hsent1 | unfold known_msg_type, MSG_CHUNK_ACK; lia
          | unfold is_u64; lia
          | unfold chunk_ack_payload; rewrite length_app, length_be_bytes;
            by_evaluation
          | apply length_uninit_bytes ].
      * cbn [r_sequence_num r_received_chunks] in Hsent. unfold u64 in Hsent.
        rewrite !Z.mod_small in Hsent by lia. exact Hsent.
    + rewrite Hfs', Hfs1. apply insert_insert_eq.
    + done.
    + congruence.
Qed.

(** * The chunk loop takes the chunks as they come *)

(** C1 (amended): the receiver does not compare a chunk's chunk_id with the
    number of chunks it has accepted. While fewer than total_chunks chunks
    have been accepted, every CHUNK_DATA message with a valid header, a
    chunk_size within FileInfo.chunk_size, a chunk_offset below 2^63 and a
    matching CRC is written to the open temp file at the chunk_offset it
    declares, acknowledged with status 0 under its own chunk_id and counted
    as one more chunk received, whatever its chunk_id and its sequence
    number, provided the write and the sending of the acknowledgement
    succeed. After total_chunks such messages the chunk loop ends, and
    what the peer sent after them is left unread.

    In the statement [chunks] are such messages, as many as the loop may
    still accept and in any order of chunk_ids; the loop, given a turn for
    each, goes through them and is then where [st'] and [w'] say. *)
Theorem receiver_accepts_any_chunk_id `{Host}
    (file : list Z) (file_info : FileInfo) (chunks : list Chunk)
    (st : RecvState) (w : World) (content : list Z) (rest : list rx_item)
    (fuel : nat) :
  is_u32 (FileInfo.chunk_size file_info) ->
  is_u64 (FileInfo.total_chunks file_info) ->
  is_u64 (r_sequence_num st) ->
  0 <= r_received_chunks st ->
  r_received_chunks st + Z.of_nat (length chunks)
    <= FileInfo.total_chunks file_info ->
  Forall (acceptable_chunk file_info) chunks ->
  rx w = map RxByte (chunk_stream chunks) ++ rest ->
  tx_script w = [] -> write_script w = [] ->
  fs w !! file = Some content ->
  (length chunks <= fuel)%nat ->
  exists st' w',
    receive_chunks fuel file file_info st w
      = receive_chunks (fuel - length chunks) file file_info st' w' /\
    r_received_chunks st' = r_received_chunks st + Z.of_nat (length chunks) /\
    fs w' = <[file := store_chunks chunks content]> (fs w) /\
    history w' =
      history w ++ map (fun c => CallSendChunkAck (c_chunk_id c) 0) chunks /\
    sends w w' (chunk_ack_stream chunks (r_sequence_num st)) /\
    rx w' = rest /\
    (r_received_chunks st' = FileInfo.total_chunks file_info ->
     receive_chunks fuel file file_info st w = (Some (Continue st'), w')).
Proof.
  intros Hcs Htotal.
  revert st w content fuel.
  induction chunks as [|c chunks IH];
    intros st w content fuel Hseq Hrc0 Hcount Hok Hrx Htx Hws Hfile Hfuel.
  - exists st, w. cbn [length] in *.
    split; [by rewrite Nat.sub_0_r|]. split; [lia|].
    split; [symmetry; by apply insert_id|].
    split; [simpl; by rewrite app_nil_r|].
    split; [by apply sends_nothing|]. split; [exact Hrx|].
    intros Hdone.
    destruct fuel; cbn [receive_chunks];
      destruct (Z.ltb_spec (r_received_chunks st)
                  (FileInfo.total_chunks file_info)); try lia; reflexivity.
  - destruct fuel as [|fuel]; [simpl in Hfuel; lia|].
    cbn [length] in Hcount, Hfuel.
    apply Forall_cons in Hok as [(Hid & Hcseq & Hoff & Hlen) Hok].
    cbn [receive_chunks].
    destruct (Z.ltb_spec (r_received_chunks st)
                (FileInfo.total_chunks file_info)); [|lia].
    cbn [chunk_stream] in Hrx. rewrite map_app, <- app_assoc in Hrx.
    destruct (receive_chunk_step_stored file file_info st w (c_chunk_id c)
                (c_chunk_offset c) (c_data c) (c_sequence_num c)
                (map RxByte (chunk_stream chunks) ++ rest))
      as (w1 & -> & Hsent1 & Hrx1 & Hfs1 & Htx1 & Hws1 & _ & Hhist1);
      [ done | done | done | unfold is_u32 in *; lia | done | done | done
      | done | ].
    rewrite (alter_present _ _ _ _ Hfile) in Hfs1.
    assert (u64 (r_received_chunks st + 1) = r_received_chunks st + 1) as Hnext.
    { unfold u64, is_u64 in *. rewrite Z.mod_small; lia. }
    destruct (IH (mkRecvState (u64 (r_sequence_num st + 1))
                    (u64 (r_received_chunks st + 1))
                    (u64 (r_received_bytes st + Z.of_nat (length (c_data c)))))
                w1
                (file_pwrite (Z.to_nat (c_chunk_offset c)) (c_data c) content)
                fuel)
      as (st' & w' & -> & Hcount' & Hfs' & Hhist' & Hsent' & Hrx' & Hdone');
      cbn [r_sequence_num r_received_chunks] in *; try done.
    { unfold u64. apply Z.mod_pos_bound. lia. }
    { lia. }
    { lia. }
    { rewrite Hfs1. apply lookup_insert_eq. }
    { lia. }
    exists st', w'. cbn [length]. split; [reflexivity|]. split; [lia|].
    split; [|split; [|split; [|split; [exact Hrx'|]]]].
    + rewrite Hfs', Hfs1. cbn [store_chunks fold_left]. apply insert_insert_eq.
    + rewrite Hhist', Hhist1. cbn [map]. by rewrite <- app_assoc.
    + cbn [chunk_ack_stream]. eapply sends_then; [|exact Hsent'].
      rewrite <- (message_bytes_message MSG_CHUNK_ACK (r_sequence_num st)
                    (chunk_ack_payload (c_chunk_id c) 0) (uninit_bytes 32 w));
        [ exact Hsent1 | unfold known_msg_type, MSG_CHUNK_ACK; lia | done
        | unfold chunk_ack_payload; rewrite length_app, length_be_bytes;
          by_evaluation
        | apply length_uninit_bytes ].
    + intros Hdone. rewrite <- (Hdone' Hdone). reflexivity.
Qed.

Lemma receiver_accepts_any_chunk_id_witness :
  exists st' w',
    @receive_chunks little_endian_host 2 (bytes_of_string "out/.a.txt.tmp")
      two_chunks_of_four (mkRecvState 3 0 0) out_of_order_world
    = (Some (Continue st'), w') /\
    r_received_chunks st' = 2 /\
    fs w' !! bytes_of_string "out/.a.txt.tmp" = Some [1; 2; 3; 4] /\
    history w' = [CallSendChunkAck 5 0; CallSendChunkAck 0 0] /\
    rx w' = map RxByte third_chunk.
Proof.
  destruct (@receiver_accepts_any_chunk_id little_endian_host
              (bytes_of_string "out/.a.txt.tmp") two_chunks_of_four
              chunks_out_of_order (mkRecvState 3 0 0) out_of_order_world []
              (map RxByte third_chunk) 2)
    as (st' & w' & _ & Hcount & Hfs & Hhist & _ & Hrx & Hdone);
    [ by_evaluation | by_evaluation | by_evaluation | by_evaluation
    | by_evaluation
    | repeat constructor; by_evaluation
    | by_evaluation | by_evaluation | by_evaluation | by_evaluation
    | simpl; lia | ].
  exists st', w'. split; [apply Hdone; rewrite Hcount; reflexivity|].
  split; [rewrite Hcount; reflexivity|].
  split; [|split; [exact Hhist|exact Hrx]].
  rewrite Hfs. rewrite lookup_insert_eq. reflexivity.
Defined.

Lemma perform_handshake_server_ok `{Host} w rest :
  tx_script w = [] ->
  rx w = map RxByte (message MSG_HANDSHAKE_REQ 0 [1; 0; 0; 0]) ++ rest ->
  perform_handshake_server w =
  (Ok tt,
   set_tx []
     (tx_log w
      ++ [Sent (protocol_serialize_header
                  (protocol_init_header MSG_HANDSHAKE_ACK 1 4) (uninit_bytes 32 w));
          Sent [1; 0; 0; 0]]) (set_rx rest w)).
Proof.
  intros Htx Hrx.
  rewrite <- (message_bytes_message MSG_HANDSHAKE_REQ 0 [1; 0; 0; 0]
                (replicate 32 0)) in Hrx
    by (done || by_evaluation || (unfold known_msg_type, MSG_HANDSHAKE_REQ; lia)).
  rewrite (perform_handshake_server_request w 0 1 [0; 0; 0] (replicate 32 0) rest)
    by (done || by_evaluation).
  change (1 =? FT_PROTOCOL_VERSION) with true. cbv iota.
  rewrite send_message_ok by (done || lia).
  reflexivity.
Qed.

Lemma recv_file_info_ok `{Host} w file_info sequence_num tail_bytes rest :
  wf_file_info file_info -> is_u64 sequence_num -> length tail_bytes = 32%nat ->
  rx w = map RxByte (message MSG_FILE_INFO sequence_num
                       (file_info_fields file_info ++ tail_bytes)) ++ rest ->
  exists f0,
    recv_file_info w = (Ok (received_file_info file_info f0), set_rx rest w).
Proof.
  intros Hwf Hseq Htail Hrx.
  assert (length (file_info_fields file_info ++ tail_bytes) = 1024%nat) as Hlen.
  { rewrite length_app, length_file_info_fields, Htail by done. reflexivity. }
  rewrite <- (message_bytes_message MSG_FILE_INFO sequence_num _ (replicate 32 0))
    in Hrx;
    [| unfold known_msg_type, MSG_FILE_INFO; lia | done
     | rewrite Hlen; by_evaluation | apply length_replicate ].
  eexists.
  unfold recv_file_info, uninit_FileInfo, uninit, bind, ret.
  rewrite (recv_message_of_bytes (uninit_bytes FT_FILE_INFO_SIZE w)
             (Z.of_nat FT_FILE_INFO_SIZE) w MSG_FILE_INFO sequence_num
             (file_info_fields file_info ++ tail_bytes) (replicate 32 0) rest);
    [| unfold known_msg_type, MSG_FILE_INFO; lia | done | apply length_replicate
     | rewrite Hlen; by_evaluation | rewrite Hlen; by_evaluation | exact Hrx ].
  cbn [with_checksum protocol_init_header MessageHeader.msg_type].
  change (negb (u8 MSG_FILE_INFO =? MSG_FILE_INFO)) with false. cbv iota.
  unfold buf_write. rewrite take_0, app_nil_l, <- app_assoc.
  rewrite deserialize_file_info_fields by done.
  reflexivity.
Qed.

Lemma receive_file_all `{Host} output_dir w file_info name data tail_bytes rest
    available :
  let chunk_size := FileInfo.chunk_size file_info in
  let total := FileInfo.total_chunks file_info in
  let n := Z.to_nat total in
  wf_file_info file_info -> 0 < chunk_size ->
  FileInfo.file_size file_info = Z.of_nat (length data) ->
  (total - 1) * chunk_size <= Z.of_nat (length data) <= total * chunk_size ->
  Z.of_nat (length data) < 2 ^ 62 -> total < 2 ^ 62 ->
  file_sanitize_filename (take 255 (FileInfo.filename file_info) ++ [0])
    (Z.of_nat FT_MAX_FILENAME_LEN) = (FT_SUCCESS, name) ->
  tx_script w = [] -> write_script w = [] -> malloc_ok w = true ->
  fopen_errno w = None -> rename_ok w = true ->
  disk_avail w = Some available -> Z.of_nat (length data) <= available ->
  length tail_bytes = 32%nat ->
  rx w = map RxByte
           (message MSG_HANDSHAKE_REQ 0 [1; 0; 0; 0]
            ++ message MSG_FILE_INFO 2 (file_info_fields file_info ++ tail_bytes)
            ++ chunk_messages n 0 3 chunk_size data) ++ rest ->
  exists w',
    receive_file output_dir w = (Some 0, w') /\
    sends w w' (receiver_replies n) /\
    fs w' !! file_build_path output_dir name 1024 = Some data /\
    rx w' = rest.
Proof.
  intros chunk_size total n Hwf Hcs Hsize Hcover Hmax Htotal Hname Htx Hws
    Hmalloc Hfopen Hrename Hdisk Havail Htail Hrx.
  destruct Hwf as (Hw1 & Hw2 & Hw3 & Hw4 & Hw5 & Hw6 & Hw7 & Hw8).
  assert (wf_file_info file_info) as Hwf by done.
  assert (0 <= total) as Htotal0 by apply Hw4.
  rewrite !map_app, <- !app_assoc in Hrx.
  (* the handshake *)
  pose proof (perform_handshake_server_ok w _ Htx Hrx) as Hhs.
  (* the file info *)
  set (w1 := set_tx [] _ (set_rx _ w)) in Hhs.
  destruct (recv_file_info_ok w1 file_info 2 tail_bytes
              (map RxByte (chunk_messages n 0 3 chunk_size data) ++ rest))
    as [f0 Hfi]; [done | by_evaluation | done | reflexivity |].
  set (w2 := set_rx _ w1) in Hfi.
  (* up to the open temp file *)
  set (temp_path :=
         take (1024 - 1)
           (output_dir ++ [PATH_SEPARATOR] ++ [chr "."] ++ name
            ++ bytes_of_string ".tmp")).
  set (w3 := set_fs (<[temp_path := []]> (fs w2)) w2).
  assert (receive_file_prepare output_dir w =
          (Ok (mkPrepared (received_file_info file_info f0) name temp_path
                 temp_path 2), w3)) as Hprep.
  { unfold receive_file_prepare. unfold bind at 1. rewrite Hhs.
    unfold bind at 1. rewrite Hfi.
    cbn [received_file_info FileInfo.filename FileInfo.file_size]. rewrite Hname.
    change (negb (bool_decide (FT_SUCCESS = FT_SUCCESS))) with false. cbv iota.
    unfold bind, on_failure, file_check_disk_space, file_open_write.
    cbn [disk_avail set_rx set_tx w2 w1]. rewrite Hdisk, Hsize.
    destruct (Z.ltb_spec available (Z.of_nat (length data))); [lia|].
    cbv beta iota zeta.
    change (fopen_errno w2) with (fopen_errno w).
    rewrite Hfopen. reflexivity. }
  (* the transfer *)
  set (w4 := set_tx []
               (tx_log w3
                ++ [Sent (protocol_serialize_header
                            (protocol_init_header MSG_FILE_ACK 2 4)
                            (uninit_bytes 32 w3));
                    Sent [0; 0; 0; 0]]) w3).
  assert (send_message MSG_FILE_ACK 2 [0; 0; 0; 0] 4 w3 = (Ok tt, w4)) as Hack.
  { rewrite send_message_ok by (done || lia). reflexivity. }
  destruct (receive_chunks_all temp_path (received_file_info file_info f0) data)
    with (k := n) (fuel := S (length (rx w4))) (st := mkRecvState (u64 (2 + 1)) 0 0)
         (w := w4) (seq := 3) (rest := rest)
    as (st' & w5 & Hloop & Hsent & Hrx5 & Hfs5 & Htx5 & Hren5);
    try done; try (cbn [r_sequence_num r_received_chunks]; lia);
    try (subst n; cbn [r_received_chunks]; lia); try apply Hcover.
  { split; [done|apply Hw5]. }
  { cbn [r_received_chunks received_file_info FileInfo.total_chunks].
    fold total. subst n. lia. }
  { cbn [rx w4 w3 w2 w1 set_tx set_fs set_rx]. rewrite length_app, length_map.
    pose proof (length_chunk_messages n 0 3 chunk_size data). lia. }
  { cbn [r_sequence_num]. change (u64 (2 + 1)) with 3. subst n. lia. }
  { cbn [r_received_chunks]. rewrite Z.mul_0_l. change (Z.to_nat 0) with 0%nat.
    rewrite take_0. apply lookup_insert_eq. }
  exists (set_fs (<[file_build_path output_dir name 1024 :=
                      take (Z.to_nat (total * chunk_size)) data]>
                    (delete temp_path (fs w5))) w5).
  split; [|split; [|split]].
  - unfold receive_file. rewrite Hprep. unfold receive_file_transfer.
    cbn [p_file p_sequence_num p_file_info p_temp_path p_sanitized_name].
    rewrite Hack.
    replace (malloc_ok w4) with true by done.
    cbn [negb]. rewrite Hloop.
    unfold file_finalize_write. rewrite Hren5.
    replace (rename_ok w4) with true by done.
    rewrite Hfs5, lookup_insert_eq. reflexivity.
  - unfold receiver_replies.
    apply sends_then with (w1 := w3).
    + exists [Sent (protocol_serialize_header
                      (protocol_init_header MSG_HANDSHAKE_ACK 1 4)
                      (uninit_bytes 32 w)); Sent [1; 0; 0; 0]].
      split; [reflexivity|]. cbn [wire flat_map]. rewrite app_nil_r.
      apply (message_bytes_message MSG_HANDSHAKE_ACK 1 [1; 0; 0; 0]);
        [unfold known_msg_type, MSG_HANDSHAKE_ACK; lia | by_evaluation..
        | apply length_uninit_bytes].
    + apply sends_then with (w1 := w4).
      * eexists. split; [reflexivity|]. cbn [wire flat_map]. rewrite app_nil_r.
        apply (message_bytes_message MSG_FILE_ACK 2 [0; 0; 0; 0]);
          [unfold known_msg_type, MSG_FILE_ACK; lia | by_evaluation..
          | apply length_uninit_bytes].
      * destruct Hsent as (l & Hl & Hwire). exists l. split; [exact Hl|exact Hwire].
  - cbn [fs set_fs]. rewrite lookup_insert_eq. f_equal.
    apply take_ge. lia.
  - exact Hrx5.
Qed.

(** X25: what [send_file] puts on the wire when nothing goes wrong and the
    file is as long as [stat] said: a HANDSHAKE_REQ with sequence number
    0, the FILE_INFO with sequence number 2, then one CHUNK_DATA message
    per chunk, in order, numbered from 3 on, each with the bytes of its
    chunk and their CRC-32; and it returns 0. *)
Theorem send_file_wire `{Host} (filepath : list Z) (w : World)
    (metadata : FileMetadata) (rest : list rx_item) :
  send_file_open filepath w = (Ok metadata, w) ->
  m_file_size metadata = Z.of_nat (length (src_data w)) ->
  Z.of_nat (length (src_data w)) < 2 ^ 62 ->
  sender_unhindered w ->
  let file_info := prepare_file_info metadata in
  let n := Z.to_nat (FileInfo.total_chunks file_info) in
  rx w = map RxByte (receiver_replies n) ++ rest ->
  exists w',
    send_file filepath w = (Some 0, w') /\ rx w' = rest /\
    sent_since w w' =
      message MSG_HANDSHAKE_REQ 0 [1; 0; 0; 0]
      ++ message MSG_FILE_INFO 2
           (file_info_fields file_info ++ drop 992 (uninit_bytes 1024 w))
      ++ chunk_messages n 0 3 FT_DEFAULT_CHUNK_SIZE (src_data w).
Proof.
  intros Hopen Hsize Hmax (Hrs & Htx & Hmalloc) file_info n Hrx.
  destruct (send_file_all filepath w metadata rest Hopen Hsize Hmax Hrs Htx
              Hmalloc Hrx) as (w' & Hrun & Hsent & Hrx').
  exists w'. split; [done|]. split; [done|]. by apply sends_sent_since.
Qed.

Lemma send_file_wire_witness :
  fst three_bytes_sent = Some 0 /\
  sent_since three_byte_source (snd three_bytes_sent) =
    message MSG_HANDSHAKE_REQ 0 [1; 0; 0; 0]
    ++ message MSG_FILE_INFO 2
         (file_info_fields (prepare_file_info three_byte_metadata)
          ++ replicate 32 0)
    ++ chunk_message 0 0 [7; 8; 9] (crc32_compute [7; 8; 9]) 3.
Proof.
  destruct (@send_file_wire little_endian_host (bytes_of_string "dir/data.bin")
              three_byte_source three_byte_metadata [])
    as (w' & Hrun & _ & Hsent); [by_evaluation..|].
  unfold three_bytes_sent. rewrite Hrun. split; [reflexivity|].
  cbn [snd]. rewrite Hsent. vm_compute. reflexivity.
Defined.

(** X26: what [receive_file] does with such a stream when nothing goes
    wrong: it answers HANDSHAKE_ACK (sequence number 1), FILE_ACK (2) and
    one CHUNK_ACK with status 0 per chunk (from 3 on), returns 0, and the
    final path holds the chunks one after the other, that is, the file. *)
Theorem receive_file_stores_the_file `{Host} (output_dir : list Z) (w : World)
    (file_info : FileInfo) (name data tail_bytes : list Z) (rest : list rx_item) :
  let chunk_size := FileInfo.chunk_size file_info in
  let total := FileInfo.total_chunks file_info in
  let n := Z.to_nat total in
  wf_file_info file_info -> 0 < chunk_size ->
  FileInfo.file_size file_info = Z.of_nat (length data) ->
  (total - 1) * chunk_size <= Z.of_nat (length data) <= total * chunk_size ->
  Z.of_nat (length data) < 2 ^ 62 -> total < 2 ^ 62 ->
  file_sanitize_filename (take 255 (FileInfo.filename file_info) ++ [0])
    (Z.of_nat FT_MAX_FILENAME_LEN) = (FT_SUCCESS, name) ->
  receiver_unhindered w (Z.of_nat (length data)) ->
  length tail_bytes = 32%nat ->
  rx w = map RxByte
           (message MSG_HANDSHAKE_REQ 0 [1; 0; 0; 0]
            ++ message MSG_FILE_INFO 2 (file_info_fields file_info ++ tail_bytes)
            ++ chunk_messages n 0 3 chunk_size data) ++ rest ->
  exists w',
    receive_file output_dir w = (Some 0, w') /\ rx w' = rest /\
    sent_since w w' = receiver_replies n /\
    fs w' !! file_build_path output_dir name 1024 = Some data.
Proof.
  intros chunk_size total n Hwf Hcs Hsize Hcover Hmax Htotal Hname
    (Htx & Hws & Hmalloc & Hfopen & Hrename & available & Hdisk & Havail)
    Htail Hrx.
  destruct (receive_file_all output_dir w file_info name data tail_bytes rest
              available Hwf Hcs Hsize Hcover Hmax Htotal Hname Htx Hws Hmalloc
              Hfopen Hrename Hdisk Havail Htail Hrx)
    as (w' & Hrun & Hsent & Hfile & Hrx').
  exists w'. split; [done|]. split; [done|]. split; [|done].
  by apply sends_sent_since.
Qed.

Lemma receive_file_stores_the_file_witness :
  exists w',
    @receive_file big_endian_host (bytes_of_string "out") three_byte_sink
      = (Some 0, w') /\
    fs w' !! bytes_of_string "out/data.bin" = Some [7; 8; 9].
Proof.
  destruct (@receive_file_stores_the_file big_endian_host (bytes_of_string "out")
              three_byte_sink (prepare_file_info three_byte_metadata)
              (bytes_of_string "data.bin") [7; 8; 9] (replicate 32 0) [])
    as (w' & Hrun & _ & _ & Hfile).
  - by_evaluation.
  - by_evaluation.
  - by_evaluation.
  - by_evaluation.
  - by_evaluation.
  - by_evaluation.
  - vm_compute. reflexivity.
  - unfold receiver_unhindered. repeat split; try reflexivity.
    exists (2 ^ 40). split; [reflexivity | by_evaluation].
  - reflexivity.
  - vm_compute. reflexivity.
  - exists w'. split; [exact Hrun | exact Hfile].
Defined.

Lemma prepared_filename_received metadata :
  take 255 (FileInfo.filename (prepare_file_info metadata)) ++ [0]
  = FileInfo.filename (prepare_file_info metadata).
Proof.
  cbn [prepare_file_info FileInfo.filename].
  change (FT_MAX_FILENAME_LEN - 1)%nat with 255%nat.
  by rewrite take_app_length' by (by rewrite length_strncpy).
Qed.

(** X27: a file sent by [send_file] to [receive_file] arrives intact. When
    nothing goes wrong on either side, the file is as long as [stat] said
    and the receiver accepts its name, the sender, reading the replies the
    receiver gives, returns 0; the receiver, reading what the sender has
    sent, gives exactly those replies, returns 0, and leaves the bytes of
    the source file at <output_dir>/<name>. The two hosts may differ in
    byte order. *)
Theorem file_arrives_intact (sender receiver : Host)
    (filepath output_dir : list Z) (ws wr : World) (metadata : FileMetadata)
    (name : list Z) (rest_s rest_r : list rx_item) :
  @send_file_open filepath ws = (Ok metadata, ws) ->
  m_file_size metadata = Z.of_nat (length (src_data ws)) ->
  Z.of_nat (length (src_data ws)) < 2 ^ 62 ->
  file_sanitize_filename (FileInfo.filename (prepare_file_info metadata))
    (Z.of_nat FT_MAX_FILENAME_LEN) = (FT_SUCCESS, name) ->
  sender_unhindered ws ->
  receiver_unhindered wr (Z.of_nat (length (src_data ws))) ->
  let n := Z.to_nat (FileInfo.total_chunks (prepare_file_info metadata)) in
  rx ws = map RxByte (receiver_replies n) ++ rest_s ->
  exists ws',
    @send_file sender filepath ws = (Some 0, ws') /\ rx ws' = rest_s /\
    (rx wr = map RxByte (sent_since ws ws') ++ rest_r ->
     exists wr',
       @receive_file receiver output_dir wr = (Some 0, wr') /\ rx wr' = rest_r /\
       sent_since wr wr' = receiver_replies n /\
       fs wr' !! file_build_path output_dir name 1024 = Some (src_data ws)).
Proof.
  intros Hopen Hsize Hmax Hname (Hrs & Htx & Hmalloc)
    (Htxr & Hws & Hmallocr & Hfopen & Hrename & available & Hdisk & Havail)
    n Hrx.
  destruct (@send_file_all sender filepath ws metadata rest_s Hopen Hsize Hmax
              Hrs Htx Hmalloc Hrx) as (ws' & Hrun & Hsent & Hrx').
  exists ws'. split; [done|]. split; [done|].
  rewrite (sends_sent_since _ _ _ Hsent). intros Hrxr.
  destruct (send_file_open_ok _ _ _ _ Hopen) as (_ & Hs64 & Hmode & Htime).
  pose proof (wf_prepare_file_info metadata Hs64 Hmode Htime) as Hwf.
  destruct (total_chunks_cover metadata (src_data ws) Hsize Hmax) as [Htotal Hcover].
  rewrite <- prepared_filename_received in Hname.
  destruct (@receive_file_all receiver output_dir wr (prepare_file_info metadata)
              name (src_data ws) (drop 992 (uninit_bytes 1024 ws)) rest_r
              available)
    as (wr' & Hrunr & Hsentr & Hfile & Hrxr');
    try done; try apply Htotal.
  { rewrite length_drop, length_uninit_bytes. reflexivity. }
  exists wr'. split; [done|]. split; [done|]. split; [|done].
  by apply sends_sent_since.
Qed.

Lemma file_arrives_intact_witness :
  exists wr',
    @receive_file big_endian_host (bytes_of_string "out") three_byte_sink
      = (Some 0, wr') /\
    fs wr' !! bytes_of_string "out/data.bin" = Some (src_data three_byte_source).
Proof.
  destruct (file_arrives_intact little_endian_host big_endian_host
              (bytes_of_string "dir/data.bin") (bytes_of_string "out")
              three_byte_source three_byte_sink three_byte_metadata
              (bytes_of_string "data.bin") [] [])
    as (ws' & Hrun & _ & Hreceiver).
  - vm_compute. reflexivity.
  - reflexivity.
  - by_evaluation.
  - vm_compute. reflexivity.
  - unfold sender_unhindered. repeat split; reflexivity.
  - unfold receiver_unhindered. repeat split; try reflexivity.
    exists (2 ^ 40). split; [reflexivity | by_evaluation].
  - vm_compute. reflexivity.
  - destruct Hreceiver as (wr' & Hrunr & _ & _ & Hfile).
    + assert (ws' = snd three_bytes_sent) as ->
        by (unfold three_bytes_sent; by rewrite Hrun).
      reflexivity.
    + exists wr'. split; [exact Hrunr | exact Hfile].
Defined.
